(** * metadataconvert: the result table and the commit-table actions

    A shallow embedding of the two Lightning web components of the
    repository,

    - [lwc/resultTable/resultTable.js] (the violation report viewer) and
    - [lwc/userStoryCommitTableActions/userStoryCommitTableActions.js]
      (the commit-table action handler),

    together with the part of the JavaScript semantics their code relies
    on: truthiness, string coercion, property reads through the prototype
    chain, the string methods used, and the stable [Array.prototype.sort].

    Conventions.
    - A computation that can throw returns an [option]; [None] is a thrown
      exception.  The code never inspects the exception it catches.
    - Strings are sequences of code units below 256 (Latin-1); every string
      operation the code uses is closed on them.
    - Numbers are the integers ([Z]), which is what the payloads carry
      (severities, line numbers, location indexes); their string is the
      decimal numeral, as JavaScript prints an integer below 10^21.
    - What the platform provides and cannot be given by a finite table
      ([JSON.parse], the text of a native function, the numeric branch of
      the relational comparison) is a parameter, see [Platform]. *)

From Stdlib Require Import String Ascii List ZArith Lia Bool Arith.
From Stdlib Require Import Permutation Sorted DecimalString DecimalN DecimalPos.
From Stdlib Require Import DecimalZ FinFun.
Import ListNotations.
Local Open Scope list_scope.
Local Open Scope string_scope.
Set Warnings "-register-all".

(** ** Exceptions *)

Definition bind {A B : Type} (m : option A) (k : A -> option B) : option B :=
  match m with
  | Some a => k a
  | None => None
  end.

Notation "x <- m ;; k" := (bind m (fun x => k))
  (at level 61, m at next level, right associativity).

Notation "' pat <- m ;; k" :=
  (bind m (fun x => match x with pat => k end))
  (at level 61, pat pattern, m at next level, right associativity).

(** [l.map((x, idx) => f idx x)] where the callback can throw. *)
Fixpoint mapi_from {A B : Type} (f : nat -> A -> option B) (i : nat)
    (l : list A) : option (list B) :=
  match l with
  | [] => Some []
  | x :: rest =>
      y <- f i x ;;
      ys <- mapi_from f (S i) rest ;;
      Some (y :: ys)
  end.

(** ** Strings *)

Module Str.

Definition mem (k : string) (names : list string) : bool :=
  existsb (String.eqb k) names.

Fixpoint drop (n : nat) (s : string) : string :=
  match n, s with
  | O, _ => s
  | S n', String _ s' => drop n' s'
  | S _, EmptyString => EmptyString
  end.

(** [s.includes(sub)] *)
Fixpoint includes (s sub : string) : bool :=
  prefix sub s ||
  match s with
  | EmptyString => false
  | String _ s' => includes s' sub
  end.

(** The first occurrence of [pat] in [s]: what precedes it and what
    follows it. *)
Fixpoint cut (pat s : string) : option (string * string) :=
  if prefix pat s then Some (EmptyString, drop (String.length pat) s)
  else
    match s with
    | EmptyString => None
    | String c s' =>
        match cut pat s' with
        | Some (before, after) => Some (String c before, after)
        | None => None
        end
    end.

(** GetSubstitution (ECMA-262, 22.1.3.19.1) for a string pattern, which has
    no captures: only [$$], [$&], [$`] and [$'] are replaced. *)
Fixpoint GetSubstitution (matched before after template : string) : string :=
  match template with
  | EmptyString => EmptyString
  | String "$" (String "$" r) =>
      String "$" (GetSubstitution matched before after r)
  | String "$" (String "&" r) =>
      matched ++ GetSubstitution matched before after r
  | String "$" (String "`" r) =>
      before ++ GetSubstitution matched before after r
  | String "$" (String "'" r) =>
      after ++ GetSubstitution matched before after r
  | String c r => String c (GetSubstitution matched before after r)
  end.

(** [s.replace(pat, replacement)], both strings: the first occurrence. *)
Definition replace (s pat replacement : string) : string :=
  match cut pat s with
  | Some (before, after) =>
      before ++ GetSubstitution pat before after replacement ++ after
  | None => s
  end.

(** [s.split(/\r?\n/g)] *)
Fixpoint split_newlines (s : string) : list string :=
  match s with
  | EmptyString => [EmptyString]
  | String "010" s' => EmptyString :: split_newlines s'
  | String "013" (String "010" s') => EmptyString :: split_newlines s'
  | String c s' =>
      match split_newlines s' with
      | [] => [String c EmptyString]
      | line :: rest => String c line :: rest
      end
  end.

Definition lower_char (c : ascii) : ascii :=
  let n := nat_of_ascii c in
  if ((65 <=? n) && (n <=? 90)
      || (192 <=? n) && (n <=? 222) && negb (n =? 215))%nat
  then ascii_of_nat (n + 32)
  else c.

(** [s.toLowerCase()] *)
Fixpoint toLowerCase (s : string) : string :=
  match s with
  | EmptyString => EmptyString
  | String c s' => String (lower_char c) (toLowerCase s')
  end.

(** White space and line terminators below 256: TAB, LF, VT, FF, CR, SP and
    NBSP. *)
Definition is_white_space (c : ascii) : bool :=
  let n := nat_of_ascii c in
  ((9 <=? n) && (n <=? 13) || (n =? 32) || (n =? 160))%nat.

Fixpoint trimStart (s : string) : string :=
  match s with
  | EmptyString => EmptyString
  | String c s' => if is_white_space c then trimStart s' else s
  end.

Fixpoint trimEnd (s : string) : string :=
  match s with
  | EmptyString => EmptyString
  | String c s' =>
      match trimEnd s' with
      | EmptyString => if is_white_space c then EmptyString else String c EmptyString
      | t => String c t
      end
  end.

(** [s.trim()] *)
Definition trim (s : string) : string := trimEnd (trimStart s).

(** The longest prefix whose characters satisfy [p], and the rest. *)
Fixpoint span (p : ascii -> bool) (s : string) : string * string :=
  match s with
  | EmptyString => (EmptyString, EmptyString)
  | String c s' =>
      if p c then let (taken, rest) := span p s' in (String c taken, rest)
      else (EmptyString, s)
  end.


(** Every code unit of a string satisfies [p]. *)
Fixpoint every (p : ascii -> bool) (s : string) : bool :=
  match s with
  | EmptyString => true
  | String c s' => p c && every p s'
  end.

(** [s.split(sep)] for a separator of one code unit. *)
Fixpoint split (sep : ascii) (s : string) : list string :=
  match s with
  | EmptyString => [EmptyString]
  | String c s' =>
      if Ascii.eqb c sep then EmptyString :: split sep s'
      else
        match split sep s' with
        | [] => [String c EmptyString]
        | part :: rest => String c part :: rest
        end
  end.

(** What follows the last occurrence of a code unit in a string. *)
Fixpoint afterLast (sep : ascii) (s : string) : string :=
  match s with
  | EmptyString => EmptyString
  | String c s' =>
      if every (fun d => negb (Ascii.eqb d sep)) s'
      then if Ascii.eqb c sep then s' else s
      else afterLast sep s'
  end.

End Str.

(** ** Values

    What [JSON.parse] returns, and [undefined].  An object is the list of
    its own properties; a read takes the first binding of a key. *)

Inductive value : Type :=
  | VUndefined
  | VNull
  | VBool (b : bool)
  | VNum (n : Z)
  | VStr (s : string)
  | VArr (items : list value)
  | VObj (fields : list (string * value)).

Fixpoint assoc {A : Type} (k : string) (fields : list (string * A)) : option A :=
  match fields with
  | [] => None
  | (k', v) :: rest => if String.eqb k k' then Some v else assoc k rest
  end.

Definition has_key {A : Type} (k : string) (fields : list (string * A)) : bool :=
  match assoc k fields with
  | Some _ => true
  | None => false
  end.

(** ToBoolean *)
Definition truthy (v : value) : bool :=
  match v with
  | VUndefined | VNull => false
  | VBool b => b
  | VNum n => negb (n =? 0)%Z
  | VStr s => negb (String.eqb s "")
  | VArr _ | VObj _ => true
  end.

(** Number::toString on an integer. *)
Definition Number_toString (n : Z) : string :=
  NilZero.string_of_int (Z.to_int n).

(** [items.join(sep)] with [str] converting the items: [undefined] and
    [null] give the empty string. *)
Definition join_with (str : value -> option string) (sep : string)
    : list value -> option string :=
  fix join (l : list value) : option string :=
    match l with
    | [] => Some ""
    | x :: rest =>
        sx <- match x with
              | VUndefined | VNull => Some ""
              | _ => str x
              end ;;
        match rest with
        | [] => Some sx
        | _ :: _ => srest <- join rest ;; Some (sx ++ sep ++ srest)
        end
    end.

(** ToString, as [String(v)], a template literal and a property key apply
    it.  An array is joined with commas.  An object answers through
    [Object.prototype.toString] unless it has an own property [toString]: a
    parsed value is never callable, OrdinaryToPrimitive then finds no
    method that returns a primitive, and the conversion throws a
    TypeError. *)
Fixpoint to_string (v : value) : option string :=
  match v with
  | VUndefined => Some "undefined"
  | VNull => Some "null"
  | VBool true => Some "true"
  | VBool false => Some "false"
  | VNum n => Some (Number_toString n)
  | VStr s => Some s
  | VArr items => join_with to_string "," items
  | VObj fields =>
      if has_key "toString" fields then None else Some "[object Object]"
  end.

(** ** Property reads

    The members of the built-in prototypes (ECMA-262, 2024 edition, with
    Annex B).  A read that finds no own property continues there. *)

Definition Object_prototype : list string :=
  [ "constructor"; "__defineGetter__"; "__defineSetter__"; "hasOwnProperty";
    "__lookupGetter__"; "__lookupSetter__"; "isPrototypeOf";
    "propertyIsEnumerable"; "toString"; "valueOf"; "__proto__";
    "toLocaleString" ].

Definition Array_prototype : list string :=
  [ "at"; "concat"; "constructor"; "copyWithin"; "entries"; "every"; "fill";
    "filter"; "find"; "findIndex"; "findLast"; "findLastIndex"; "flat";
    "flatMap"; "forEach"; "includes"; "indexOf"; "join"; "keys";
    "lastIndexOf"; "map"; "pop"; "push"; "reduce"; "reduceRight"; "reverse";
    "shift"; "slice"; "some"; "sort"; "splice"; "toLocaleString";
    "toReversed"; "toSorted"; "toSpliced"; "toString"; "unshift"; "values";
    "with" ].

Definition String_prototype : list string :=
  [ "at"; "charAt"; "charCodeAt"; "codePointAt"; "concat"; "constructor";
    "endsWith"; "includes"; "indexOf"; "isWellFormed"; "lastIndexOf";
    "localeCompare"; "match"; "matchAll"; "normalize"; "padEnd"; "padStart";
    "repeat"; "replace"; "replaceAll"; "search"; "slice"; "split";
    "startsWith"; "substring"; "toLocaleLowerCase"; "toLocaleUpperCase";
    "toLowerCase"; "toString"; "toUpperCase"; "toWellFormed"; "trim";
    "trimEnd"; "trimStart"; "valueOf"; "substr"; "anchor"; "big"; "blink";
    "bold"; "fixed"; "fontcolor"; "fontsize"; "italics"; "link"; "small";
    "strike"; "sub"; "sup"; "trimLeft"; "trimRight" ].

Definition Number_prototype : list string :=
  [ "constructor"; "toExponential"; "toFixed"; "toLocaleString";
    "toPrecision"; "toString"; "valueOf" ].

Definition Boolean_prototype : list string :=
  [ "constructor"; "toString"; "valueOf" ].

(** The keys that are array indexes: the canonical numerals below 2^32 - 1. *)
Definition array_index (k : string) : option N :=
  match NilZero.uint_of_string k with
  | Some d =>
      let n := N.of_uint d in
      if String.eqb (NilZero.string_of_uint (N.to_uint n)) k
         && (n <? 4294967295)%N
      then Some n
      else None
  | None => None
  end.

(** [items[n]] *)
Definition item (items : list value) (n : N) : option value :=
  if (n <? N.of_nat (List.length items))%N then nth_error items (N.to_nat n)
  else None.

(** [s[n]]: the string of the code unit at [n]. *)
Definition char_at (s : string) (n : N) : option value :=
  if (n <? N.of_nat (String.length s))%N then
    match String.get (N.to_nat n) s with
    | Some c => Some (VStr (String c EmptyString))
    | None => None
    end
  else None.

Definition own_property (o : value) (k : string) : option value :=
  match o with
  | VObj fields => assoc k fields
  | VArr items =>
      match array_index k with
      | Some n => item items n
      | None =>
          if String.eqb k "length" then Some (VNum (Z.of_nat (List.length items)))
          else None
      end
  | VStr s =>
      match array_index k with
      | Some n => char_at s n
      | None =>
          if String.eqb k "length" then Some (VNum (Z.of_nat (String.length s)))
          else None
      end
  | _ => None
  end.

Definition inherited (o : value) (k : string) : bool :=
  match o with
  | VUndefined | VNull => false
  | VBool _ => Str.mem k Boolean_prototype || Str.mem k Object_prototype
  | VNum _ => Str.mem k Number_prototype || Str.mem k Object_prototype
  | VStr _ => Str.mem k String_prototype || Str.mem k Object_prototype
  | VArr _ => Str.mem k Array_prototype || Str.mem k Object_prototype
  | VObj _ => Str.mem k Object_prototype
  end.

(** What a read yields: a value, or a member of a built-in prototype (a
    native function, or the prototype object for [__proto__]).  Such a
    member is truthy and has none of the properties the code reads. *)
Inductive slot : Type :=
  | Val (v : value)
  | Builtin (name : string).

Definition truthy_slot (s : slot) : bool :=
  match s with
  | Val v => truthy v
  | Builtin _ => true
  end.

(** [o[k]] for a key already converted; a TypeError on [undefined] and
    [null]. *)
Definition Get (o : value) (k : string) : option slot :=
  match o with
  | VUndefined | VNull => None
  | _ =>
      Some match own_property o k with
           | Some v => Val v
           | None => if inherited o k then Builtin k else Val VUndefined
           end
  end.

(** [o[key]] *)
Definition index (o key : value) : option slot :=
  k <- to_string key ;;
  Get o k.

(** [o?.[key]] *)
Definition optional_index (o key : value) : option slot :=
  match o with
  | VUndefined | VNull => Some (Val VUndefined)
  | _ => index o key
  end.

(** [o.name] and [o[0]] for the property names the code spells out
    ([violations], [locations], [file], ...): none of them is a member of
    a built-in prototype, so the read is the own property or [undefined]
    (see [field_Get]). *)
Definition field (o : value) (name : string) : option value :=
  match o with
  | VUndefined | VNull => None
  | _ =>
      Some match own_property o name with
           | Some v => v
           | None => VUndefined
           end
  end.

(** [o?.name] *)
Definition optional_field (o : value) (name : string) : option value :=
  match o with
  | VUndefined | VNull => Some VUndefined
  | _ => field o name
  end.

Definition fixed_names : list string :=
  [ "violations"; "violationCounts"; "locations"; "primaryLocationIndex";
    "file"; "startLine"; "engine"; "rule"; "severity"; "message";
    "resources"; "tags"; "0"; "n"; "t"; "m"; "c";
    "SFCC_METADATA_ITEMS"; "SFCC_METADATA_DIRECTORY"; "SFCC_SITES" ].

(** [s.name] on the result of a read. *)
Definition slot_field (s : slot) (name : string) : option value :=
  match s with
  | Val v => field v name
  | Builtin _ => Some VUndefined
  end.

(** ** The platform *)

Record Platform : Type := {
  (** [JSON.parse(text)]; [None] is the SyntaxError. *)
  JSON_parse : string -> option value;
  (** The text [String(f)] gives for the member of [Object.prototype] of
      that name; it is implementation-defined. *)
  native_source : string -> string;
  (** The numeric branch of IsLessThan (ECMA-262, 7.2.13): [x < y] for two
      primitives that are not both strings. *)
  numeric_lt : value -> value -> bool;
  (** The order in which [Array.prototype.sort] leaves the elements when the
      comparator is not consistent for them; it is implementation-defined
      (ECMA-262, 23.1.3.30).  The comparator is given by its answers, a row
      for each element and in it the answer on each element, and the order
      by the indices of the elements. *)
  sort_order : list (list Z) -> list nat
}.

(** ** Records of resultTable.js *)

Module Violation.
Record t : Type := {
  allLocations : value;
  engine : value;
  file : string;
  fullViolation : value;
  id : string;
  line : value;
  message : value;
  resource : value;
  rule : value;
  severity : value;
  tags : value;
  severityLabel : string
}.

(** The enumerable properties, in the order [for (const key in row)]
    visits them. *)
Definition entries (row : t) : list (string * value) :=
  [ ("allLocations", allLocations row); ("engine", engine row);
    ("file", VStr (file row)); ("fullViolation", fullViolation row);
    ("id", VStr (id row)); ("line", line row); ("message", message row);
    ("resource", resource row); ("rule", rule row);
    ("severity", severity row); ("tags", tags row);
    ("severityLabel", VStr (severityLabel row)) ].
End Violation.

(** What [formattedJson] holds: the rows, or the text of the blob. *)
Inductive display : Type :=
  | Rows (rows : list Violation.t)
  | Text (s : string).

Module Component.
Record t : Type := {
  filteredJson : option (list Violation.t);
  formattedJson : option display;
  relevantFormattedJson : option display;
  selectedSeverity : value;
  violationCounts : value;
  searchValue : string;
  showTable : bool;
  type : option string
}.

Definition initial : t :=
  {| filteredJson := None; formattedJson := None;
     relevantFormattedJson := None; selectedSeverity := VNull;
     violationCounts := VNull; searchValue := ""; showTable := false;
     type := None |}.

Definition set_filteredJson (x : option (list Violation.t)) (c : t) : t :=
  {| filteredJson := x; formattedJson := formattedJson c;
     relevantFormattedJson := relevantFormattedJson c;
     selectedSeverity := selectedSeverity c;
     violationCounts := violationCounts c; searchValue := searchValue c;
     showTable := showTable c; type := type c |}.

Definition set_selectedSeverity (x : value) (c : t) : t :=
  {| filteredJson := filteredJson c; formattedJson := formattedJson c;
     relevantFormattedJson := relevantFormattedJson c;
     selectedSeverity := x;
     violationCounts := violationCounts c; searchValue := searchValue c;
     showTable := showTable c; type := type c |}.

Definition set_violationCounts (x : value) (c : t) : t :=
  {| filteredJson := filteredJson c; formattedJson := formattedJson c;
     relevantFormattedJson := relevantFormattedJson c;
     selectedSeverity := selectedSeverity c;
     violationCounts := x; searchValue := searchValue c;
     showTable := showTable c; type := type c |}.

Definition set_searchValue (x : string) (c : t) : t :=
  {| filteredJson := filteredJson c; formattedJson := formattedJson c;
     relevantFormattedJson := relevantFormattedJson c;
     selectedSeverity := selectedSeverity c;
     violationCounts := violationCounts c; searchValue := x;
     showTable := showTable c; type := type c |}.

(** [this.filteredJson || this.formattedJson]; an array is truthy, also
    when empty. *)
Definition data (c : t) : option display :=
  match filteredJson c with
  | Some rows => Some (Rows rows)
  | None => formattedJson c
  end.
End Component.

Module Formatted.
Record t : Type := { formattedJson : display; type : string }.
End Formatted.

Module RuleObject.
Record t : Type := {
  engine : value;
  resource : value;
  rule : value;
  severity : value;
  tags : value;
  violations : list Violation.t
}.
End RuleObject.

Module EngineObject.
Record t : Type := {
  engine : value;
  rules : list (string * RuleObject.t);
  violationCount : nat
}.
End EngineObject.

(** The two shapes of a rule in the array handed to the template: the
    spread of the rule object, and the keyed one of [includeKey]. *)
Module RuleNode.
Inductive t : Type :=
  | Spread (engine resource rule severity tags : value)
      (violations : list Violation.t) (tagsString severityLabel : string)
  | Keyed (key : value) (label : string) (resource severity : value)
      (tagsString : string) (violations : list Violation.t)
      (severityLabel : string).

Definition violations (r : t) : list Violation.t :=
  match r with
  | Spread _ _ _ _ _ vs _ _ => vs
  | Keyed _ _ _ _ _ vs _ => vs
  end.
End RuleNode.

Module EngineNode.
Record t : Type := {
  description : slot;
  engine : value;
  label : string;
  rules : list RuleNode.t;
  violationCount : nat;
  key : option value
}.
End EngineNode.

(** The groups of the grouping by metadata type and file. *)
Module FileNode.
Record t : Type := {
  key : string;
  label : string;
  violations : list Violation.t
}.
End FileNode.

Module TypeNode.
Record t : Type := {
  files : list FileNode.t;
  key : string;
  label : string
}.
End TypeNode.


(** ** Objects used as maps

    [engines] and [rules] start as [{}]: the own properties in insertion
    order, and behind them [Object.prototype]. *)

Inductive member (A : Type) : Type :=
  | Own (a : A)
  | Inherited
  | Missing.
Arguments Own {A} a.
Arguments Inherited {A}.
Arguments Missing {A}.

(** [o[k]] *)
Definition lookup {A : Type} (k : string) (o : list (string * A)) : member A :=
  match assoc k o with
  | Some a => Own a
  | None => if Str.mem k Object_prototype then Inherited else Missing
  end.

(** [o[k] = a] *)
Fixpoint assign {A : Type} (k : string) (a : A) (o : list (string * A))
    : list (string * A) :=
  match o with
  | [] => [(k, a)]
  | (k', a') :: rest =>
      if String.eqb k k' then (k, a) :: rest else (k', a') :: assign k a rest
  end.

Fixpoint insert_index {A : Type} (n : N) (a : A) (sorted : list (N * A))
    : list (N * A) :=
  match sorted with
  | [] => [(n, a)]
  | (m, b) :: rest =>
      if (n <=? m)%N then (n, a) :: sorted else (m, b) :: insert_index n a rest
  end.

Definition indexed_properties {A : Type} (o : list (string * A)) : list (N * A) :=
  fold_right
    (fun '(k, a) acc =>
       match array_index k with
       | Some n => insert_index n a acc
       | None => acc
       end)
    [] o.

Definition named_properties {A : Type} (o : list (string * A)) : list (string * A) :=
  filter
    (fun '(k, _) =>
       match array_index k with
       | Some _ => false
       | None => true
       end)
    o.

(** [Object.values(o)]: the array indexes in ascending order, then the
    other keys in insertion order. *)
Definition Object_values {A : Type} (o : list (string * A)) : list A :=
  (map snd (indexed_properties o) ++ map snd (named_properties o))%list.

(** [l.forEach(x => ...)] over a state the callback updates; it can throw. *)
Fixpoint forEach {A S : Type} (f : S -> A -> option S) (l : list A) (s : S)
    : option S :=
  match l with
  | [] => Some s
  | x :: rest => s' <- f s x ;; forEach f rest s'
  end.

(** [l.filter(x => ...)] with a callback that can throw. *)
Fixpoint filter_throw {A : Type} (f : A -> option bool) (l : list A)
    : option (list A) :=
  match l with
  | [] => Some []
  | x :: rest =>
      keep <- f x ;;
      kept <- filter_throw f rest ;;
      Some (if keep then x :: kept else kept)
  end.

(** The own properties whose key is an array index, with their keys, in
    ascending order of the index. *)
Definition indexed_entries {A : Type} (o : list (string * A))
    : list (N * (string * A)) :=
  fold_right
    (fun '(k, a) acc =>
       match array_index k with
       | Some n => insert_index n (k, a) acc
       | None => acc
       end)
    [] o.

(** The own properties in the order of [Object.keys(o)], which is the one
    of [Object.values(o)]. *)
Definition Object_entries {A : Type} (o : list (string * A)) : list (string * A) :=
  (map snd (indexed_entries o) ++ named_properties o)%list.

(** How a getter that files its rows under the keys of a fresh object ends:
    with a value, with a TypeError, or inside a built-in object.  The last
    is the case of a key that names a member of [Object.prototype] where
    the code expects a map of its own and goes on reading and writing the
    properties of that member; what follows depends on the built-in object
    and on whether the platform has frozen it, and is not described. *)
Inductive outcome (A : Type) : Type :=
  | Returns (a : A)
  | Throws
  | OnBuiltin.
Arguments Returns {A} a.
Arguments Throws {A}.
Arguments OnBuiltin {A}.

(** [l.forEach(x => ...)] for a callback that ends in one of these ways. *)
Fixpoint forEach_outcome {A S : Type} (f : S -> A -> outcome S) (l : list A)
    (s : S) : outcome S :=
  match l with
  | [] => Returns s
  | x :: rest =>
      match f s x with
      | Returns s' => forEach_outcome f rest s'
      | Throws => Throws
      | OnBuiltin => OnBuiltin
      end
  end.


(** ** Records of userStoryCommitTableActions.js *)

Module CommitLine.
Record t : Type := {
  Operation : value;
  MemberName : value;
  MemberType : value;
  Directory : value;
  LastModifiedDate : value;
  LastModifiedByName : value;
  Category : value
}.
End CommitLine.

Module Payload.
Record t : Type := { type : string; value : list CommitLine.t }.
End Payload.

Module Actions.
Record t : Type := {
  _isWorking : bool;
  isLoading : bool;
  recordId : value;
  _filtered : list string
}.

Definition set_isWorking (b : bool) (c : t) : t :=
  {| _isWorking := b; isLoading := isLoading c; recordId := recordId c;
     _filtered := _filtered c |}.

Definition set_filtered (l : list string) (c : t) : t :=
  {| _isWorking := _isWorking c; isLoading := isLoading c;
     recordId := recordId c; _filtered := l |}.
End Actions.

(** How a remote call settles. *)
Inductive settled (A : Type) : Type :=
  | Resolved (a : A)
  | Rejected.
Arguments Resolved {A} a.
Arguments Rejected {A}.

(** What the component does to the outside, in order. *)
Inductive event : Type :=
  | GetSystemPropertiesFromPipelineOfUserStory (userStoryId : value)
      (names : list string)
  | GetChangesFromUserStory (parentId : value)
  | LogApexError
  | LogFound (allMetadataFound envObj : list CommitLine.t)
  | LogException
  | Publish (payload : Payload.t).

(** ** A platform to run the components on

    [JSON.parse] for the texts whose numbers are integer numerals and whose
    strings stay below code unit 256, the text V8 gives for a native
    function, and the numeric comparison of the primitives whose number is
    an integer.  It serves to evaluate the components on concrete inputs. *)

Module Reference.

Definition quote : ascii := ascii_of_nat 34.
Definition backslash : ascii := ascii_of_nat 92.

Definition is_json_space (c : ascii) : bool :=
  let n := nat_of_ascii c in
  ((n =? 32) || (n =? 9) || (n =? 10) || (n =? 13))%nat.

Fixpoint skip_space (s : string) : string :=
  match s with
  | String c r => if is_json_space c then skip_space r else s
  | EmptyString => s
  end.

Definition is_digit (c : ascii) : bool :=
  let n := nat_of_ascii c in ((48 <=? n) && (n <=? 57))%nat.

Definition hex_digit (c : ascii) : option nat :=
  let n := nat_of_ascii c in
  if ((48 <=? n) && (n <=? 57))%nat then Some (n - 48)
  else if ((65 <=? n) && (n <=? 70))%nat then Some (n - 55)
  else if ((97 <=? n) && (n <=? 102))%nat then Some (n - 87)
  else None.

Definition escape (c : ascii) : option ascii :=
  if Ascii.eqb c quote then Some quote
  else if Ascii.eqb c backslash then Some backslash
  else if Ascii.eqb c "/" then Some "/"%char
  else if Ascii.eqb c "b" then Some (ascii_of_nat 8)
  else if Ascii.eqb c "f" then Some (ascii_of_nat 12)
  else if Ascii.eqb c "n" then Some (ascii_of_nat 10)
  else if Ascii.eqb c "r" then Some (ascii_of_nat 13)
  else if Ascii.eqb c "t" then Some (ascii_of_nat 9)
  else None.

(** The characters of a string literal after its opening quote, and what
    follows the closing quote. *)
Fixpoint string_body (s : string) : option (string * string) :=
  match s with
  | EmptyString => None
  | String c r =>
      if Ascii.eqb c quote then Some (EmptyString, r)
      else if Ascii.eqb c backslash then
        match r with
        | String "u" (String a (String b (String c3 (String d r')))) =>
            ha <- hex_digit a ;;
            hb <- hex_digit b ;;
            hc <- hex_digit c3 ;;
            hd <- hex_digit d ;;
            if ((ha =? 0) && (hb =? 0))%nat then
              '(body, after) <- string_body r' ;;
              Some (String (ascii_of_nat (16 * hc + hd)) body, after)
            else None
        | String e r' =>
            unescaped <- escape e ;;
            '(body, after) <- string_body r' ;;
            Some (String unescaped body, after)
        | EmptyString => None
        end
      else if (nat_of_ascii c <? 32)%nat then None
      else
        '(body, after) <- string_body r ;;
        Some (String c body, after)
  end.

(** An integer numeral: no leading zero, no fraction, no exponent. *)
Definition number (s : string) : option (Z * string) :=
  let (negative, s1) :=
    match s with
    | String "-" r => (true, r)
    | _ => (false, s)
    end in
  let (digits, after) := Str.span is_digit s1 in
  let followed :=
    match after with
    | String c _ => Ascii.eqb c "." || Ascii.eqb c "e" || Ascii.eqb c "E"
    | EmptyString => false
    end in
  match digits with
  | EmptyString => None
  | String "0" (String _ _) => None
  | _ =>
      if followed then None
      else
        match NilZero.uint_of_string digits with
        | Some d =>
            let n := Z.of_N (N.of_uint d) in
            Some (if negative then (- n)%Z else n, after)
        | None => None
        end
  end.

Fixpoint parse_value (fuel : nat) (s : string) : option (value * string) :=
  match fuel with
  | O => None
  | S fuel' =>
      match skip_space s with
      | EmptyString => None
      | String c r =>
          if Ascii.eqb c quote then
            '(body, after) <- string_body r ;;
            Some (VStr body, after)
          else if Ascii.eqb c "[" then
            match skip_space r with
            | String "]" after => Some (VArr [], after)
            | _ =>
                '(items, after) <- parse_items fuel' r ;;
                Some (VArr items, after)
            end
          else if Ascii.eqb c "{" then
            match skip_space r with
            | String "}" after => Some (VObj [], after)
            | _ =>
                '(members, after) <- parse_members fuel' r ;;
                Some (VObj (fold_left (fun o '(k, v) => assign k v o) members []),
                      after)
            end
          else if prefix "null" (String c r) then Some (VNull, Str.drop 3 r)
          else if prefix "true" (String c r) then Some (VBool true, Str.drop 3 r)
          else if prefix "false" (String c r) then Some (VBool false, Str.drop 4 r)
          else
            '(n, after) <- number (String c r) ;;
            Some (VNum n, after)
      end
  end
with parse_items (fuel : nat) (s : string) : option (list value * string) :=
  match fuel with
  | O => None
  | S fuel' =>
      '(v, after) <- parse_value fuel' s ;;
      match skip_space after with
      | String "," r =>
          '(items, after') <- parse_items fuel' r ;;
          Some (v :: items, after')
      | String "]" r => Some ([v], r)
      | _ => None
      end
  end
with parse_members (fuel : nat) (s : string)
    : option (list (string * value) * string) :=
  match fuel with
  | O => None
  | S fuel' =>
      match skip_space s with
      | String c r =>
          if Ascii.eqb c quote then
            '(k, after) <- string_body r ;;
            match skip_space after with
            | String ":" r' =>
                '(v, after') <- parse_value fuel' r' ;;
                match skip_space after' with
                | String "," r'' =>
                    '(members, rest) <- parse_members fuel' r'' ;;
                    Some ((k, v) :: members, rest)
                | String "}" r'' => Some ([(k, v)], r'')
                | _ => None
                end
            | _ => None
            end
          else None
      | EmptyString => None
      end
  end.

Definition JSON_parse (text : string) : option value :=
  '(v, after) <- parse_value (2 * String.length text + 2) text ;;
  match skip_space after with
  | EmptyString => Some v
  | String _ _ => None
  end.

(** A text that [JSON_parse] reads back, to write inputs with.  The
    strings are taken without quotes, backslashes and control characters;
    [undefined] has no text and is written as [null]. *)
Fixpoint JSON_text (v : value) : string :=
  match v with
  | VUndefined | VNull => "null"
  | VBool true => "true"
  | VBool false => "false"
  | VNum n => Number_toString n
  | VStr s => String quote s ++ String quote EmptyString
  | VArr items =>
      "["
      ++ (fix texts (l : list value) : string :=
            match l with
            | [] => ""
            | [x] => JSON_text x
            | x :: rest => JSON_text x ++ "," ++ texts rest
            end) items
      ++ "]"
  | VObj fields =>
      "{"
      ++ (fix texts (l : list (string * value)) : string :=
            match l with
            | [] => ""
            | [(k, x)] =>
                String quote k ++ String quote ":" ++ JSON_text x
            | (k, x) :: rest =>
                String quote k ++ String quote ":" ++ JSON_text x ++ ","
                ++ texts rest
            end) fields
      ++ "}"
  end.

(** [Function.prototype.toString] of a native function in V8;
    [__proto__] reads [Object.prototype] itself. *)
Definition native_source (name : string) : string :=
  if String.eqb name "__proto__" then "[object Object]"
  else if String.eqb name "constructor" then "function Object() { [native code] }"
  else "function " ++ name ++ "() { [native code] }".

(** ToNumber of a primitive, [None] for NaN.  Of the strings, the empty
    one and the integer numerals are read. *)
Definition ToNumber (v : value) : option Z :=
  match v with
  | VUndefined => None
  | VNull => Some 0%Z
  | VBool b => Some (if b then 1 else 0)%Z
  | VNum n => Some n
  | VStr s =>
      match Str.trim s with
      | EmptyString => Some 0%Z
      | t =>
          match number t with
          | Some (n, EmptyString) => Some n
          | _ => None
          end
      end
  | _ => None
  end.

Definition numeric_lt (x y : value) : bool :=
  match ToNumber x, ToNumber y with
  | Some a, Some b => (a <? b)%Z
  | _, _ => false
  end.

(** The reference order: each element is placed among those before it by
    a binary search, to the right of the ones the comparator does not put
    it before. *)
Definition answer (table : list (list Z)) (i j : nat) : Z :=
  nth j (nth i table []) 0%Z.

Fixpoint search (fuel : nat) (table : list (list Z)) (pivot : nat)
    (placed : list nat) (left right : nat) : nat :=
  match fuel with
  | O => left
  | S fuel' =>
      if (left <? right)%nat then
        let mid := (left + (right - left) / 2)%nat in
        if (answer table pivot (nth mid placed O) <? 0)%Z
        then search fuel' table pivot placed left mid
        else search fuel' table pivot placed (S mid) right
      else left
  end.

Definition place (table : list (list Z)) (placed : list nat) (pivot : nat)
    : list nat :=
  let n := List.length placed in
  let at_ := search (S n) table pivot placed O n in
  (firstn at_ placed ++ pivot :: skipn at_ placed)%list.

Definition sort_order (table : list (list Z)) : list nat :=
  fold_left (place table) (seq 0 (List.length table)) [].

Definition platform : Platform :=
  Build_Platform JSON_parse native_source numeric_lt sort_order.

End Reference.

Section Components.

Variable P : Platform.

(** ** resultTable.js *)

Definition UNKNOWN_FILE : string := "Unknown File".

Definition SEVERITY_LABELS : value :=
  VObj [ ("1", VStr "Critical"); ("2", VStr "High"); ("3", VStr "Moderate");
         ("4", VStr "Low"); ("5", VStr "Info") ].

Definition engineDescriptions : value :=
  VObj
    [ ("cpd", VStr "Copy-Paste Detector: Finds duplicate code blocks in Apex and other supported languages.");
      ("eslint", VStr "Analyzes JavaScript and Lightning Web Components for code quality and style issues.");
      ("flow", VStr "Analyzes Salesforce Flows for best practices, security, and maintainability issues.");
      ("pmd", VStr "Performs static analysis on Apex, Visualforce. Includes the PMD AppExchange rules.");
      ("regex", VStr "Detects code patterns using regular expressions. Useful for enforcing simple, custom rules.");
      ("retirejs", VStr "Scans JavaScript libraries for known security vulnerabilities.");
      ("sfge", VStr "Salesforce Graph Engine: Advanced static analysis for security, CRUD/FLS, and data flow in Apex.") ].

Definition is_line_terminator (c : ascii) : bool :=
  Ascii.eqb c "010" || Ascii.eqb c "013".

Definition is_slash (c : ascii) : bool := Ascii.eqb c "/".

(** [/main\/default\/([^\/]+)\/(.+)/u] tried at the start of [s].  The
    first group is greedy and must be followed by a slash, so it is the
    whole run of characters up to the next slash; the second is the run of
    characters up to the next line terminator.  Both are non-empty. *)
Definition MAIN_DEFAULT_PATTERN_here (s : string) : option (string * string) :=
  if prefix "main/default/" s then
    let (metaType, rest) :=
      Str.span (fun c => negb (is_slash c)) (Str.drop 13 s) in
    match metaType, rest with
    | String _ _, String "/" afterSlash =>
        let (fileKey, _) :=
          Str.span (fun c => negb (is_line_terminator c)) afterSlash in
        match fileKey with
        | EmptyString => None
        | String _ _ => Some (metaType, fileKey)
        end
    | _, _ => None
    end
  else None.

(** [filePath.match(MAIN_DEFAULT_PATTERN)]: the groups of the leftmost
    match. *)
Fixpoint MAIN_DEFAULT_PATTERN (s : string) : option (string * string) :=
  match MAIN_DEFAULT_PATTERN_here s with
  | Some groups => Some groups
  | None =>
      match s with
      | EmptyString => None
      | String _ s' => MAIN_DEFAULT_PATTERN s'
      end
  end.

(** A truthy [filePath] that is not a string has no callable [match]. *)
Definition extractFileAfterDefault (filePath : value) : option string :=
  if negb (truthy filePath) then Some UNKNOWN_FILE
  else
    match filePath with
    | VStr path =>
        match MAIN_DEFAULT_PATTERN path with
        | Some (metaType, fileKey) => Some (metaType ++ "/" ++ fileKey)
        | None => Some path
        end
    | _ => None
    end.

(** [`${s || ''}`] for the result of a read. *)
Definition text_or_empty (s : slot) : option string :=
  match s with
  | Val v => if truthy v then to_string v else Some ""
  | Builtin name => Some (native_source P name)
  end.

(** [`${severity} (${SEVERITY_LABELS[severity] || ''})`] *)
Definition severityLabel_of (severity : value) : option string :=
  shown <- to_string severity ;;
  entry <- index SEVERITY_LABELS severity ;;
  label <- text_or_empty entry ;;
  Some (shown ++ " (" ++ label ++ ")").

(** [violation.locations?.[violation.primaryLocationIndex]
     || violation.locations?.[0] || {}] *)
Definition primaryLocation (violation : value) : option slot :=
  locations <- field violation "locations" ;;
  primaryLocationIndex <- field violation "primaryLocationIndex" ;;
  first <- optional_index locations primaryLocationIndex ;;
  if truthy_slot first then Some first
  else
    second <- optional_index locations (VNum 0) ;;
    if truthy_slot second then Some second else Some (Val (VObj [])).

(** The callback of [parsedJson.violations.map]. *)
Definition toViolation (idx : nat) (violation : value) : option Violation.t :=
  primaryLoc <- primaryLocation violation ;;
  fullFilePath <- slot_field primaryLoc "file" ;;
  displayFilePath <- extractFileAfterDefault fullFilePath ;;
  locations <- field violation "locations" ;;
  engine <- field violation "engine" ;;
  rule <- field violation "rule" ;;
  startLine <- slot_field primaryLoc "startLine" ;;
  ruleText <- to_string rule ;;
  fileText <- to_string fullFilePath ;;
  lineText <- to_string startLine ;;
  message <- field violation "message" ;;
  resources <- field violation "resources" ;;
  first <- optional_field resources "0" ;;
  severity <- field violation "severity" ;;
  tags <- field violation "tags" ;;
  severityLabel <- severityLabel_of severity ;;
  Some {| Violation.allLocations := locations;
          Violation.engine := engine;
          Violation.file := displayFilePath;
          Violation.fullViolation := violation;
          Violation.id :=
            ruleText ++ "-" ++ fileText ++ "-" ++ lineText ++ "-"
            ++ Number_toString (Z.of_nat idx);
          Violation.line := startLine;
          Violation.message := message;
          Violation.resource := if truthy first then first else VStr "";
          Violation.rule := rule;
          Violation.severity := severity;
          Violation.tags := tags;
          Violation.severityLabel := severityLabel |}.

Definition transformJson (parsedJson : value) : option (list Violation.t) :=
  violations <- field parsedJson "violations" ;;
  match violations with
  | VArr items => mapi_from toViolation 0 items
  | _ => Some []
  end.

Definition plainText (serializedJson : string) : Formatted.t :=
  {| Formatted.formattedJson := Text serializedJson;
     Formatted.type := "String" |}.

(** The method assigns [this.violationCounts] before it transforms, so the
    assignment survives a throw of the transformer. *)
Definition getFormattedData (c : Component.t) (serializedJson : string)
    : Component.t * Formatted.t :=
  match JSON_parse P serializedJson with
  | None => (c, plainText serializedJson)
  | Some parsed =>
      match field parsed "violationCounts" with
      | None => (c, plainText serializedJson)
      | Some counts =>
          let c' :=
            Component.set_violationCounts
              (if truthy counts then counts else VNull) c in
          match transformJson parsed with
          | None => (c', plainText serializedJson)
          | Some formattedJson =>
              match formattedJson with
              | _ :: _ =>
                  (c', {| Formatted.formattedJson := Rows formattedJson;
                          Formatted.type := "Table" |})
              | [] =>
                  (c', {| Formatted.formattedJson := Rows formattedJson;
                          Formatted.type := "YAML" |})
              end
          end
      end
  end.

(** [wiredVersion] once the record is there, [serializedJson] being the
    decoded content of the document: the component takes the blob over when
    [formattedJson.length > 0]. *)
Definition wiredVersion (c : Component.t) (serializedJson : string)
    : Component.t :=
  let (c', result) := getFormattedData c serializedJson in
  let nonEmpty :=
    match Formatted.formattedJson result with
    | Rows (_ :: _) | Text (String _ _) => true
    | Rows [] | Text EmptyString => false
    end in
  if nonEmpty then
    {| Component.filteredJson := Component.filteredJson c';
       Component.formattedJson := Some (Formatted.formattedJson result);
       Component.relevantFormattedJson := Some (Formatted.formattedJson result);
       Component.selectedSeverity := Component.selectedSeverity c';
       Component.violationCounts := Component.violationCounts c';
       Component.searchValue := Component.searchValue c';
       Component.showTable := true;
       Component.type := Some (Formatted.type result) |}
  else c'.

(** *** Severity and search *)

(** [this.selectedSeverity === severity], where [severity] is read from
    [dataset]: a string, or [undefined] when the attribute is absent. *)
Definition same_severity (selected : value) (severity : option string) : bool :=
  match selected, severity with
  | VStr a, Some b => String.eqb a b
  | VUndefined, None => true
  | _, _ => false
  end.

Definition dataset_value (severity : option string) : value :=
  match severity with
  | Some s => VStr s
  | None => VUndefined
  end.

Definition handleSeverityClick (c : Component.t) (severity : option string)
    : Component.t :=
  Component.set_selectedSeverity
    (if same_severity (Component.selectedSeverity c) severity then VNull
     else dataset_value severity)
    c.

(** The callback of [this.formattedJson.filter]: the properties are visited
    in order and the first match returns. *)
Definition rowMatches (searchTerm : string) (row : Violation.t) : option bool :=
  (fix scan (entries : list (string * value)) : option bool :=
     match entries with
     | [] => Some false
     | (_, field_value) :: rest =>
         value <- to_string field_value ;;
         if negb (String.eqb value "")
            && Str.includes (Str.toLowerCase value) searchTerm
         then Some true
         else scan rest
     end) (Violation.entries row).

(** [undefined] and a string have no [filter]. *)
Definition _applySearch (c : Component.t) (searchTerm : string)
    : option Component.t :=
  match Component.formattedJson c with
  | Some (Rows rows) =>
      kept <- filter_throw (rowMatches searchTerm) rows ;;
      Some (Component.set_filteredJson (Some kept) c)
  | _ => None
  end.

Definition _clearSearch (c : Component.t) : Component.t :=
  Component.set_filteredJson None c.

Inductive completion : Type :=
  | Returned
  | Threw.

(** [value] is [event.target.value].  The assignment of [searchValue]
    survives a throw of the search. *)
Definition handleSearch (c : Component.t) (value : string)
    : Component.t * completion :=
  let c1 := Component.set_searchValue value c in
  let searchTerm :=
    if String.eqb value "" then "" else Str.toLowerCase (Str.trim value) in
  if String.eqb searchTerm "" then (_clearSearch c1, Returned)
  else
    match _applySearch c1 searchTerm with
    | Some c2 => (c2, Returned)
    | None => (c1, Threw)
    end.

Definition handleClearFilters (c : Component.t) : Component.t :=
  Component.set_searchValue ""
    (Component.set_filteredJson None
       (Component.set_selectedSeverity VNull c)).

(** *** Grouping by engine and rule *)

Definition createEngineObject (engine : value) (violation : Violation.t)
    : EngineObject.t :=
  {| EngineObject.engine := engine;
     EngineObject.rules := [];
     EngineObject.violationCount := 0 |}.

Definition createRuleObject (violation : Violation.t) : RuleObject.t :=
  {| RuleObject.engine := Violation.engine violation;
     RuleObject.resource := Violation.resource violation;
     RuleObject.rule := Violation.rule violation;
     RuleObject.severity := Violation.severity violation;
     RuleObject.tags := Violation.tags violation;
     RuleObject.violations := [] |}.

(** [filterSeverity && String(violation.severity) !== String(filterSeverity)] *)
Definition filteredOut (filterSeverity : value) (violation : Violation.t)
    : option bool :=
  if truthy filterSeverity then
    shown <- to_string (Violation.severity violation) ;;
    wanted <- to_string filterSeverity ;;
    Some (negb (String.eqb shown wanted))
  else Some false.

(** The callback of [violations.forEach].  An engine or a rule named like a
    member of [Object.prototype] reads that member: it is truthy, nothing
    is created, and the read of [rules] or [violations] on it gives
    [undefined], on which the next access throws. *)
Definition groupViolation (filterSeverity : value)
    (engines : list (string * EngineObject.t)) (violation : Violation.t)
    : option (list (string * EngineObject.t)) :=
  skip <- filteredOut filterSeverity violation ;;
  if skip then Some engines
  else
    engineKey <- to_string (Violation.engine violation) ;;
    engineObj <- match lookup engineKey engines with
                 | Own e => Some e
                 | Missing =>
                     Some (createEngineObject (Violation.engine violation) violation)
                 | Inherited => None
                 end ;;
    ruleKey <- to_string (Violation.rule violation) ;;
    ruleObj <- match lookup ruleKey (EngineObject.rules engineObj) with
               | Own r => Some r
               | Missing => Some (createRuleObject violation)
               | Inherited => None
               end ;;
    let pushed :=
      {| RuleObject.engine := RuleObject.engine ruleObj;
         RuleObject.resource := RuleObject.resource ruleObj;
         RuleObject.rule := RuleObject.rule ruleObj;
         RuleObject.severity := RuleObject.severity ruleObj;
         RuleObject.tags := RuleObject.tags ruleObj;
         RuleObject.violations :=
           (RuleObject.violations ruleObj ++ [violation])%list |} in
    Some
      (assign engineKey
         {| EngineObject.engine := EngineObject.engine engineObj;
            EngineObject.rules :=
              assign ruleKey pushed (EngineObject.rules engineObj);
            EngineObject.violationCount :=
              S (EngineObject.violationCount engineObj) |}
         engines).

(** The parameter defaults to [null], also when [undefined] is passed. *)
Definition processViolationsByEngine (violations : list Violation.t)
    (filterSeverity : value) : option (list (string * EngineObject.t)) :=
  let filterSeverity :=
    match filterSeverity with
    | VUndefined => VNull
    | _ => filterSeverity
    end in
  forEach (groupViolation filterSeverity) violations [].

(** [Array.isArray(tags) ? tags.join(', ') : ''] *)
Definition tagsString_of (tags : value) : option string :=
  match tags with
  | VArr items => join_with to_string ", " items
  | _ => Some ""
  end.

Definition spreadRule (ruleObj : RuleObject.t) : option RuleNode.t :=
  tagsString <- tagsString_of (RuleObject.tags ruleObj) ;;
  severityLabel <- severityLabel_of (RuleObject.severity ruleObj) ;;
  Some
    (RuleNode.Spread (RuleObject.engine ruleObj) (RuleObject.resource ruleObj)
       (RuleObject.rule ruleObj) (RuleObject.severity ruleObj)
       (RuleObject.tags ruleObj) (RuleObject.violations ruleObj) tagsString
       severityLabel).

Definition keyedRule (ruleObj : RuleObject.t) : option RuleNode.t :=
  ruleText <- to_string (RuleObject.rule ruleObj) ;;
  tagsString <- tagsString_of (RuleObject.tags ruleObj) ;;
  severityLabel <- severityLabel_of (RuleObject.severity ruleObj) ;;
  Some
    (RuleNode.Keyed (RuleObject.rule ruleObj)
       (ruleText ++ " ("
        ++ Number_toString (Z.of_nat (List.length (RuleObject.violations ruleObj)))
        ++ ")")
       (RuleObject.resource ruleObj) (RuleObject.severity ruleObj) tagsString
       (RuleObject.violations ruleObj) severityLabel).

(** The callback of [Object.values(engines).map]: the base object is built
    first, its rules are replaced when [includeKey] is set. *)
Definition toEngineNode (includeKey : bool) (engineObj : EngineObject.t)
    : option EngineNode.t :=
  described <- index engineDescriptions (EngineObject.engine engineObj) ;;
  engineText <- to_string (EngineObject.engine engineObj) ;;
  rules <- mapi_from (fun _ => spreadRule) 0
             (Object_values (EngineObject.rules engineObj)) ;;
  let label :=
    engineText ++ " ("
    ++ Number_toString (Z.of_nat (EngineObject.violationCount engineObj))
    ++ ")" in
  let description :=
    if truthy_slot described then described else Val (VStr "") in
  if includeKey then
    keyed <- mapi_from (fun _ => keyedRule) 0
               (Object_values (EngineObject.rules engineObj)) ;;
    Some {| EngineNode.description := description;
            EngineNode.engine := EngineObject.engine engineObj;
            EngineNode.label := label;
            EngineNode.rules := keyed;
            EngineNode.violationCount := EngineObject.violationCount engineObj;
            EngineNode.key := Some (EngineObject.engine engineObj) |}
  else
    Some {| EngineNode.description := description;
            EngineNode.engine := EngineObject.engine engineObj;
            EngineNode.label := label;
            EngineNode.rules := rules;
            EngineNode.violationCount := EngineObject.violationCount engineObj;
            EngineNode.key := None |}.

Definition transformEngineObjectsToArray
    (engines : list (string * EngineObject.t)) (includeKey : bool)
    : option (list EngineNode.t) :=
  mapi_from (fun _ => toEngineNode includeKey) 0 (Object_values engines).

Definition groupByEngineAndRuleArray (c : Component.t)
    (violations : list Violation.t) : option (list EngineNode.t) :=
  engines <- processViolationsByEngine violations (Component.selectedSeverity c) ;;
  transformEngineObjectsToArray engines true.

(** The getters return [[]] when there is no data; a blob shown as text has
    no [forEach]. *)
Definition groupedBy (filterSeverity : value) (c : Component.t)
    : option (list EngineNode.t) :=
  match Component.data c with
  | None | Some (Text EmptyString) => Some []
  | Some (Text (String _ _)) => None
  | Some (Rows rows) =>
      engines <- processViolationsByEngine rows filterSeverity ;;
      transformEngineObjectsToArray engines false
  end.

Definition groupedByEngine (c : Component.t) : option (list EngineNode.t) :=
  groupedBy VUndefined c.

Definition filteredGroupedByEngine (c : Component.t)
    : option (list EngineNode.t) :=
  groupedBy (Component.selectedSeverity c) c.

(** ** userStoryCommitTableActions.js *)

Definition _SFCC_METADATA : string := "SFCC_METADATA_ITEMS".
Definition _SFCC_METADATA_DIRECTORY : string := "SFCC_METADATA_DIRECTORY".
Definition _SFCC_SITES : string := "SFCC_SITES".

(** [x.split(/\r?\n/g)]: only a string has a callable [split]. *)
Definition split_lines (x : value) : option (list string) :=
  match x with
  | VStr s => Some (Str.split_newlines s)
  | _ => None
  end.

(** [meta.replace("metadata/", properties[this._SFCC_METADATA_DIRECTORY])]
    when the property is truthy, [result] otherwise. *)
Definition withDirectory (properties : value) (meta result : string)
    : option string :=
  directory <- field properties _SFCC_METADATA_DIRECTORY ;;
  if truthy directory then
    replacement <- to_string directory ;;
    Some (Str.replace meta "metadata/" replacement)
  else Some result.

(** The callback of [sites.map]. *)
Definition forSite (properties : value) (meta site : string) : option string :=
  withDirectory properties meta (Str.replace meta "<site-id>" site).

(** The callback of [metadata.reduce]. *)
Definition expand (properties : value) (sites : list string)
    (arr : list string) (meta : string) : option (list string) :=
  if Str.includes meta "<site-id>" then
    expanded <- mapi_from (fun _ => forSite properties meta) 0 sites ;;
    Some (arr ++ expanded)%list
  else
    result <- withDirectory properties meta meta ;;
    Some (arr ++ [result])%list.

(** The value assigned to [this._filtered] in the callback of [then]. *)
Definition filteredMetadata (properties : value) : option (list string) :=
  items <- field properties _SFCC_METADATA ;;
  metadata <- split_lines items ;;
  listed <- field properties _SFCC_SITES ;;
  lines <- split_lines (if truthy listed then listed else VStr "") ;;
  let sites := filter (fun x => negb (String.eqb x "")) lines in
  forEach (expand properties sites) metadata [].

(** ToPrimitive with hint number: an array and an object have no
    primitive [valueOf], and answer through [toString]. *)
Definition ToPrimitive (v : value) : option value :=
  match v with
  | VArr _ | VObj _ => s <- to_string v ;; Some (VStr s)
  | _ => Some v
  end.

(** [a < b] *)
Definition less_than (a b : value) : option bool :=
  pa <- ToPrimitive a ;;
  pb <- ToPrimitive b ;;
  Some match pa, pb with
       | VStr x, VStr y => String.ltb x y
       | _, _ => numeric_lt P pa pb
       end.

(** [({ MemberName: a }, { MemberName: b }) => a < b ? -1 : a > b ? 1 : 0] *)
Definition byMemberName (x y : CommitLine.t) : option Z :=
  let a := CommitLine.MemberName x in
  let b := CommitLine.MemberName y in
  lt <- less_than a b ;;
  if lt then Some (-1)%Z
  else
    gt <- less_than b a ;;
    if gt then Some 1%Z else Some 0%Z.

(** *** [Array.prototype.sort]

    The elements are sorted by calls of the comparator (ECMA-262,
    23.1.3.30).  With a comparator that is consistent for the elements the
    result is the sorted permutation that keeps equal elements in their
    order (the sort is stable), which inserting the elements one after the
    other computes.  With any other the order is implementation-defined. *)

(** Whether the comparator answers less, equal or greater on a pair. *)
Definition answers_as {A : Type} (comparefn : A -> A -> option Z)
    (r : comparison) (a b : A) : bool :=
  match comparefn a b with
  | Some v =>
      match (v ?= 0)%Z, r with
      | Lt, Lt | Eq, Eq | Gt, Gt => true
      | _, _ => false
      end
  | None => false
  end.

(** The conditions of a consistent comparator on three elements: equal is
    reflexive, symmetric and transitive, less and greater are transitive. *)
Definition consistent_at {A : Type} (comparefn : A -> A -> option Z)
    (a b c : A) : bool :=
  answers_as comparefn Eq a a
  && implb (answers_as comparefn Eq a b) (answers_as comparefn Eq b a)
  && implb (answers_as comparefn Eq a b && answers_as comparefn Eq b c)
       (answers_as comparefn Eq a c)
  && implb (answers_as comparefn Lt a b && answers_as comparefn Lt b c)
       (answers_as comparefn Lt a c)
  && implb (answers_as comparefn Gt a b && answers_as comparefn Gt b c)
       (answers_as comparefn Gt a c).

Definition consistent_comparator {A : Type} (comparefn : A -> A -> option Z)
    (l : list A) : bool :=
  forallb
    (fun a => forallb (fun b => forallb (consistent_at comparefn a b) l) l)
    l.

(** The answers of the comparator on the elements, a row for each. *)
Definition answers {A : Type} (comparefn : A -> A -> option Z) (l : list A)
    : option (list (list Z)) :=
  mapi_from (fun _ x => mapi_from (fun _ y => comparefn x y) 0 l) 0 l.

(** The elements at the indices of an order. *)
Definition elements_at {A : Type} (l : list A) (order : list nat) : list A :=
  flat_map
    (fun i =>
       match nth_error l i with
       | Some x => [x]
       | None => []
       end)
    order.

Fixpoint insert_by {A : Type} (comparefn : A -> A -> option Z) (x : A)
    (sorted : list A) : option (list A) :=
  match sorted with
  | [] => Some [x]
  | y :: rest =>
      v <- comparefn x y ;;
      if (v <? 0)%Z then Some (x :: sorted)
      else
        placed <- insert_by comparefn x rest ;;
        Some (y :: placed)
  end.

(** An array of fewer than two elements is left as it is, without a call
    of the comparator.  On a longer one every element takes part in some
    call, whatever the sequence of calls.  The comparator of this program
    throws on a pair when the conversion of one of the two throws, whatever
    the other is: the sort throws exactly when some answer is missing. *)
Definition Array_sort {A : Type} (comparefn : A -> A -> option Z) (l : list A)
    : option (list A) :=
  match l with
  | [] | [_] => Some l
  | _ =>
      table <- answers comparefn l ;;
      if consistent_comparator comparefn l
      then forEach (fun sorted x => insert_by comparefn x sorted) l []
      else Some (elements_at l (sort_order P table))
  end.

(** The callback of [JSON.parse(envMetadata).map]. *)
Definition toEnvLine (e : value) : option CommitLine.t :=
  n <- field e "n" ;;
  t <- field e "t" ;;
  m <- field e "m" ;;
  c <- field e "c" ;;
  Some {| CommitLine.Operation := VStr "Add";
          CommitLine.MemberName := n;
          CommitLine.MemberType := t;
          CommitLine.Directory := m;
          CommitLine.LastModifiedDate := VStr "";
          CommitLine.LastModifiedByName := VStr "";
          CommitLine.Category := c |}.

(** The callback of [this._filtered.map]. *)
Definition toMetadataLine (file : string) : CommitLine.t :=
  {| CommitLine.Operation := VStr "Add";
     CommitLine.MemberName := VStr file;
     CommitLine.MemberType := VStr "xml";
     CommitLine.Directory := VStr "";
     CommitLine.LastModifiedDate := VStr "";
     CommitLine.LastModifiedByName := VStr "";
     CommitLine.Category := VStr "ccmetadata" |}.

(** [JSON.parse(envMetadata).map(...)]: only an array has a callable [map]. *)
Definition envLines (envMetadata : value) : option (list CommitLine.t) :=
  text <- to_string envMetadata ;;
  parsed <- JSON_parse P text ;;
  match parsed with
  | VArr items => mapi_from (fun _ => toEnvLine) 0 items
  | _ => None
  end.

(** [changes] is how the call of [getChangesFromUserStory] settles.  The
    [finally] block clears [_isWorking] on every path. *)
Definition retrieveChanges (c : Actions.t) (changes : settled value)
    : Actions.t * list event :=
  let call := GetChangesFromUserStory (Actions.recordId c) in
  let finished := Actions.set_isWorking false (Actions.set_isWorking true c) in
  match changes with
  | Rejected => (finished, [call; LogException])
  | Resolved envMetadata =>
      match envLines envMetadata with
      | None => (finished, [call; LogException])
      | Some envObj =>
          let allMetadataFound := map toMetadataLine (Actions._filtered c) in
          match Array_sort byMemberName (allMetadataFound ++ envObj)%list with
          | None =>
              (finished, [call; LogFound allMetadataFound envObj; LogException])
          | Some sorted =>
              (finished,
               [call; LogFound allMetadataFound envObj;
                Publish {| Payload.type := "retrievedChanges";
                           Payload.value := sorted |}])
          end
      end
  end.

(** [properties] is how the call of
    [getSystemPropertiesFromPipelineOfUserStory] settles.  The callback of
    [then] assigns [_filtered] and calls [retrieveChanges] at once (its
    promise, not the method, is what [setTimeout] receives). *)
Definition renderedCallback (c : Actions.t) (properties changes : settled value)
    : Actions.t * list event :=
  let call :=
    GetSystemPropertiesFromPipelineOfUserStory (Actions.recordId c)
      [_SFCC_METADATA; _SFCC_SITES; _SFCC_METADATA_DIRECTORY] in
  match properties with
  | Rejected => (c, [call; LogApexError])
  | Resolved props =>
      match filteredMetadata props with
      | None => (c, [call; LogApexError])
      | Some filtered =>
          let (c', events) :=
            retrieveChanges (Actions.set_filtered filtered c) changes in
          (c', call :: events)
      end
  end.

End Components.

(** ** resultTable.js: the other getters *)

Section Getters.

Variable P : Platform.

Definition UNKNOWN_TYPE : string := "Unknown".

(** [this.selectedSeverity !== null || this.filteredJson !== null] *)
Definition hasActiveFilters (c : Component.t) : bool :=
  match Component.selectedSeverity c with
  | VNull => false
  | _ => true
  end
  || match Component.filteredJson c with
     | Some _ => true
     | None => false
     end.

(** The value of [this.type === name && this.formattedJson] as the
    template tests it. *)
Definition shownAs (name : string) (c : Component.t) : bool :=
  match Component.type c, Component.formattedJson c with
  | Some type, Some (Rows _) => String.eqb type name
  | Some type, Some (Text s) => String.eqb type name && negb (String.eqb s "")
  | _, _ => false
  end.

Definition isYAML (c : Component.t) : bool := shownAs "YAML" c.

(** The callback of [data.filter] in the getters that count:
    [String(violation.severity) === String(level)]. *)
Definition ofSeverity (level : value) (violation : Violation.t) : option bool :=
  shown <- to_string (Violation.severity violation) ;;
  wanted <- to_string level ;;
  Some (String.eqb shown wanted).

(** A text has no [filter]; its [length] is the number of its code
    units. *)
Definition dynamicTotalViolations (c : Component.t) : option value :=
  match Component.data c with
  | None | Some (Text EmptyString) => Some (VNum 0)
  | Some data =>
      if truthy (Component.selectedSeverity c) then
        match data with
        | Rows rows =>
            kept <- filter_throw (ofSeverity (Component.selectedSeverity c)) rows ;;
            Some (VNum (Z.of_nat (List.length kept)))
        | Text _ => None
        end
      else
        match Component.filteredJson c with
        | Some kept => Some (VNum (Z.of_nat (List.length kept)))
        | None =>
            total <- optional_field (Component.violationCounts c) "total" ;;
            if truthy total then Some total
            else
              Some (VNum (Z.of_nat match data with
                                   | Rows rows => List.length rows
                                   | Text s => String.length s
                                   end))
        end
  end.

(** *** Grouping by metadata type and file *)

(** The metadata type and the file key of a row: the part of its [file]
    before the first slash, and the rest. *)
Definition typeAndFile (violation : Violation.t) : string * string :=
  let file := Violation.file violation in
  if String.eqb file "" then (UNKNOWN_TYPE, UNKNOWN_FILE)
  else
    match Str.split "/" file with
    | metaType :: first :: others =>
        (metaType, String.concat "/" (first :: others))
    | _ => (UNKNOWN_TYPE, file)
    end.

(** The callback of [data.forEach] in [groupedByMetadataTypeArray].  A
    metadata type named like a member of [Object.prototype] reads that
    member, which is truthy: the code goes on inside it and files the row
    on the built-in object, if it can, and not in the map.  A file key
    named so reads a member that has no [push]. *)
Definition groupByType (filterSeverity : value)
    (metaTypeMap : list (string * list (string * list Violation.t)))
    (violation : Violation.t)
    : outcome (list (string * list (string * list Violation.t))) :=
  match filteredOut filterSeverity violation with
  | None => Throws
  | Some true => Returns metaTypeMap
  | Some false =>
      let (metaType, fileKey) := typeAndFile violation in
      match lookup metaType metaTypeMap with
      | Inherited => OnBuiltin
      | found =>
          let files :=
            match found with
            | Own files => files
            | _ => []
            end in
          match lookup fileKey files with
          | Inherited => Throws
          | listed =>
              let violations :=
                match listed with
                | Own violations => violations
                | _ => []
                end in
              Returns
                (assign metaType
                   (assign fileKey (violations ++ [violation])%list files)
                   metaTypeMap)
          end
      end
  end.

(** The callback of [Object.keys(metaTypeMap[metaType]).map]. *)
Definition toFileNode (entry : string * list Violation.t) : FileNode.t :=
  let (file, violations) := entry in
  {| FileNode.key := file;
     FileNode.label :=
       file ++ " (" ++ Number_toString (Z.of_nat (List.length violations)) ++ ")";
     FileNode.violations := violations |}.

(** The callback of [Object.keys(metaTypeMap).map]. *)
Definition toTypeNode (entry : string * list (string * list Violation.t))
    : TypeNode.t :=
  let (metaType, files) := entry in
  let filesArr := map toFileNode (Object_entries files) in
  let totalViolations :=
    fold_left
      (fun sum fileObj => sum + List.length (FileNode.violations fileObj))
      filesArr 0 in
  {| TypeNode.files := filesArr;
     TypeNode.key := metaType;
     TypeNode.label :=
       metaType ++ " (" ++ Number_toString (Z.of_nat totalViolations) ++ ")" |}.

Definition groupedByMetadataTypeArray (c : Component.t)
    : outcome (list TypeNode.t) :=
  match Component.data c with
  | None | Some (Text EmptyString) => Returns []
  | Some (Text (String _ _)) => Throws
  | Some (Rows rows) =>
      match forEach_outcome (groupByType (Component.selectedSeverity c)) rows [] with
      | Returns metaTypeMap => Returns (map toTypeNode (Object_entries metaTypeMap))
      | Throws => Throws
      | OnBuiltin => OnBuiltin
      end
  end.

(** [groupBy] is the field of that name.  In the engine grouping the data
    is handed on as it is: [undefined] and a text have no [forEach]. *)
Definition groupedViolationsArray (groupBy : value) (c : Component.t)
    : outcome (list (EngineNode.t + TypeNode.t)) :=
  match groupBy with
  | VStr "engine" =>
      match Component.data c with
      | Some (Rows rows) =>
          match groupByEngineAndRuleArray P c rows with
          | Some nodes => Returns (map inl nodes)
          | None => Throws
          end
      | _ => Throws
      end
  | VStr "typefilename" =>
      match groupedByMetadataTypeArray c with
      | Returns nodes => Returns (map inr nodes)
      | Throws => Throws
      | OnBuiltin => OnBuiltin
      end
  | _ => Returns []
  end.

(** *** Grouping by rule *)

(** The callback of [this.formattedJson.forEach] in [groupedByRule]: a rule
    named like a member of [Object.prototype] reads that member, which has
    no [violations]. *)
Definition groupRule (groups : list (string * RuleObject.t))
    (violation : Violation.t) : option (list (string * RuleObject.t)) :=
  ruleKey <- to_string (Violation.rule violation) ;;
  ruleObj <- match lookup ruleKey groups with
             | Own r => Some r
             | Missing => Some (createRuleObject violation)
             | Inherited => None
             end ;;
  Some
    (assign ruleKey
       {| RuleObject.engine := RuleObject.engine ruleObj;
          RuleObject.resource := RuleObject.resource ruleObj;
          RuleObject.rule := RuleObject.rule ruleObj;
          RuleObject.severity := RuleObject.severity ruleObj;
          RuleObject.tags := RuleObject.tags ruleObj;
          RuleObject.violations :=
            (RuleObject.violations ruleObj ++ [violation])%list |}
       groups).

Definition groupedByRule (c : Component.t) : option (list RuleObject.t) :=
  match Component.formattedJson c with
  | None | Some (Text EmptyString) => Some []
  | Some (Text (String _ _)) => None
  | Some (Rows rows) =>
      groups <- forEach groupRule rows [] ;;
      Some (Object_values groups)
  end.

(** *** Grouping by file *)

(** [violation.sinkFileName || violation.file || UNKNOWN_FILE]: a row has
    no [sinkFileName]. *)
Definition shownFile (violation : Violation.t) : string :=
  if String.eqb (Violation.file violation) "" then UNKNOWN_FILE
  else Violation.file violation.

(** The callback of [violations.forEach] in [groupByFilename]: a file named
    like a member of [Object.prototype] reads that member, which has no
    [push]. *)
Definition groupFile (grouped : list (string * list Violation.t))
    (violation : Violation.t) : option (list (string * list Violation.t)) :=
  let file := shownFile violation in
  match lookup file grouped with
  | Own violations => Some (assign file (violations ++ [violation])%list grouped)
  | Missing => Some (assign file [violation] grouped)
  | Inherited => None
  end.

(** [undefined] and a text have no [forEach]. *)
Definition groupByFilename (violations : option display)
    : option (list (string * list Violation.t)) :=
  match violations with
  | Some (Rows rows) => forEach groupFile rows []
  | _ => None
  end.

(** The callback of [violations.forEach] in [groupByFilenameArray]: the same
    behind the severity filter. *)
Definition groupFilePassing (filterSeverity : value)
    (grouped : list (string * list Violation.t)) (violation : Violation.t)
    : option (list (string * list Violation.t)) :=
  skip <- filteredOut filterSeverity violation ;;
  if skip then Some grouped else groupFile grouped violation.

(** The callback of [Object.keys(grouped).map]. *)
Definition toFileGroup (entry : string * list Violation.t) : FileNode.t :=
  let (file, violations) := entry in
  {| FileNode.key := file; FileNode.label := file;
     FileNode.violations := violations |}.

Definition groupByFilenameArray (c : Component.t) (violations : option display)
    : option (list FileNode.t) :=
  match violations with
  | None | Some (Text EmptyString) => Some []
  | Some (Text (String _ _)) => None
  | Some (Rows rows) =>
      grouped <- forEach (groupFilePassing (Component.selectedSeverity c)) rows [] ;;
      Some (map toFileGroup (Object_entries grouped))
  end.

(** [groupBy] is the field of that name.  In the engine grouping the getter
    returns what [groupByEngineAndRule] does, whose body is empty:
    [undefined], here [None]. *)
Definition groupedViolations (groupBy : value) (c : Component.t)
    : option (option (list (string * list Violation.t))) :=
  match groupBy with
  | VStr "engine" => Some None
  | _ =>
      grouped <- groupByFilename (Component.formattedJson c) ;;
      Some (Some grouped)
  end.

End Getters.

(** ** utils.js *)

(** The callback of [errors.map]: the messages of a UI API read error, the
    message of a DML, Apex or network error, the one of a JavaScript error,
    or the status text. *)
Definition messageOf (error : value) : option value :=
  body <- field error "body" ;;
  match body with
  | VArr entries =>
      messages <- mapi_from (fun _ e => field e "message") 0 entries ;;
      Some (VArr messages)
  | _ =>
      inBody <- (if truthy body then field body "message" else Some VUndefined) ;;
      match inBody with
      | VStr _ => Some inBody
      | _ =>
          message <- field error "message" ;;
          match message with
          | VStr _ => Some message
          | _ => field error "statusText"
          end
      end
  end.

(** [prev.concat(curr)] appends the elements of an array, and anything
    else as it is. *)
Definition concat_spread (prev : list value) (curr : value) : list value :=
  match curr with
  | VArr items => (prev ++ items)%list
  | _ => (prev ++ [curr])%list
  end.

Definition reduceErrors (errors : value) : option string :=
  let errors :=
    match errors with
    | VArr items => items
    | _ => [errors]
    end in
  collected <- mapi_from (fun _ => messageOf) 0 (filter truthy errors) ;;
  join_with to_string ","
    (filter truthy (fold_left concat_spread collected [])).

(** ** Inputs the components are run on *)

Module Example.

(** The record and the payload of the specification's example. *)
Definition record : value :=
  VObj
    [ ("engine", VStr "pmd"); ("rule", VStr "R1"); ("severity", VNum 3);
      ("locations",
       VArr
         [ VObj
             [ ("file", VStr "main/default/classes/Foo.cls");
               ("startLine", VNum 10) ] ]);
      ("primaryLocationIndex", VNum 0); ("message", VStr "m");
      ("resources", VArr [VStr "Foo"]); ("tags", VArr []) ].

Definition payload : value := VObj [ ("violations", VArr [record]) ].

(** A report of two engines: a record whose index is out of range, one
    without locations, and one without an index. *)
Definition outOfRange : value :=
  VObj
    [ ("engine", VStr "pmd"); ("rule", VStr "R1"); ("severity", VNum 3);
      ("locations",
       VArr
         [ VObj
             [ ("file", VStr "force-app/main/default/classes/Bar.cls");
               ("startLine", VNum 7) ] ]);
      ("primaryLocationIndex", VNum 4) ].

Definition noLocation : value :=
  VObj [ ("engine", VStr "pmd"); ("rule", VStr "R2"); ("severity", VNum 2) ].

Definition noIndex : value :=
  VObj
    [ ("engine", VStr "eslint"); ("rule", VStr "no-unused-vars");
      ("severity", VNum 3);
      ("locations",
       VArr
         [ VObj
             [ ("file", VStr "force-app/main/default/lwc/table/table.js");
               ("startLine", VNum 1) ] ]) ].

Definition report : value :=
  VObj [ ("violations", VArr [record; outOfRange; noLocation; noIndex]) ].

(** The component once the report is loaded, the engines and the array the
    grouping makes of its rows under the severity filter [3]. *)
Definition loaded : Component.t :=
  Eval vm_compute in
    wiredVersion Reference.platform Component.initial (Reference.JSON_text report).

Definition rows : list Violation.t :=
  Eval vm_compute in
    match Component.formattedJson loaded with
    | Some (Rows rows) => rows
    | _ => []
    end.

Definition engines : list (string * EngineObject.t) :=
  Eval vm_compute in
    match processViolationsByEngine rows (VStr "3") with
    | Some engines => engines
    | None => []
    end.

Definition nodes : list EngineNode.t :=
  Eval vm_compute in
    match transformEngineObjectsToArray Reference.platform engines true with
    | Some nodes => nodes
    | None => []
    end.

Definition noViolations : value := VObj [("violations", VArr [])].

(** A location whose [file] is a number. *)
Definition numericFile : value :=
  VObj
    [ ("violations",
       VArr [ VObj [ ("locations", VArr [ VObj [ ("file", VNum 5) ] ]) ] ]) ].

Definition newline : string := String (ascii_of_nat 10) EmptyString.

(** The configuration of the specification's example, without and with a
    directory override. *)
Definition properties : value :=
  VObj
    [ ("SFCC_METADATA_ITEMS", VStr "metadata/sites/<site-id>/settings");
      ("SFCC_SITES", VStr ("A" ++ newline ++ "B")) ].

Definition propertiesWithDirectory : value :=
  VObj
    [ ("SFCC_METADATA_ITEMS", VStr "metadata/sites/<site-id>/settings");
      ("SFCC_SITES", VStr ("A" ++ newline ++ "B"));
      ("SFCC_METADATA_DIRECTORY", VStr "cartridge/") ].

Definition actions : Actions.t :=
  {| Actions._isWorking := false;
     Actions.isLoading := false;
     Actions.recordId := VStr "a1u000000000001";
     Actions._filtered := ["metadata/sites/B/settings"; "metadata/sites/A/settings"] |}.

Definition changes : value :=
  VArr
    [ VObj [ ("n", VStr "metadata/sites/A/urls"); ("t", VStr "xml");
             ("m", VStr "sites"); ("c", VStr "sfcc") ];
      VObj [ ("n", VStr "cartridges/app/cartridge.js"); ("t", VStr "js");
             ("m", VStr "cartridges"); ("c", VStr "code") ] ].

(** A record whose engine is written in upper case. *)
Definition upperCase : value :=
  VObj [ ("violations", VArr [ VObj [ ("engine", VStr "PMD") ] ]) ].

End Example.

(** More inputs: a report without violations, lines of one member name,
    and a list of errors of every shape. *)
Module Sample.

Definition emptyReport : value :=
  VObj [ ("violationCounts", VObj [ ("total", VNum 0) ]);
         ("violations", VArr []) ].

(** The rows of the example report grouped by rule. *)
Definition ruleObjects : list RuleObject.t :=
  Eval vm_compute in
    match groupedByRule Example.loaded with
    | Some groups => groups
    | None => []
    end.

(** The rows of the example report by file, as [groupedViolations] holds
    them. *)
Definition fileMap : list (string * list Violation.t) :=
  Eval vm_compute in
    match groupByFilename (Component.formattedJson Example.loaded) with
    | Some grouped => grouped
    | None => []
    end.

(** Changesets whose member names are not all strings: two numbers, and
    a record without [n] between two named ones. *)
Definition numbered : value :=
  VArr
    [ VObj [ ("n", VNum 10); ("t", VStr "xml"); ("m", VStr "sites");
             ("c", VStr "sfcc") ];
      VObj [ ("n", VNum 9); ("t", VStr "xml"); ("m", VStr "sites");
             ("c", VStr "sfcc") ] ].

Definition unnamed : value :=
  VArr
    [ VObj [ ("n", VStr "b"); ("t", VStr "xml"); ("m", VStr "sites");
             ("c", VStr "sfcc") ];
      VObj [ ("t", VStr "xml"); ("m", VStr "sites"); ("c", VStr "sfcc") ];
      VObj [ ("n", VStr "a"); ("t", VStr "xml"); ("m", VStr "sites");
             ("c", VStr "sfcc") ] ].

(** A changeset that names a file of the metadata lines again. *)
Definition changes : value :=
  VArr
    [ VObj [ ("n", VStr "metadata/sites/A/settings"); ("t", VStr "xml");
             ("m", VStr "sites"); ("c", VStr "sfcc") ];
      VObj [ ("n", VStr "cartridges/app/cartridge.js"); ("t", VStr "js");
             ("m", VStr "cartridges"); ("c", VStr "code") ] ].

Definition errors : list value :=
  [ VObj [ ("body", VArr [ VObj [ ("message", VStr "No access") ];
                           VObj [ ("message", VStr "Record locked") ] ]) ];
    VNull;
    VObj [ ("body", VObj [ ("message", VStr "Apex limit") ]) ];
    VObj [ ("message", VStr "x is undefined") ];
    VObj [ ("status", VNum 404); ("statusText", VStr "Not Found") ];
    VObj [ ("status", VNum 500) ] ].

End Sample.


(** ** Vocabulary of the statements *)

(** A value [String(v)] converts without throwing. *)
Definition coercible (v : value) : Prop := to_string v <> None.

(** A [file] the path shortening accepts: falsy, or a string. *)
Definition usableFile (file : value) : Prop :=
  truthy file = false \/ exists path, file = VStr path.

(** A raw record as the analyzer writes it, as far as the transformer
    depends on it: an object whose [rule], [severity] and
    [primaryLocationIndex] are coercible, and whose primary location, as
    the transformer resolves it, has a usable [file] and a coercible
    [startLine]. *)
Definition expected (violation : value) : Prop :=
  (exists fields, violation = VObj fields)
  /\ (forall name v,
         In name ["rule"; "severity"; "primaryLocationIndex"] ->
         field violation name = Some v -> coercible v)
  /\ (forall loc,
         primaryLocation violation = Some loc ->
         (forall file, slot_field loc "file" = Some file -> usableFile file)
         /\ (forall startLine,
                slot_field loc "startLine" = Some startLine ->
                coercible startLine)).

Definition missingOrOutOfRange (idx : value) (locations : list value) : Prop :=
  idx = VUndefined
  \/ exists n, idx = VNum n /\ (n < 0 \/ Z.of_nat (List.length locations) <= n)%Z.

(** [locations[0] || {}] *)
Definition firstLocation (locations : list value) : value :=
  match locations with
  | first :: _ => if truthy first then first else VObj []
  | [] => VObj []
  end.

Definition noUsableLocation (violation : value) : Prop :=
  exists locations,
    field violation "locations" = Some locations
    /\ (locations = VUndefined \/ locations = VNull \/ locations = VArr []).

(** The keys that start like a name: a letter or an underscore, as every
    member of the built-in prototypes does.  A numeral does not. *)
Definition named (k : string) : bool :=
  match k with
  | String c _ => (58 <=? nat_of_ascii c)%nat
  | EmptyString => false
  end.

(** Whether the string coercion of a property, lower-cased, contains the
    term; and whether the one of some property of a row does. *)
Definition fieldContains (term : string) (entry : string * value) : bool :=
  match to_string (snd entry) with
  | Some shown => Str.includes (Str.toLowerCase shown) term
  | None => false
  end.

Definition someFieldContains (term : string) (row : Violation.t) : bool :=
  existsb (fieldContains term) (Violation.entries row).

(** The same on the string coercion as it is, without lower-casing it. *)
Definition fieldContainsVerbatim (term : string) (entry : string * value)
    : bool :=
  match to_string (snd entry) with
  | Some shown => Str.includes shown term
  | None => false
  end.

(** The number of violations a rule of the produced array carries. *)
Definition ruleCount (rule : RuleNode.t) : nat :=
  List.length (RuleNode.violations rule).

(** Whether the severity filter lets a violation through. *)
Definition passes (filterSeverity : value) (violation : Violation.t) : bool :=
  match filteredOut filterSeverity violation with
  | Some false => true
  | _ => false
  end.

(** The sum of a measure over the properties of an object used as a map. *)
Definition total {A : Type} (weight : A -> nat) (o : list (string * A)) : nat :=
  list_sum (map (fun kv => weight (snd kv)) o).

(** The number of violations a rule object holds. *)
Definition ruleSize (r : RuleObject.t) : nat :=
  List.length (RuleObject.violations r).

(** The count of an engine is the number of violations under its rules. *)
Definition countedEngine (e : EngineObject.t) : Prop :=
  total ruleSize (EngineObject.rules e) = EngineObject.violationCount e.

Definition counted (engines : list (string * EngineObject.t)) (n : nat) : Prop :=
  Forall (fun kv => countedEngine (snd kv)) engines
  /\ total EngineObject.violationCount engines = n.

(** The member names of the messages a trace publishes. *)
Definition publishedNames (events : list event) : list (list value) :=
  flat_map
    (fun e =>
       match e with
       | Publish payload => [map CommitLine.MemberName (Payload.value payload)]
       | _ => []
       end)
    events.

(** The member name of a line is a string. *)
Definition named_line (line : CommitLine.t) : Prop :=
  exists name, CommitLine.MemberName line = VStr name.

(** Ascending order of two lines by member name, code unit by code unit. *)
Definition nameLe (x y : CommitLine.t) : Prop :=
  exists a b,
    CommitLine.MemberName x = VStr a /\ CommitLine.MemberName y = VStr b
    /\ String.leb a b = true.

(** A row the grouping is meant for: its engine and its rule convert to
    keys that no member of [Object.prototype] bears, its severity is
    coercible and its tags can be joined. *)
Definition groupable (row : Violation.t) : Prop :=
  (exists engineKey,
      to_string (Violation.engine row) = Some engineKey
      /\ Str.mem engineKey Object_prototype = false)
  /\ (exists ruleKey,
         to_string (Violation.rule row) = Some ruleKey
         /\ Str.mem ruleKey Object_prototype = false)
  /\ coercible (Violation.severity row)
  /\ tagsString_of (Violation.tags row) <> None.

(** What the rule objects and the engine objects keep of such rows. *)
Definition shownRule (r : RuleObject.t) : Prop :=
  coercible (RuleObject.rule r) /\ coercible (RuleObject.severity r)
  /\ tagsString_of (RuleObject.tags r) <> None.

Definition shownEngine (e : EngineObject.t) : Prop :=
  coercible (EngineObject.engine e)
  /\ Forall (fun kv => shownRule (snd kv)) (EngineObject.rules e).

(** A row all of whose properties are coercible. *)
Definition searchable (row : Violation.t) : Prop :=
  Forall (fun entry => coercible (snd entry)) (Violation.entries row).

(** A string that ends, or goes on with a line terminator. *)
Definition endsLine (rest : string) : Prop :=
  match rest with
  | EmptyString => True
  | String c _ => is_line_terminator c = true
  end.

(** Whether a row is filed under a rule key. *)
Definition filedUnderRule (ruleKey : string) (row : Violation.t) : bool :=
  match to_string (Violation.rule row) with
  | Some r => String.eqb r ruleKey
  | None => false
  end.

(** What the groups hold once the rows [done] are filed. *)
Definition filedByRule (groups : list (string * RuleObject.t))
    (done : list Violation.t) : Prop :=
  NoDup (map fst groups)
  /\ (forall kr r,
         assoc kr groups = Some r ->
         to_string (RuleObject.rule r) = Some kr
         /\ RuleObject.violations r <> []
         /\ RuleObject.violations r = filter (filedUnderRule kr) done)
  /\ forall v, In v done -> exists kr r, assoc kr groups = Some r /\ In v (RuleObject.violations r).

(** The states the component goes through: it starts in [initial], a
    document arrives, the user searches, clicks a severity or clears the
    filters. *)
Inductive reachable (P : Platform) : Component.t -> Prop :=
  | reachable_initial : reachable P Component.initial
  | reachable_wiredVersion (c : Component.t) (serializedJson : string) :
      reachable P c -> reachable P (wiredVersion P c serializedJson)
  | reachable_handleSearch (c : Component.t) (value : string) :
      reachable P c -> reachable P (fst (handleSearch c value))
  | reachable_handleSeverityClick (c : Component.t) (severity : option string) :
      reachable P c -> reachable P (handleSeverityClick c severity)
  | reachable_handleClearFilters (c : Component.t) :
      reachable P c -> reachable P (handleClearFilters c).

(** What is shown agrees with its type: nothing, a non-empty array of rows
    as a table, or a non-empty text as a string. *)
Definition consistent (c : Component.t) : Prop :=
  Component.relevantFormattedJson c = Component.formattedJson c
  /\ match Component.formattedJson c with
     | None => Component.type c = None /\ Component.showTable c = false
     | Some (Rows rows) =>
         rows <> [] /\ Component.type c = Some "Table"
         /\ Component.showTable c = true
     | Some (Text s) =>
         s <> "" /\ Component.type c = Some "String"
         /\ Component.showTable c = true
     end.

(** What the user does to the filters. *)
Inductive interaction : Type :=
  | Searched (value : string)
  | Clicked (severity : option string)
  | Cleared.

Definition interact (c : Component.t) (e : interaction) : Component.t :=
  match e with
  | Searched value => fst (handleSearch c value)
  | Clicked severity => handleSeverityClick c severity
  | Cleared => handleClearFilters c
  end.

(** The part of the component the filters leave alone. *)
Definition loadedPart (c : Component.t)
    : option display * option display * value * bool * option string :=
  (Component.formattedJson c, Component.relevantFormattedJson c,
   Component.violationCounts c, Component.showTable c, Component.type c).

(** Whether a row is filed under an engine key and a rule key. *)
Definition filedUnder (engineKey ruleKey : string) (row : Violation.t) : bool :=
  match to_string (Violation.engine row), to_string (Violation.rule row) with
  | Some e, Some r => String.eqb e engineKey && String.eqb r ruleKey
  | _, _ => false
  end.

(** The rule a rule of the produced array stands for. *)
Definition ruleOf (rule : RuleNode.t) : value :=
  match rule with
  | RuleNode.Spread _ _ r _ _ _ _ _ => r
  | RuleNode.Keyed key _ _ _ _ _ _ => key
  end.

(** The violations an object of engines holds under two keys. *)
Definition listedUnder (engines : list (string * EngineObject.t))
    (engineKey ruleKey : string) : list Violation.t :=
  match assoc engineKey engines with
  | Some e =>
      match assoc ruleKey (EngineObject.rules e) with
      | Some r => RuleObject.violations r
      | None => []
      end
  | None => []
  end.

(** What the engines hold once the rows [done] are filed. *)
Definition filed (filterSeverity : value)
    (engines : list (string * EngineObject.t)) (done : list Violation.t) : Prop :=
  NoDup (map fst engines)
  /\ (forall ke e,
         assoc ke engines = Some e ->
         to_string (EngineObject.engine e) = Some ke
         /\ NoDup (map fst (EngineObject.rules e))
         /\ forall kr r,
              assoc kr (EngineObject.rules e) = Some r ->
              to_string (RuleObject.rule r) = Some kr)
  /\ (forall ke kr,
         listedUnder engines ke kr
         = filter (fun v => passes filterSeverity v && filedUnder ke kr v) done)
  /\ forall v,
       In v done -> passes filterSeverity v = true ->
       exists ke kr, filedUnder ke kr v = true.

(** The key of an engine and of a rule of the produced array. *)
Definition engineKeyOf (node : EngineNode.t) : option string :=
  to_string (EngineNode.engine node).

Definition ruleKeyOf (rule : RuleNode.t) : option string :=
  to_string (ruleOf rule).







(** Whether a row is filed under a file. *)
Definition filedUnderFile (file : string) (row : Violation.t) : bool :=
  String.eqb (shownFile row) file.

(** The violations a map of files holds under a key. *)
Definition listedUnderFile (grouped : list (string * list Violation.t))
    (file : string) : list Violation.t :=
  match assoc file grouped with
  | Some violations => violations
  | None => []
  end.

(** What the map of files holds once the rows [done] are filed. *)
Definition filedByFile (filterSeverity : value)
    (grouped : list (string * list Violation.t)) (done : list Violation.t)
    : Prop :=
  NoDup (map fst grouped)
  /\ (forall file violations,
         assoc file grouped = Some violations -> violations <> [])
  /\ forall file,
       listedUnderFile grouped file
       = filter (fun v => passes filterSeverity v && filedUnderFile file v) done.

(** A text without [$]: [replace] puts it in as it is. *)
Definition plain (text : string) : bool :=
  Str.every (fun c => negb (Ascii.eqb c "$")) text.

(** The line with the text in the place of the first occurrence of the
    pattern; the line itself when the pattern does not occur in it. *)
Definition putIn (pat text line : string) : string :=
  match Str.cut pat line with
  | Some (before, after) => before ++ text ++ after
  | None => line
  end.

(** The sites of a configuration: the non-empty lines of [SFCC_SITES]. *)
Definition sitesOf (listed : value) : list string :=
  match listed with
  | VStr s => filter (fun x => negb (String.eqb x "")) (Str.split_newlines s)
  | _ => []
  end.

(** Whether the member name of a line is a given string. *)
Definition hasName (name : string) (line : CommitLine.t) : bool :=
  match CommitLine.MemberName line with
  | VStr a => String.eqb a name
  | _ => false
  end.

(** The names these functions read. *)
Definition error_names : list string := ["body"; "message"; "statusText"].

(** What an error of one of the shapes of [reduceErrors] says. *)
Inductive says : value -> list string -> Prop :=
  | says_nothing_falsy (error : value) :
      truthy error = false -> says error []
  | says_read (error : value) (entries : list value) (messages : list string) :
      field error "body" = Some (VArr entries) ->
      Forall2 (fun e m => field e "message" = Some (VStr m)) entries messages ->
      says error messages
  | says_body (error body : value) (message : string) :
      field error "body" = Some body -> truthy body = true ->
      (forall entries, body <> VArr entries) ->
      field body "message" = Some (VStr message) ->
      says error [message]
  | says_message (error body : value) (message : string) :
      field error "body" = Some body ->
      (forall entries, body <> VArr entries) ->
      truthy body = false
      \/ (forall text, field body "message" <> Some (VStr text)) ->
      field error "message" = Some (VStr message) ->
      says error [message]
  | says_status (error body : value) (statusText : string) :
      field error "body" = Some body ->
      (forall entries, body <> VArr entries) ->
      truthy body = false
      \/ (forall text, field body "message" <> Some (VStr text)) ->
      (forall text, field error "message" <> Some (VStr text)) ->
      field error "statusText" = Some (VStr statusText) ->
      says error [statusText]
  | says_nothing (error body statusText : value) :
      truthy error = true ->
      field error "body" = Some body ->
      (forall entries, body <> VArr entries) ->
      truthy body = false
      \/ (forall text, field body "message" <> Some (VStr text)) ->
      (forall text, field error "message" <> Some (VStr text)) ->
      field error "statusText" = Some statusText -> truthy statusText = false ->
      says error [].

Definition nonEmpty (s : string) : bool := negb (String.eqb s "").

(** What a collected value adds to the messages. *)
Definition adds (collected : value) (messages : list string) : Prop :=
  forall prev,
    filter truthy (concat_spread prev collected)
    = (filter truthy prev ++ map VStr (filter nonEmpty messages))%list.

(** * Properties *)

Section Properties.

Variable P : Platform.

(** ** Property reads *)

Lemma mem_In (k : string) (names : list string) :
  Str.mem k names = true <-> In k names.
Proof.
  unfold Str.mem. rewrite existsb_exists. split.
  - intros [x [Hin Heq]]. apply String.eqb_eq in Heq. now subst.
  - intros Hin. exists k. split; [assumption | apply String.eqb_refl].
Qed.

(** The names the code spells out are members of no built-in prototype and
    are neither an index nor [length], except [0], which is an index. *)
Lemma fixed_names_own :
  forallb
    (fun name =>
       negb (Str.mem name Object_prototype || Str.mem name Array_prototype
             || Str.mem name String_prototype || Str.mem name Number_prototype
             || Str.mem name Boolean_prototype))
    fixed_names = true.
Proof. reflexivity. Qed.

(** A read of such a name is the own property, or [undefined]. *)
Lemma field_Get (o : value) (name : string) :
  In name fixed_names -> Get o name = option_map Val (field o name).
Proof.
  intros Hin.
  pose proof fixed_names_own as H.
  rewrite forallb_forall in H. specialize (H name Hin).
  apply negb_true_iff in H.
  apply orb_false_iff in H; destruct H as [H Hbool].
  apply orb_false_iff in H; destruct H as [H Hnum].
  apply orb_false_iff in H; destruct H as [H Hstr].
  apply orb_false_iff in H; destruct H as [Hobj Harr].
  destruct o; try reflexivity;
    unfold Get, field, inherited;
    rewrite ?Hobj, ?Harr, ?Hstr, ?Hnum, ?Hbool;
    destruct (own_property _ name); reflexivity.
Qed.

(** ** The transformer on the example payload *)

(** C2.  On the payload of the specification's example the transformer
    yields exactly one Violation record, whose [file] is
    ["classes/Foo.cls"], whose [engine] is ["pmd"] and whose [line] is
    [10]. *)
Theorem transformJson_example :
  option_map
    (map (fun row =>
            (Violation.file row, Violation.engine row, Violation.line row)))
    (transformJson P Example.payload)
  = Some [("classes/Foo.cls", VStr "pmd", VNum 10)].
Proof. reflexivity. Qed.

(** ** The plain-text fallback *)

(** C4.  When [JSON.parse] throws on the input, [getFormattedData] returns
    type ['String'] with [formattedJson] the input itself, and leaves the
    component as it was. *)
Theorem getFormattedData_parse_failure (c : Component.t) (s : string) :
  JSON_parse P s = None ->
  getFormattedData P c s
  = (c, {| Formatted.formattedJson := Text s; Formatted.type := "String" |}).
Proof.
  intros Hparse. unfold getFormattedData. rewrite Hparse. reflexivity.
Qed.

(** ** Callbacks that can throw *)

Lemma mapi_from_nth {A B : Type} (f : nat -> A -> option B) (l : list A) :
  forall (i : nat) (l' : list B),
    mapi_from f i l = Some l' ->
    List.length l' = List.length l
    /\ forall j x, nth_error l j = Some x ->
         exists y, nth_error l' j = Some y /\ f (i + j) x = Some y.
Proof.
  induction l as [|a l IH]; intros i l' H; simpl in H.
  - injection H as <-. split; [reflexivity|]. intros [|j] x Hx; discriminate Hx.
  - destruct (f i a) as [y|] eqn:Hy; [|discriminate H]. cbn [bind] in H.
    destruct (mapi_from f (S i) l) as [ys|] eqn:Hys; [|discriminate H].
    cbn [bind] in H. injection H as <-.
    destruct (IH _ _ Hys) as [Hlen Hnth]. split; [simpl; now rewrite Hlen|].
    intros [|j] x Hx; simpl in Hx.
    + injection Hx as <-. exists y. rewrite Nat.add_0_r. now split.
    + destruct (Hnth j x Hx) as [z [Hz Hf]]. exists z. split; [exact Hz|].
      replace (i + S j) with (S i + j) by lia. exact Hf.
Qed.

Lemma mapi_from_total {A B : Type} (f : nat -> A -> option B) (l : list A) :
  forall i : nat,
    (forall j x, nth_error l j = Some x -> f (i + j) x <> None) ->
    exists l', mapi_from f i l = Some l'.
Proof.
  induction l as [|a l IH]; intros i H; simpl.
  - now exists [].
  - destruct (f i a) as [y|] eqn:Hy.
    + destruct (IH (S i)) as [ys Hys].
      * intros j x Hx. replace (S i + j) with (i + S j) by lia.
        now apply (H (S j)).
      * exists (y :: ys). cbn [bind]. now rewrite Hys.
    + exfalso. apply (H 0 a); [reflexivity | now rewrite Nat.add_0_r].
Qed.

Lemma field_defined (o : value) (name name' : string) (v : value) :
  field o name = Some v -> exists v', field o name' = Some v'.
Proof. destruct o; simpl; intros H; try discriminate H; eauto. Qed.

(** ** The transformer *)

Lemma Number_toString_head (n : Z) :
  exists c rest, Number_toString n = String c rest /\ (nat_of_ascii c <= 57)%nat.
Proof.
  destruct n as [|p|p].
  - exists "0"%char, EmptyString. split; [reflexivity | vm_compute; lia].
  - unfold Number_toString. simpl.
    pose proof (DecimalPos.Unsigned.to_uint_nonnil p) as Hnil.
    destruct (Pos.to_uint p) eqn:E; [contradiction | ..]; simpl;
      eexists; eexists; (split; [reflexivity | vm_compute; lia]).
  - unfold Number_toString. simpl. exists "-"%char. eexists.
    split; [reflexivity | vm_compute; lia].
Qed.

Lemma mem_named (k : string) (names : list string) :
  forallb named names = true -> named k = false -> Str.mem k names = false.
Proof.
  intros Hall Hk. unfold Str.mem.
  apply not_true_is_false. intros H. apply existsb_exists in H.
  destruct H as [x [Hin Heq]]. apply String.eqb_eq in Heq. subst x.
  rewrite forallb_forall in Hall. rewrite (Hall k Hin) in Hk. discriminate.
Qed.

Lemma Number_toString_not_named (n : Z) : named (Number_toString n) = false.
Proof.
  destruct (Number_toString_head n) as [c [rest [E Hc]]]. rewrite E.
  unfold named. apply Nat.leb_gt. lia.
Qed.

Lemma array_index_number (n : Z) :
  array_index (Number_toString n)
  = if ((0 <=? n) && (n <? 4294967295))%Z then Some (Z.to_N n) else None.
Proof.
  destruct (Z.leb_spec 0 n) as [Hle | Hlt]; cbn [andb].
  - assert (Hs : Number_toString n = NilZero.string_of_uint (N.to_uint (Z.to_N n))).
    { destruct n as [|p|p]; try reflexivity. lia. }
    rewrite Hs. unfold array_index.
    rewrite NilZero.usu.
    + rewrite DecimalN.Unsigned.of_to, String.eqb_refl. cbn [andb].
      destruct (Z.ltb_spec n 4294967295); destruct (N.ltb_spec (Z.to_N n) 4294967295);
        try reflexivity; lia.
    + destruct (Z.to_N n); simpl; [discriminate | apply DecimalPos.Unsigned.to_uint_nonnil].
  - destruct n as [|p|p]; try lia. unfold array_index, Number_toString. simpl.
    destruct (NilEmpty.uint_of_string _); reflexivity.
Qed.

Lemma Get_out_of_range (locations : list value) (n : Z) :
  (n < 0 \/ Z.of_nat (List.length locations) <= n)%Z ->
  Get (VArr locations) (Number_toString n) = Some (Val VUndefined).
Proof.
  intros Hn. unfold Get, own_property, inherited.
  rewrite array_index_number.
  rewrite !mem_named by (reflexivity || apply Number_toString_not_named).
  assert (Hlen : String.eqb (Number_toString n) "length" = false).
  { apply String.eqb_neq. intros E.
    pose proof (Number_toString_not_named n) as H. rewrite E in H. discriminate. }
  rewrite Hlen.
  destruct ((0 <=? n) && (n <? 4294967295))%Z eqn:E; [|reflexivity].
  apply andb_true_iff in E. destruct E as [E1 E2].
  apply Z.leb_le in E1. unfold item.
  destruct (N.ltb_spec (Z.to_N n) (N.of_nat (List.length locations))); [lia | reflexivity].
Qed.

Lemma primaryLocation_fallback (violation : value) (locations : list value)
    (idx : value) :
  field violation "locations" = Some (VArr locations) ->
  field violation "primaryLocationIndex" = Some idx ->
  missingOrOutOfRange idx locations ->
  primaryLocation violation = Some (Val (firstLocation locations)).
Proof.
  intros Hloc Hidx Hout.
  assert (Hfirst : optional_index (VArr locations) idx = Some (Val VUndefined)).
  { unfold optional_index, index.
    destruct Hout as [-> | [n [-> Hn]]]; cbn [to_string bind].
    - reflexivity.
    - now apply Get_out_of_range. }
  unfold primaryLocation, bind. rewrite Hloc, Hidx, Hfirst.
  cbn [truthy_slot truthy].
  destruct locations as [|first rest]; [reflexivity|].
  change (optional_index (VArr (first :: rest)) (VNum 0)) with (Some (Val first)).
  unfold firstLocation. cbn [truthy_slot]. destruct (truthy first); reflexivity.
Qed.

Lemma primaryLocation_truthy (violation : value) (loc : slot) :
  primaryLocation violation = Some loc -> truthy_slot loc = true.
Proof.
  unfold primaryLocation. intros H.
  destruct (field violation "locations") as [locations|]; [|discriminate H].
  destruct (field violation "primaryLocationIndex") as [idx|]; [|discriminate H].
  cbn [bind] in H.
  destruct (optional_index locations idx) as [first|]; [|discriminate H].
  cbn [bind] in H. destruct (truthy_slot first) eqn:E1.
  - injection H as <-. exact E1.
  - destruct (optional_index locations (VNum 0)) as [second|]; [|discriminate H].
    cbn [bind] in H. destruct (truthy_slot second) eqn:E2; injection H as <-;
      [exact E2 | reflexivity].
Qed.

Lemma slot_field_truthy (loc : slot) (name : string) :
  truthy_slot loc = true -> exists v, slot_field loc name = Some v.
Proof.
  destruct loc as [v|k]; simpl; [|eauto].
  destruct v; simpl; intros H; try discriminate H; eauto.
Qed.

Lemma optional_index_total (o key : value) :
  coercible key -> exists s, optional_index o key = Some s.
Proof.
  unfold coercible, optional_index, index. intros H.
  destruct (to_string key) as [k|]; [|contradiction]. cbn [bind].
  destruct o; simpl; eauto.
Qed.

Lemma primaryLocation_total (violation : value) (fields : list (string * value)) :
  violation = VObj fields ->
  (forall idx, field violation "primaryLocationIndex" = Some idx -> coercible idx) ->
  exists loc, primaryLocation violation = Some loc.
Proof.
  intros -> Hidx. unfold primaryLocation.
  destruct (field (VObj fields) "locations") as [locations|] eqn:Hl; [|discriminate Hl].
  destruct (field (VObj fields) "primaryLocationIndex") as [idx|] eqn:Hi; [|discriminate Hi].
  cbn [bind].
  destruct (optional_index_total locations idx (Hidx _ eq_refl)) as [first ->].
  cbn [bind]. destruct (truthy_slot first); [eauto|].
  destruct (optional_index_total locations (VNum 0)) as [second ->]; [discriminate|].
  cbn [bind]. destruct (truthy_slot second); eauto.
Qed.

Lemma usableFile_coercible (file : value) : usableFile file -> coercible file.
Proof.
  intros [H | [path ->]]; [|discriminate].
  destruct file as [ | |[]| | | | ]; simpl in H; try discriminate H; discriminate.
Qed.

Lemma extractFileAfterDefault_total (file : value) :
  usableFile file -> exists path, extractFileAfterDefault file = Some path.
Proof.
  unfold extractFileAfterDefault.
  intros [H | [path ->]].
  - rewrite H. simpl. eauto.
  - destruct (truthy (VStr path)); simpl; [|eauto].
    destruct (MAIN_DEFAULT_PATTERN path) as [[a b]|]; eauto.
Qed.

Lemma assoc_In {A : Type} (k : string) (fields : list (string * A)) (a : A) :
  assoc k fields = Some a -> In (k, a) fields.
Proof.
  induction fields as [|[k' a'] rest IH]; simpl; [discriminate|].
  destruct (String.eqb_spec k k') as [->|Hne].
  - intros [= ->]. now left.
  - intros H. right. now apply IH.
Qed.

Lemma severity_label_total (k : string) :
  exists label,
    (entry <- Get SEVERITY_LABELS k ;; text_or_empty P entry) = Some label.
Proof.
  unfold Get, SEVERITY_LABELS. cbn [bind own_property].
  match goal with |- context [assoc k ?l] => destruct (assoc k l) as [v|] eqn:E end.
  - apply assoc_In in E. simpl in E.
    repeat (destruct E as [E|E]; [injection E as _ <-; simpl; eauto|]).
    contradiction.
  - destruct (inherited _ k); simpl; eauto.
Qed.

Lemma severityLabel_of_total (severity : value) :
  coercible severity -> exists label, severityLabel_of P severity = Some label.
Proof.
  unfold coercible, severityLabel_of, index. intros H.
  destruct (to_string severity) as [k|]; [|contradiction]. cbn [bind].
  destruct (severity_label_total k) as [label Hl].
  destruct (Get SEVERITY_LABELS k) as [entry|]; [|discriminate Hl].
  cbn [bind] in *. rewrite Hl. cbn [bind]. eauto.
Qed.

Lemma optional_field_total (o : value) (name : string) :
  exists v, optional_field o name = Some v.
Proof. destruct o; simpl; eauto. Qed.

Lemma toViolation_total (idx : nat) (violation : value) :
  expected violation -> exists row, toViolation P idx violation = Some row.
Proof.
  intros [[fields ->] [Hscalar Hloc]].
  destruct (primaryLocation_total (VObj fields) fields eq_refl) as [loc Hp].
  { intros i Hi. apply (Hscalar "primaryLocationIndex"); simpl; auto. }
  pose proof (primaryLocation_truthy _ _ Hp) as Htruthy.
  destruct (slot_field_truthy loc "file" Htruthy) as [file Hfile].
  destruct (slot_field_truthy loc "startLine" Htruthy) as [startLine Hline].
  destruct (Hloc loc Hp) as [Hf Hs].
  specialize (Hf file Hfile). specialize (Hs startLine Hline).
  destruct (extractFileAfterDefault_total file Hf) as [path Hpath].
  unfold toViolation. rewrite Hp. cbn [bind]. rewrite Hfile. cbn [bind].
  rewrite Hpath. cbn [bind].
  destruct (field (VObj fields) "locations") as [locations|] eqn:E1; [|discriminate E1].
  destruct (field (VObj fields) "engine") as [engine|] eqn:E2; [|discriminate E2].
  destruct (field (VObj fields) "rule") as [rule|] eqn:E3; [|discriminate E3].
  cbn [bind]. rewrite Hline. cbn [bind].
  assert (Hrule : coercible rule) by (apply (Hscalar "rule"); simpl; auto).
  unfold coercible in Hrule, Hs.
  destruct (to_string rule) as [ruleText|]; [|contradiction]. cbn [bind].
  pose proof (usableFile_coercible file Hf) as Hfc. unfold coercible in Hfc.
  destruct (to_string file) as [fileText|]; [|contradiction]. cbn [bind].
  destruct (to_string startLine) as [lineText|]; [|contradiction]. cbn [bind].
  destruct (field (VObj fields) "message") as [message|] eqn:E4; [|discriminate E4].
  destruct (field (VObj fields) "resources") as [resources|] eqn:E5; [|discriminate E5].
  cbn [bind].
  destruct (optional_field_total resources "0") as [first ->]. cbn [bind].
  destruct (field (VObj fields) "severity") as [severity|] eqn:E6; [|discriminate E6].
  destruct (field (VObj fields) "tags") as [tags|] eqn:E7; [|discriminate E7].
  cbn [bind].
  destruct (severityLabel_of_total severity) as [label ->].
  { apply (Hscalar "severity"); simpl; auto. }
  cbn [bind]. eauto.
Qed.

Lemma Get_empty_array (k : string) :
  Get (VArr []) k = Some (Val (VNum 0))
  \/ Get (VArr []) k = Some (Val VUndefined)
  \/ Get (VArr []) k = Some (Builtin k).
Proof.
  unfold Get, own_property.
  destruct (array_index k) as [n|].
  - unfold item. destruct (n <? N.of_nat (List.length (@nil value)))%N eqn:E.
    + apply N.ltb_lt in E. simpl in E. lia.
    + destruct (inherited (VArr []) k); auto.
  - destruct (String.eqb k "length"); [now left|].
    destruct (inherited (VArr []) k); auto.
Qed.

(** Without a usable location the primary location has neither [file] nor
    [startLine]. *)
Lemma primaryLocation_unusable (violation : value) (loc : slot) :
  noUsableLocation violation ->
  primaryLocation violation = Some loc ->
  slot_field loc "file" = Some VUndefined
  /\ slot_field loc "startLine" = Some VUndefined.
Proof.
  intros [locations [Hl Hcase]] Hp. unfold primaryLocation, bind in Hp.
  rewrite Hl in Hp.
  destruct (field violation "primaryLocationIndex") as [idx|]; [|discriminate Hp].
  destruct Hcase as [-> | [-> | ->]].
  - simpl in Hp. injection Hp as <-. now split.
  - simpl in Hp. injection Hp as <-. now split.
  - unfold optional_index, index, bind in Hp.
    destruct (to_string idx) as [k|]; [|discriminate Hp].
    change (to_string (VNum 0)) with (Some "0") in Hp.
    change (Get (VArr []) "0") with (Some (Val VUndefined)) in Hp.
    destruct (Get_empty_array k) as [E | [E | E]]; rewrite E in Hp;
      simpl in Hp; injection Hp as <-; now split.
Qed.

(** C10, as the code has it.  On a payload whose [violations] array holds
    the records the transformer expects (objects whose [rule], [severity]
    and [primaryLocationIndex] are coercible to strings and whose resolved
    primary location has a [file] that is a string or falsy and a coercible
    [startLine]) [transformJson] does not throw and returns one record per
    entry.  For an entry whose [locations] is an array and whose
    [primaryLocationIndex] is missing or out of range, the primary location
    is [locations[0]] (or [{}] when that is absent or falsy) and the
    record's [line] is its [startLine]; for an entry with no usable
    location the record has [file] ['Unknown File'] and [line]
    [undefined]. *)
Theorem transformJson_total (payload : value) (items : list value) :
  field payload "violations" = Some (VArr items) ->
  Forall expected items ->
  exists rows,
    transformJson P payload = Some rows
    /\ List.length rows = List.length items
    /\ forall i violation,
         nth_error items i = Some violation ->
         exists row,
           nth_error rows i = Some row
           /\ toViolation P i violation = Some row
           /\ (forall locations idx,
                  field violation "locations" = Some (VArr locations) ->
                  field violation "primaryLocationIndex" = Some idx ->
                  missingOrOutOfRange idx locations ->
                  primaryLocation violation = Some (Val (firstLocation locations))
                  /\ field (firstLocation locations) "startLine"
                     = Some (Violation.line row))
           /\ (noUsableLocation violation ->
               Violation.file row = UNKNOWN_FILE
               /\ Violation.line row = VUndefined).
Proof.
  intros Hv Hall.
  destruct (mapi_from_total (toViolation P) items 0) as [rows Hrows].
  { intros j x Hx. rewrite Forall_forall in Hall.
    destruct (toViolation_total (0 + j) x) as [row ->]; [|discriminate].
    apply Hall. eapply nth_error_In. exact Hx. }
  exists rows. unfold transformJson. rewrite Hv. cbn [bind].
  split; [exact Hrows|].
  destruct (mapi_from_nth _ _ _ _ Hrows) as [Hlen Hnth].
  split; [exact Hlen|].
  intros i violation Hi. destruct (Hnth i violation Hi) as [row [Hrow Hto]].
  simpl in Hto. exists row. split; [exact Hrow|]. split; [exact Hto|].
  unfold toViolation in Hto.
  destruct (primaryLocation violation) as [loc|] eqn:Hp; [|discriminate Hto].
  cbn [bind] in Hto.
  destruct (slot_field loc "file") as [file|] eqn:Hfile; [|discriminate Hto].
  cbn [bind] in Hto.
  destruct (extractFileAfterDefault file) as [path|] eqn:Hpath; [|discriminate Hto].
  cbn [bind] in Hto.
  repeat match type of Hto with
         | bind ?m _ = Some _ =>
             let E := fresh "E" in
             destruct m eqn:E; [cbn [bind] in Hto | discriminate Hto]
         end.
  injection Hto as <-. cbn [Violation.file Violation.line].
  split.
  - intros locations idx Hl Hidx Hout. rewrite <- E in Hl.
    pose proof (primaryLocation_fallback violation locations idx Hl Hidx Hout) as Hfb.
    rewrite Hp in Hfb. split; [exact Hfb|].
    injection Hfb as Hfb. subst loc. exact E2.
  - intros Hno.
    destruct (primaryLocation_unusable violation loc Hno Hp) as [Hf Hs].
    rewrite Hf in Hfile. injection Hfile as <-.
    rewrite Hs in E2. injection E2 as <-.
    simpl in Hpath. injection Hpath as <-. now split.
Qed.

(** ** The classification of the blob *)

(** C1, as the code has it.  When [JSON.parse] succeeds and the parsed
    value is not [null] ([violations] is what its property of that name
    reads): if [violations] is a non-empty array on whose entries the
    transformer does not throw, the result type is ['Table'] and
    [formattedJson] holds one Violation record per entry, in order, each the
    image of its entry; if [violations] is anything else, an empty array
    included, the result type is ['YAML'] and [formattedJson] is empty. *)
Theorem getFormattedData_classifies (c : Component.t) (s : string)
    (parsed violations : value) :
  JSON_parse P s = Some parsed ->
  field parsed "violations" = Some violations ->
  match violations with
  | VArr (first :: others) =>
      (forall i violation,
          nth_error (first :: others) i = Some violation ->
          toViolation P i violation <> None) ->
      exists rows,
        snd (getFormattedData P c s)
        = {| Formatted.formattedJson := Rows rows; Formatted.type := "Table" |}
        /\ List.length rows = S (List.length others)
        /\ forall i violation,
             nth_error (first :: others) i = Some violation ->
             exists row,
               nth_error rows i = Some row
               /\ toViolation P i violation = Some row
  | _ =>
      snd (getFormattedData P c s)
      = {| Formatted.formattedJson := Rows []; Formatted.type := "YAML" |}
  end.
Proof.
  intros Hparse Hfield.
  destruct (field_defined _ _ "violationCounts" _ Hfield) as [counts Hcounts].
  unfold getFormattedData. rewrite Hparse, Hcounts.
  unfold transformJson. rewrite Hfield. cbn [bind].
  destruct violations as [ | | | | | items | ]; try reflexivity.
  destruct items as [|first others]; [reflexivity|].
  intros Hno.
  destruct (mapi_from_total (toViolation P) (first :: others) 0 Hno) as [rows Hrows].
  rewrite Hrows.
  destruct (mapi_from_nth _ _ _ _ Hrows) as [Hlen Hnth].
  destruct rows as [|row rows]; [discriminate Hlen|].
  exists (row :: rows). split; [reflexivity|]. split; [exact Hlen|].
  exact Hnth.
Qed.

(** ** The severity toggle *)

Lemma same_severity_dataset (severity : option string) :
  same_severity (dataset_value severity) severity = true.
Proof.
  destruct severity as [s|]; simpl; [apply String.eqb_refl | reflexivity].
Qed.

Lemma same_severity_null (severity : option string) :
  same_severity VNull severity = false.
Proof. destruct severity; reflexivity. Qed.

(** C7.  From a state with no severity selected, two clicks on the same
    severity level leave [selectedSeverity] equal to [null]; nothing else
    of the component changed, so it is back in the state it started from. *)
Theorem handleSeverityClick_twice (c : Component.t) (severity : option string) :
  Component.selectedSeverity c = VNull ->
  let c' := handleSeverityClick (handleSeverityClick c severity) severity in
  Component.selectedSeverity c' = VNull /\ c' = c.
Proof.
  intros Hnull c'. subst c'. unfold handleSeverityClick.
  rewrite Hnull, same_severity_null. cbn [Component.set_selectedSeverity Component.selectedSeverity].
  rewrite same_severity_dataset. split; [reflexivity|].
  destruct c; simpl in *. now subst.
Qed.

(** ** The search *)

Lemma includes_empty (term : string) :
  term <> "" -> Str.includes "" term = false.
Proof. destruct term; [contradiction | reflexivity]. Qed.

Lemma rowMatches_spec (term : string) (row : Violation.t) (b : bool) :
  term <> "" ->
  rowMatches term row = Some b -> b = someFieldContains term row.
Proof.
  intros Hterm. unfold rowMatches, someFieldContains.
  induction (Violation.entries row) as [|[k v] rest IH]; simpl.
  - now intros [= <-].
  - unfold fieldContains at 1. cbn [snd].
    destruct (to_string v) as [shown|]; [|discriminate]. cbn [bind].
    destruct (String.eqb_spec shown "") as [->|Hne].
    + change (Str.toLowerCase "") with "".
      rewrite includes_empty by assumption. exact IH.
    + destruct (Str.includes (Str.toLowerCase shown) term); cbn [negb andb orb].
      * now intros [= <-].
      * exact IH.
Qed.

Lemma filter_throw_spec {A : Type} (f : A -> option bool) (g : A -> bool)
    (l kept : list A) :
  (forall x b, f x = Some b -> b = g x) ->
  filter_throw f l = Some kept -> kept = filter g l.
Proof.
  intros Hfg. revert kept. induction l as [|x l IH]; simpl; intros kept H.
  - now injection H as <-.
  - destruct (f x) as [b|] eqn:Hb; [|discriminate H]. cbn [bind] in H.
    destruct (filter_throw f l) as [rest|]; [|discriminate H]. cbn [bind] in H.
    injection H as <-. rewrite <- (Hfg x b Hb), (IH rest eq_refl). reflexivity.
Qed.

Lemma handleSearch_formattedJson (c : Component.t) (value : string) :
  Component.formattedJson (fst (handleSearch c value)) = Component.formattedJson c.
Proof.
  unfold handleSearch.
  destruct (String.eqb _ ""); [reflexivity|].
  unfold _applySearch. cbn [Component.set_searchValue Component.formattedJson].
  destruct (Component.formattedJson c) as [[rows|text]|] eqn:E;
    try (simpl; now rewrite E).
  destruct (filter_throw _ rows); simpl; now rewrite E.
Qed.

Lemma rowMatches_defined (term : string) (row : Violation.t) :
  searchable row -> rowMatches term row <> None.
Proof.
  unfold searchable, rowMatches.
  induction 1 as [|[k v] rest Hv Hrest IH]; simpl; [discriminate|].
  unfold coercible in Hv. simpl in Hv.
  destruct (to_string v); [|contradiction]. cbn [bind].
  destruct (_ && _); [discriminate | exact IH].
Qed.

Lemma filter_throw_defined {A : Type} (f : A -> option bool) (Q : A -> Prop)
    (l : list A) :
  (forall x, Q x -> f x <> None) -> Forall Q l -> filter_throw f l <> None.
Proof.
  intros Hf. induction 1 as [|x l Hx Hl IH]; simpl; [discriminate|].
  specialize (Hf x Hx). destruct (f x); [|contradiction]. cbn [bind].
  destruct (filter_throw f l); [discriminate | contradiction].
Qed.

(** On searchable rows the handler returns. *)
Lemma handleSearch_returns (c : Component.t) (rows : list Violation.t)
    (value : string) :
  Component.formattedJson c = Some (Rows rows) -> Forall searchable rows ->
  snd (handleSearch c value) = Returned.
Proof.
  intros Hrows Hall. unfold handleSearch.
  destruct (String.eqb _ ""); [reflexivity|].
  unfold _applySearch. cbn [Component.set_searchValue Component.formattedJson].
  rewrite Hrows.
  pose proof (filter_throw_defined
                (rowMatches (if String.eqb value "" then ""
                             else Str.toLowerCase (Str.trim value)))
                searchable rows
                (rowMatches_defined _) Hall) as H.
  destruct (filter_throw _ rows); [reflexivity | contradiction].
Qed.

(** C8, as the code has it.  Whatever was searched before, a search with
    an empty or whitespace-only term clears the filter: [formattedJson] is
    untouched and is again the list the getters work on, the same list
    with the same elements.  While a search with a non-blank term is
    active (the handler returned), the filtered list holds, in their order,
    exactly the rows of which some property has a string coercion that,
    lower-cased, contains the lower-cased trimmed term. *)
Theorem handleSearch_then_clear (c : Component.t) (value blank : string) :
  Str.trim blank = "" ->
  let cleared := fst (handleSearch (fst (handleSearch c value)) blank) in
  (Component.filteredJson cleared = None
   /\ Component.formattedJson cleared = Component.formattedJson c
   /\ Component.data cleared = Component.formattedJson c)
  /\ forall rows c',
       Component.formattedJson c = Some (Rows rows) ->
       Str.toLowerCase (Str.trim value) <> "" ->
       handleSearch c value = (c', Returned) ->
       Component.filteredJson c'
       = Some (filter (someFieldContains (Str.toLowerCase (Str.trim value))) rows).
Proof.
  intros Hblank cleared.
  assert (Hterm : (if String.eqb blank "" then ""
                   else Str.toLowerCase (Str.trim blank)) = "").
  { destruct (String.eqb blank ""); [reflexivity | now rewrite Hblank]. }
  assert (Hcleared : Component.filteredJson cleared = None
                     /\ Component.formattedJson cleared = Component.formattedJson c).
  { subst cleared. split.
    - unfold handleSearch at 1. rewrite Hterm. reflexivity.
    - now rewrite !handleSearch_formattedJson. }
  destruct Hcleared as [Hf Hj]. split.
  - repeat split; try assumption. unfold Component.data. now rewrite Hf.
  - intros rows c' Hrows Hne Hret. unfold handleSearch in Hret.
    destruct (String.eqb_spec value "") as [->|Hv]; [now contradiction Hne|].
    destruct (String.eqb_spec (Str.toLowerCase (Str.trim value)) "") as [E|_];
      [contradiction|].
    unfold _applySearch in Hret.
    cbn [Component.set_searchValue Component.formattedJson] in Hret.
    rewrite Hrows in Hret.
    destruct (filter_throw _ rows) as [kept|] eqn:Hk; [|discriminate Hret].
    cbn [bind] in Hret. injection Hret as <-.
    cbn [Component.set_filteredJson Component.filteredJson]. f_equal.
    eapply filter_throw_spec; [|exact Hk].
    intros row b. now apply rowMatches_spec.
Qed.

(** ** Objects used as maps *)

Section Maps.
Context {A : Type}.
Variable weight : A -> nat.

Lemma assign_total (k : string) (a : A) (o : list (string * A)) :
  total weight (assign k a o)
  + match assoc k o with Some old => weight old | None => 0 end
  = total weight o + weight a.
Proof.
  unfold total. induction o as [|[k' a'] rest IH]; simpl.
  - lia.
  - destruct (String.eqb k k'); simpl; lia.
Qed.

Lemma assign_Forall (Q : A -> Prop) (k : string) (a : A) (o : list (string * A)) :
  Forall (fun kv => Q (snd kv)) o -> Q a ->
  Forall (fun kv => Q (snd kv)) (assign k a o).
Proof.
  intros Ho Ha. induction Ho as [|[k' a'] rest Hq Hrest IH]; simpl.
  - now constructor.
  - destruct (String.eqb k k'); constructor; auto.
Qed.

Lemma assoc_Forall (Q : A -> Prop) (k : string) (a : A) (o : list (string * A)) :
  Forall (fun kv => Q (snd kv)) o -> assoc k o = Some a -> Q a.
Proof.
  intros Ho. induction Ho as [|[k' a'] rest Hq Hrest IH]; simpl; [discriminate|].
  destruct (String.eqb k k'); [now intros [= <-] | exact IH].
Qed.

Lemma insert_index_perm (n : N) (a : A) (l : list (N * A)) :
  Permutation (insert_index n a l) ((n, a) :: l).
Proof.
  induction l as [|[m b] rest IH]; simpl; [reflexivity|].
  destruct (n <=? m)%N; [reflexivity|].
  rewrite IH. apply perm_swap.
Qed.

Lemma Object_values_perm (o : list (string * A)) :
  Permutation (Object_values o) (map snd o).
Proof.
  unfold Object_values, indexed_properties, named_properties.
  induction o as [|[k a] rest IH]; simpl; [reflexivity|].
  destruct (array_index k) as [n|]; simpl.
  - rewrite (Permutation_map snd (insert_index_perm n a _)). simpl.
    now constructor.
  - rewrite <- IH. symmetry. apply Permutation_middle.
Qed.

Lemma list_sum_perm (l l' : list nat) :
  Permutation l l' -> list_sum l = list_sum l'.
Proof. induction 1; simpl; lia. Qed.

Lemma Object_values_total (o : list (string * A)) :
  list_sum (map weight (Object_values o)) = total weight o.
Proof.
  unfold total. rewrite <- (map_map snd weight o).
  apply list_sum_perm, Permutation_map, Object_values_perm.
Qed.

Lemma Object_values_Forall (Q : A -> Prop) (o : list (string * A)) :
  Forall (fun kv => Q (snd kv)) o -> Forall Q (Object_values o).
Proof.
  intros H. apply (Permutation_Forall (Permutation_sym (Object_values_perm o))).
  now apply Forall_map.
Qed.

End Maps.

Lemma lookup_Own {A : Type} (k : string) (o : list (string * A)) (a : A) :
  lookup k o = Own a -> assoc k o = Some a.
Proof.
  unfold lookup. destruct (assoc k o); [now intros [= ->]|].
  destruct (Str.mem k Object_prototype); discriminate.
Qed.

Lemma lookup_Missing {A : Type} (k : string) (o : list (string * A)) :
  lookup k o = Missing -> assoc k o = None.
Proof.
  unfold lookup. destruct (assoc k o); [discriminate | reflexivity].
Qed.

(** ** Grouping by engine and rule *)

Lemma assign_total_step {A : Type} (weight : A -> nat) (k : string) (a : A)
    (o : list (string * A)) :
  weight a = S match assoc k o with Some old => weight old | None => 0 end ->
  total weight (assign k a o) = S (total weight o).
Proof. intros H. pose proof (assign_total weight k a o). lia. Qed.

Lemma groupViolation_counted (filterSeverity : value)
    (engines engines' : list (string * EngineObject.t))
    (violation : Violation.t) (n : nat) :
  groupViolation filterSeverity engines violation = Some engines' ->
  counted engines n ->
  counted engines' (n + if passes filterSeverity violation then 1 else 0).
Proof.
  unfold groupViolation, passes. intros H [Hall Hsum].
  destruct (filteredOut filterSeverity violation) as [[|]|]; [| |discriminate H];
    cbn [bind] in H.
  { injection H as <-. split; [exact Hall | lia]. }
  destruct (to_string (Violation.engine violation)) as [engineKey|];
    [|discriminate H].
  cbn [bind] in H.
  assert (Hengine :
    exists e, (match lookup engineKey engines with
               | Own e => Some e
               | Missing => Some (createEngineObject (Violation.engine violation) violation)
               | Inherited => None
               end) = Some e
      /\ countedEngine e
      /\ EngineObject.violationCount e
         = match assoc engineKey engines with
           | Some old => EngineObject.violationCount old
           | None => 0
           end).
  { destruct (lookup engineKey engines) as [e| |] eqn:He; [| discriminate H |].
    - apply lookup_Own in He. exists e. rewrite He.
      split; [reflexivity|]. split; [|reflexivity].
      exact (assoc_Forall _ _ _ _ Hall He).
    - apply lookup_Missing in He. rewrite He. eexists.
      split; [reflexivity|]. split; reflexivity. }
  destruct Hengine as [e [He [Hce Hcount]]]. rewrite He in H. cbn [bind] in H.
  destruct (to_string (Violation.rule violation)) as [ruleKey|];
    [|discriminate H].
  cbn [bind] in H.
  assert (Hrule :
    exists r, (match lookup ruleKey (EngineObject.rules e) with
               | Own r => Some r
               | Missing => Some (createRuleObject violation)
               | Inherited => None
               end) = Some r
      /\ ruleSize r
         = match assoc ruleKey (EngineObject.rules e) with
           | Some old => ruleSize old
           | None => 0
           end).
  { destruct (lookup ruleKey (EngineObject.rules e)) as [r| |] eqn:Hr;
      [| discriminate H |].
    - apply lookup_Own in Hr. exists r. rewrite Hr. now split.
    - apply lookup_Missing in Hr. rewrite Hr. eexists. split; reflexivity. }
  destruct Hrule as [r [Hr Hsize]]. rewrite Hr in H. cbn [bind] in H.
  injection H as <-.
  split.
  - apply assign_Forall; [exact Hall|]. unfold countedEngine in *.
    cbn [EngineObject.rules EngineObject.violationCount].
    rewrite assign_total_step; [now rewrite Hce|].
    rewrite <- Hsize. unfold ruleSize. cbn [RuleObject.violations].
    rewrite length_app. simpl. lia.
  - rewrite assign_total_step; [lia|].
    cbn [EngineObject.violationCount]. now rewrite Hcount.
Qed.

Lemma forEach_counted (filterSeverity : value) (violations : list Violation.t) :
  forall (engines engines' : list (string * EngineObject.t)) (n : nat),
    forEach (groupViolation filterSeverity) violations engines = Some engines' ->
    counted engines n ->
    counted engines'
      (n + List.length (filter (passes filterSeverity) violations)).
Proof.
  induction violations as [|v rest IH]; simpl; intros engines engines' n H Hc.
  - injection H as <-. now rewrite Nat.add_0_r.
  - destruct (groupViolation filterSeverity engines v) as [mid|] eqn:Hmid;
      [|discriminate H].
    cbn [bind] in H.
    pose proof (groupViolation_counted _ _ _ _ _ Hmid Hc) as Hc'.
    specialize (IH _ _ _ H Hc').
    destruct (passes filterSeverity v); simpl;
      [replace (n + S (List.length (filter (passes filterSeverity) rest)))
         with (n + 1 + List.length (filter (passes filterSeverity) rest)) by lia
      | rewrite Nat.add_0_r in IH]; exact IH.
Qed.

Lemma processViolationsByEngine_counted (violations : list Violation.t)
    (filterSeverity : value) (engines : list (string * EngineObject.t)) :
  processViolationsByEngine violations filterSeverity = Some engines ->
  counted engines (List.length (filter (passes filterSeverity) violations)).
Proof.
  unfold processViolationsByEngine. intros H.
  apply forEach_counted with (n := 0) in H; [|split; [constructor | reflexivity]].
  destruct filterSeverity; exact H.
Qed.

Lemma mapi_from_map {A B : Type} (f : nat -> A -> option B)
    (g : A -> nat) (h : B -> nat) (l : list A) :
  (forall j x y, f j x = Some y -> h y = g x) ->
  forall (i : nat) (l' : list B),
    mapi_from f i l = Some l' -> map h l' = map g l.
Proof.
  intros Hfg. induction l as [|x l IH]; simpl; intros i l' H.
  - now injection H as <-.
  - destruct (f i x) as [y|] eqn:Hy; [|discriminate H]. cbn [bind] in H.
    destruct (mapi_from f (S i) l) as [ys|] eqn:Hys; [|discriminate H].
    cbn [bind] in H. injection H as <-. simpl.
    now rewrite (Hfg _ _ _ Hy), (IH _ _ Hys).
Qed.

Lemma mapi_from_Forall {A B : Type} (f : nat -> A -> option B)
    (Q : A -> Prop) (R : B -> Prop) (l : list A) :
  (forall j x y, f j x = Some y -> Q x -> R y) ->
  forall (i : nat) (l' : list B),
    mapi_from f i l = Some l' -> Forall Q l -> Forall R l'.
Proof.
  intros Hfg. induction l as [|x l IH]; simpl; intros i l' H Hq.
  - injection H as <-. constructor.
  - destruct (f i x) as [y|] eqn:Hy; [|discriminate H]. cbn [bind] in H.
    destruct (mapi_from f (S i) l) as [ys|] eqn:Hys; [|discriminate H].
    cbn [bind] in H. injection H as <-. inversion Hq; subst.
    constructor; [now apply (Hfg _ _ _ Hy) | now apply (IH _ _ Hys)].
Qed.

Lemma spreadRule_count (r : RuleObject.t) (node : RuleNode.t) :
  spreadRule P r = Some node -> ruleCount node = ruleSize r.
Proof.
  unfold spreadRule. intros H.
  destruct (tagsString_of _); [|discriminate H]. cbn [bind] in H.
  destruct (severityLabel_of P _); [|discriminate H]. cbn [bind] in H.
  now injection H as <-.
Qed.

Lemma keyedRule_count (r : RuleObject.t) (node : RuleNode.t) :
  keyedRule P r = Some node -> ruleCount node = ruleSize r.
Proof.
  unfold keyedRule. intros H.
  destruct (to_string _); [|discriminate H]. cbn [bind] in H.
  destruct (tagsString_of _); [|discriminate H]. cbn [bind] in H.
  destruct (severityLabel_of P _); [|discriminate H]. cbn [bind] in H.
  now injection H as <-.
Qed.

Lemma toEngineNode_counts (includeKey : bool) (e : EngineObject.t)
    (node : EngineNode.t) :
  toEngineNode P includeKey e = Some node ->
  EngineNode.violationCount node = EngineObject.violationCount e
  /\ list_sum (map ruleCount (EngineNode.rules node))
     = total ruleSize (EngineObject.rules e).
Proof.
  unfold toEngineNode. intros H.
  destruct (index engineDescriptions _); [|discriminate H]. cbn [bind] in H.
  destruct (to_string _); [|discriminate H]. cbn [bind] in H.
  destruct (mapi_from (fun _ => spreadRule P) 0 _) as [rules|] eqn:Hrules;
    [|discriminate H].
  cbn [bind] in H.
  rewrite <- (Object_values_total ruleSize).
  destruct includeKey.
  - destruct (mapi_from (fun _ => keyedRule P) 0 _) as [keyed|] eqn:Hkeyed;
      [|discriminate H].
    cbn [bind] in H. injection H as <-. split; [reflexivity|].
    cbn [EngineNode.rules]. f_equal.
    eapply mapi_from_map; [|exact Hkeyed].
    intros j r y. apply keyedRule_count.
  - injection H as <-. split; [reflexivity|].
    cbn [EngineNode.rules]. f_equal.
    eapply mapi_from_map; [|exact Hrules].
    intros j r y. apply spreadRule_count.
Qed.

(** C9.  For every violation list and severity filter, in the array that
    the grouping produces ([processViolationsByEngine] followed by
    [transformEngineObjectsToArray], with or without keys) the violation
    counts of the rules of an engine add up to the [violationCount] of the
    engine, and the [violationCount]s of the engines add up to the number
    of violations the filter lets through. *)
Theorem grouping_counts (violations : list Violation.t)
    (filterSeverity : value) (includeKey : bool)
    (engines : list (string * EngineObject.t)) (nodes : list EngineNode.t) :
  processViolationsByEngine violations filterSeverity = Some engines ->
  transformEngineObjectsToArray P engines includeKey = Some nodes ->
  Forall
    (fun node =>
       list_sum (map ruleCount (EngineNode.rules node))
       = EngineNode.violationCount node)
    nodes
  /\ list_sum (map EngineNode.violationCount nodes)
     = List.length (filter (passes filterSeverity) violations).
Proof.
  intros Hgroup Hnodes.
  destruct (processViolationsByEngine_counted _ _ _ Hgroup) as [Hall Hsum].
  unfold transformEngineObjectsToArray in Hnodes. split.
  - eapply mapi_from_Forall; [|exact Hnodes|].
    + intros j e node Hnode He.
      destruct (toEngineNode_counts _ _ _ Hnode) as [-> ->]. exact He.
    + now apply Object_values_Forall.
  - rewrite <- Hsum, <- (Object_values_total EngineObject.violationCount).
    f_equal. eapply mapi_from_map; [|exact Hnodes].
    intros j e node Hnode. now destruct (toEngineNode_counts _ _ _ Hnode).
Qed.

(** A key that no member of [Object.prototype] bears reads the own
    property, or a fresh one. *)
Lemma lookup_or_create {A : Type} (Q : A -> Prop) (k : string)
    (o : list (string * A)) (fresh : A) :
  Str.mem k Object_prototype = false ->
  Forall (fun kv => Q (snd kv)) o -> Q fresh ->
  exists a,
    match lookup k o with
    | Own a => Some a
    | Missing => Some fresh
    | Inherited => None
    end = Some a
    /\ Q a.
Proof.
  intros Hk Ho Hfresh. unfold lookup. rewrite Hk.
  destruct (assoc k o) as [a|] eqn:Ha.
  - exists a. split; [reflexivity|]. exact (assoc_Forall Q k a o Ho Ha).
  - exists fresh. now split.
Qed.

Lemma filteredOut_defined (filterSeverity : value) (row : Violation.t) :
  coercible filterSeverity -> coercible (Violation.severity row) ->
  exists skip, filteredOut filterSeverity row = Some skip.
Proof.
  unfold coercible, filteredOut. intros Hf Hs.
  destruct (truthy filterSeverity); [|eauto].
  destruct (to_string (Violation.severity row)); [|contradiction].
  destruct (to_string filterSeverity); [|contradiction]. cbn [bind]. eauto.
Qed.

Lemma groupViolation_defined (filterSeverity : value)
    (engines : list (string * EngineObject.t)) (row : Violation.t) :
  coercible filterSeverity -> groupable row ->
  Forall (fun kv => shownEngine (snd kv)) engines ->
  exists engines',
    groupViolation filterSeverity engines row = Some engines'
    /\ Forall (fun kv => shownEngine (snd kv)) engines'.
Proof.
  intros Hf [[engineKey [He Hek]] [[ruleKey [Hr Hrk]] [Hsev Htags]]] Hall.
  unfold groupViolation.
  destruct (filteredOut_defined filterSeverity row Hf Hsev) as [skip ->].
  cbn [bind]. destruct skip; [eauto|].
  rewrite He. cbn [bind].
  destruct (lookup_or_create shownEngine engineKey engines
              (createEngineObject (Violation.engine row) row) Hek Hall)
    as [e [-> [Hce Hrules]]].
  { split; [|constructor]. unfold coercible. cbn. rewrite He. discriminate. }
  cbn [bind]. rewrite Hr. cbn [bind].
  destruct (lookup_or_create shownRule ruleKey (EngineObject.rules e)
              (createRuleObject row) Hrk Hrules)
    as [r [-> Hshown]].
  { unfold shownRule, coercible. cbn. rewrite Hr.
    repeat split; [discriminate | assumption | assumption]. }
  cbn [bind]. eexists. split; [reflexivity|].
  apply assign_Forall; [exact Hall|].
  split; [exact Hce|]. cbn [EngineObject.rules].
  apply assign_Forall; [exact Hrules | exact Hshown].
Qed.

Lemma forEach_defined (filterSeverity : value) (rows : list Violation.t) :
  coercible filterSeverity -> Forall groupable rows ->
  forall engines : list (string * EngineObject.t),
    Forall (fun kv => shownEngine (snd kv)) engines ->
    exists engines',
      forEach (groupViolation filterSeverity) rows engines = Some engines'
      /\ Forall (fun kv => shownEngine (snd kv)) engines'.
Proof.
  intros Hf Hrows. induction Hrows as [|row rows Hrow Hrest IH];
    intros engines Hall; simpl.
  - eauto.
  - destruct (groupViolation_defined filterSeverity engines row Hf Hrow Hall)
      as [mid [-> Hmid]].
    cbn [bind]. now apply IH.
Qed.

Lemma spreadRule_defined (r : RuleObject.t) :
  shownRule r -> spreadRule P r <> None.
Proof.
  intros [_ [Hsev Htags]]. unfold spreadRule.
  destruct (tagsString_of (RuleObject.tags r)); [|contradiction]. cbn [bind].
  destruct (severityLabel_of_total _ Hsev) as [label ->]. discriminate.
Qed.

Lemma keyedRule_defined (r : RuleObject.t) :
  shownRule r -> keyedRule P r <> None.
Proof.
  intros [Hrule [Hsev Htags]]. unfold keyedRule. unfold coercible in Hrule.
  destruct (to_string (RuleObject.rule r)); [|contradiction]. cbn [bind].
  destruct (tagsString_of (RuleObject.tags r)); [|contradiction]. cbn [bind].
  destruct (severityLabel_of_total _ Hsev) as [label ->]. discriminate.
Qed.

Lemma mapi_from_defined {A B : Type} (f : A -> option B) (Q : A -> Prop)
    (l : list A) :
  (forall x, Q x -> f x <> None) -> Forall Q l ->
  exists l', mapi_from (fun _ => f) 0 l = Some l'.
Proof.
  intros Hf Hl. apply mapi_from_total. intros j x Hx. apply Hf.
  rewrite Forall_forall in Hl. apply Hl. eapply nth_error_In. exact Hx.
Qed.

Lemma toEngineNode_defined (includeKey : bool) (e : EngineObject.t) :
  shownEngine e -> toEngineNode P includeKey e <> None.
Proof.
  intros [Hengine Hrules]. unfold toEngineNode, index.
  unfold coercible in Hengine.
  destruct (to_string (EngineObject.engine e)) as [k|]; [|contradiction].
  cbn [bind Get engineDescriptions].
  apply Object_values_Forall in Hrules.
  destruct (mapi_from_defined (spreadRule P) shownRule _ spreadRule_defined Hrules)
    as [rules ->].
  cbn [bind].
  destruct includeKey; [|discriminate].
  destruct (mapi_from_defined (keyedRule P) shownRule _ keyedRule_defined Hrules)
    as [keyed ->].
  discriminate.
Qed.

(** On groupable rows and with a coercible filter the grouping throws
    nowhere: the array is produced. *)
Lemma grouping_defined (rows : list Violation.t) (filterSeverity : value)
    (includeKey : bool) :
  coercible filterSeverity -> Forall groupable rows ->
  exists engines nodes,
    processViolationsByEngine rows filterSeverity = Some engines
    /\ transformEngineObjectsToArray P engines includeKey = Some nodes.
Proof.
  intros Hf Hrows. unfold processViolationsByEngine.
  destruct (forEach_defined
              match filterSeverity with
              | VUndefined => VNull
              | _ => filterSeverity
              end rows) with (engines := @nil (string * EngineObject.t))
    as [engines [Hengines Hall]];
    [destruct filterSeverity; (exact Hf || discriminate) | exact Hrows
    | constructor |].
  exists engines. unfold transformEngineObjectsToArray.
  apply Object_values_Forall in Hall.
  destruct (mapi_from_defined (toEngineNode P includeKey) shownEngine _
              (toEngineNode_defined includeKey) Hall) as [nodes Hnodes].
  exists nodes. now split.
Qed.

(** ** The commit-table actions *)

(** C3, on the code: with the template ["metadata/sites/<site-id>/settings"],
    the sites [A] and [B] and a directory override, the expansion yields
    two entries, but they are equal and still hold the placeholder: the
    override is substituted into the template, not into the entry of the
    site. *)
Theorem filteredMetadata_with_directory :
  filteredMetadata Example.propertiesWithDirectory
  = Some [ "cartridge/sites/<site-id>/settings";
           "cartridge/sites/<site-id>/settings" ].
Proof. reflexivity. Qed.

(** Without an override the two entries differ in the site segment only. *)
Lemma filteredMetadata_without_directory :
  filteredMetadata Example.properties
  = Some [ "metadata/sites/A/settings"; "metadata/sites/B/settings" ].
Proof. reflexivity. Qed.

(** C6.  When the changeset fetch fails, because the remote call rejects
    or because its result does not parse, [retrieveChanges] makes the one
    remote call, logs the exception, publishes nothing, and ends with
    [_isWorking] cleared. *)
Theorem retrieveChanges_fetch_failure (c : Actions.t) (changes : settled value) :
  changes = Rejected
  \/ (exists text, changes = Resolved (VStr text) /\ JSON_parse P text = None) ->
  let (c', events) := retrieveChanges P c changes in
  c' = Actions.set_isWorking false c
  /\ Actions._isWorking c' = false
  /\ events = [GetChangesFromUserStory (Actions.recordId c); LogException]
  /\ (forall payload, ~ In (Publish payload) events).
Proof.
  intros [-> | [text [-> Hparse]]]; unfold retrieveChanges, envLines;
    cbn [to_string bind]; rewrite ?Hparse; cbn [bind];
    (split; [destruct c; reflexivity |]);
    (split; [reflexivity |]);
    (split; [reflexivity |]);
    intros payload [H | [H | []]]; discriminate H.
Qed.

(** ** The order of strings *)

Lemma compare_Lt_trans (a b c : string) :
  String.compare a b = Lt -> String.compare b c = Lt -> String.compare a c = Lt.
Proof.
  revert b c. induction a as [|x a IH]; intros [|y b] [|z c]; simpl;
    try discriminate; try reflexivity.
  unfold Ascii.compare.
  destruct (N.compare_spec (N_of_ascii x) (N_of_ascii y)) as [Exy|Lxy|Gxy];
    try discriminate;
    destruct (N.compare_spec (N_of_ascii y) (N_of_ascii z)) as [Eyz|Lyz|Gyz];
    try discriminate; intros Hab Hbc.
  - rewrite Exy, Eyz, N.compare_refl. now apply (IH b).
  - rewrite Exy. now rewrite (proj2 (N.compare_lt_iff _ _) Lyz).
  - rewrite <- Eyz. now rewrite (proj2 (N.compare_lt_iff _ _) Lxy).
  - now rewrite (proj2 (N.compare_lt_iff _ _) (N.lt_trans _ _ _ Lxy Lyz)).
Qed.

Lemma compare_refl (a : string) : String.compare a a = Eq.
Proof.
  induction a as [|x a IH]; simpl; [reflexivity|].
  unfold Ascii.compare. now rewrite N.compare_refl.
Qed.

Lemma leb_trans (a b c : string) :
  String.leb a b = true -> String.leb b c = true -> String.leb a c = true.
Proof.
  unfold String.leb.
  destruct (String.compare a b) eqn:Hab; try discriminate;
    destruct (String.compare b c) eqn:Hbc; try discriminate; intros _ _.
  - apply String.compare_eq_iff in Hab, Hbc. subst. now rewrite compare_refl.
  - apply String.compare_eq_iff in Hab. subst. now rewrite Hbc.
  - apply String.compare_eq_iff in Hbc. subst. now rewrite Hab.
  - now rewrite (compare_Lt_trans _ _ _ Hab Hbc).
Qed.

Lemma ltb_leb (a b : string) : String.ltb a b = true -> String.leb a b = true.
Proof.
  unfold String.ltb, String.leb. destruct (String.compare a b); easy.
Qed.

Lemma ltb_false_leb (a b : string) :
  String.ltb a b = false -> String.leb b a = true.
Proof.
  unfold String.ltb, String.leb. rewrite (String.compare_antisym b a).
  destruct (String.compare a b); easy.
Qed.

(** ** The sort *)

Lemma byMemberName_strings (x y : CommitLine.t) (a b : string) :
  CommitLine.MemberName x = VStr a ->
  CommitLine.MemberName y = VStr b ->
  byMemberName P x y
  = Some (if String.ltb a b then (-1)%Z
          else if String.ltb b a then 1%Z else 0%Z).
Proof.
  intros Hx Hy. unfold byMemberName, less_than. rewrite Hx, Hy.
  cbn [ToPrimitive bind].
  destruct (String.ltb a b); [reflexivity|].
  destruct (String.ltb b a); reflexivity.
Qed.

Lemma nameLe_trans (x y z : CommitLine.t) : nameLe x y -> nameLe y z -> nameLe x z.
Proof.
  intros [a [b [Ha [Hb Hab]]]] [b' [c [Hb' [Hc Hbc]]]].
  rewrite Hb in Hb'. injection Hb' as <-.
  exists a, c. repeat split; try assumption. now apply (leb_trans a b c).
Qed.

Lemma insert_by_sorted (x : CommitLine.t) (sorted : list CommitLine.t) :
  named_line x -> Forall named_line sorted -> StronglySorted nameLe sorted ->
  exists placed,
    insert_by (byMemberName P) x sorted = Some placed
    /\ Permutation placed (x :: sorted)
    /\ StronglySorted nameLe placed.
Proof.
  intros [a Ha] Hnamed Hsorted.
  induction sorted as [|y rest IH]; simpl.
  - exists [x]. repeat split; [reflexivity | repeat constructor].
  - inversion Hnamed as [|? ? [b Hb] Hrest]; subst.
    inversion Hsorted as [|? ? Hsrest Hy]; subst.
    rewrite (byMemberName_strings x y a b Ha Hb). cbn [bind].
    destruct (String.ltb a b) eqn:Hlt.
    + change (-1 <? 0)%Z with true. cbv iota.
      exists (x :: y :: rest). repeat split; [reflexivity|].
      assert (Hxy : nameLe x y) by (exists a, b; auto using ltb_leb).
      constructor; [exact Hsorted|]. constructor; [exact Hxy|].
      eapply Forall_impl; [|exact Hy]. intros z Hz. now apply (nameLe_trans x y z).
    + assert (Hyx : nameLe y x) by (exists b, a; auto using ltb_false_leb).
      assert (Hnot : ((if String.ltb b a then 1 else 0) <? 0)%Z = false)
        by (destruct (String.ltb b a); reflexivity).
      rewrite Hnot.
      destruct (IH Hrest Hsrest) as [placed [-> [Hperm Hs]]]. cbn [bind].
      exists (y :: placed). repeat split.
      * rewrite Hperm. apply perm_swap.
      * constructor; [exact Hs|].
        apply (Permutation_Forall (Permutation_sym Hperm)).
        constructor; assumption.
Qed.

Lemma forEach_insert_sorted (l : list CommitLine.t) :
  forall acc : list CommitLine.t,
    Forall named_line l -> Forall named_line acc ->
    StronglySorted nameLe acc ->
    exists sorted,
      forEach (fun sorted x => insert_by (byMemberName P) x sorted) l acc
      = Some sorted
      /\ Permutation sorted (l ++ acc)
      /\ StronglySorted nameLe sorted.
Proof.
  induction l as [|x l IH]; intros acc Hl Hacc Hs; simpl.
  - exists acc. now repeat split.
  - inversion Hl as [|? ? Hx Hrest]; subst.
    destruct (insert_by_sorted x acc Hx Hacc Hs) as [placed [-> [Hperm Hsp]]].
    cbn [bind].
    destruct (IH placed Hrest) as [sorted [Hrun [Hp Hss]]].
    + apply (Permutation_Forall (Permutation_sym Hperm)). now constructor.
    + exact Hsp.
    + exists sorted. repeat split; [exact Hrun | | exact Hss].
      rewrite Hp, Hperm. symmetry. apply Permutation_middle.
Qed.

(** On lines whose member names are strings the comparator is consistent
    and never throws: the sort is the insertion. *)
Lemma byMemberName_consistent (a b c : CommitLine.t) :
  named_line a -> named_line b -> named_line c ->
  consistent_at (byMemberName P) a b c = true.
Proof.
  intros [sa Ha] [sb Hb] [sc Hc]. unfold consistent_at, answers_as.
  rewrite (byMemberName_strings a a sa sa Ha Ha),
    (byMemberName_strings a b sa sb Ha Hb),
    (byMemberName_strings b a sb sa Hb Ha),
    (byMemberName_strings b c sb sc Hb Hc),
    (byMemberName_strings a c sa sc Ha Hc).
  unfold String.ltb.
  rewrite (compare_refl sa), (String.compare_antisym sb sa),
    (String.compare_antisym sc sb), (String.compare_antisym sc sa).
  destruct (String.compare sa sb) eqn:Hab;
    destruct (String.compare sb sc) eqn:Hbc;
    destruct (String.compare sa sc) eqn:Hac; try reflexivity; exfalso;
    try (apply String.compare_eq_iff in Hab; subst; congruence);
    try (apply String.compare_eq_iff in Hbc; subst; congruence);
    try (rewrite (compare_Lt_trans _ _ _ Hab Hbc) in Hac; discriminate Hac).
  all: assert (Hca : String.compare sc sa = Lt)
    by (apply (compare_Lt_trans sc sb sa);
        [ rewrite String.compare_antisym, Hbc; reflexivity
        | rewrite String.compare_antisym, Hab; reflexivity ]).
  all: rewrite String.compare_antisym, Hac in Hca; discriminate Hca.
Qed.

Lemma answers_named (l : list CommitLine.t) :
  Forall named_line l -> exists table, answers (byMemberName P) l = Some table.
Proof.
  intros Hl. unfold answers.
  apply (mapi_from_defined _ named_line); [|exact Hl].
  intros x [a Ha] Hnone.
  destruct (mapi_from_defined (byMemberName P x) named_line l) as [row Hrow];
    [|exact Hl|].
  - intros y [b Hb]. now rewrite (byMemberName_strings x y a b Ha Hb).
  - discriminate (eq_trans (eq_sym Hrow) Hnone).
Qed.

Lemma Array_sort_named (l : list CommitLine.t) :
  Forall named_line l ->
  Array_sort P (byMemberName P) l
  = forEach (fun sorted x => insert_by (byMemberName P) x sorted) l [].
Proof.
  intros Hl. destruct l as [|x [|y rest]]; [reflexivity | reflexivity |].
  unfold Array_sort. destruct (answers_named _ Hl) as [table ->].
  cbn [bind].
  assert (Hc : consistent_comparator (byMemberName P) (x :: y :: rest) = true).
  { unfold consistent_comparator. rewrite Forall_forall in Hl.
    apply forallb_forall. intros a Ha. apply forallb_forall. intros b Hb.
    apply forallb_forall. intros c Hc.
    apply byMemberName_consistent; auto. }
  now rewrite Hc.
Qed.

Lemma Array_sort_sorted (l : list CommitLine.t) :
  Forall named_line l ->
  exists sorted,
    Array_sort P (byMemberName P) l = Some sorted
    /\ Permutation sorted l
    /\ StronglySorted nameLe sorted.
Proof.
  intros Hl. rewrite (Array_sort_named l Hl).
  destruct (forEach_insert_sorted l [] Hl) as [sorted [Hrun [Hp Hs]]];
    [constructor | constructor |].
  exists sorted. rewrite app_nil_r in Hp. now repeat split.
Qed.

(** ** The changeset *)

Lemma toEnvLine_total (items : list value) :
  Forall (fun e => exists name, field e "n" = Some (VStr name)) items ->
  exists envObj,
    mapi_from (fun _ => toEnvLine) 0 items = Some envObj
    /\ Forall named_line envObj
    /\ Forall2
         (fun e line =>
            field e "n" = Some (CommitLine.MemberName line)
            /\ field e "t" = Some (CommitLine.MemberType line)
            /\ field e "m" = Some (CommitLine.Directory line)
            /\ field e "c" = Some (CommitLine.Category line)
            /\ CommitLine.Operation line = VStr "Add")
         items envObj.
Proof.
  intros H. generalize 0 as i.
  induction H as [|e items [name Hn] Hitems IH]; intros i; simpl.
  - exists []. repeat split; constructor.
  - destruct (IH (S i)) as [envObj [-> [Hnamed Hrel]]].
    unfold toEnvLine at 1. rewrite Hn. cbn [bind].
    destruct (field_defined e "n" "t" _ Hn) as [t Ht].
    destruct (field_defined e "n" "m" _ Hn) as [m Hm].
    destruct (field_defined e "n" "c" _ Hn) as [c' Hc].
    rewrite Ht, Hm, Hc. cbn [bind]. eexists. split; [reflexivity|]. split.
    + constructor; [now exists name | exact Hnamed].
    + constructor; [|exact Hrel]. cbn. now repeat split.
Qed.

(** C5.  When the changeset parses to an array of records whose [n] is a
    string, [retrieveChanges] publishes one message of type
    ['retrievedChanges'] whose value is a permutation of the metadata
    lines (each with Category ['ccmetadata'], MemberType ['xml'] and
    Operation ['Add']) followed by the changeset lines (Category and the
    other members taken from the record), in ascending order of
    MemberName, and ends with [_isWorking] cleared. *)
Theorem retrieveChanges_publishes_sorted (c : Actions.t) (text : string)
    (items : list value) :
  JSON_parse P text = Some (VArr items) ->
  Forall (fun e => exists name, field e "n" = Some (VStr name)) items ->
  let allMetadataFound := map toMetadataLine (Actions._filtered c) in
  exists envObj sorted,
    retrieveChanges P c (Resolved (VStr text))
    = (Actions.set_isWorking false c,
       [ GetChangesFromUserStory (Actions.recordId c);
         LogFound allMetadataFound envObj;
         Publish {| Payload.type := "retrievedChanges";
                    Payload.value := sorted |} ])
    /\ Permutation sorted (allMetadataFound ++ envObj)
    /\ StronglySorted nameLe sorted
    /\ Forall
         (fun line =>
            CommitLine.Category line = VStr "ccmetadata"
            /\ CommitLine.MemberType line = VStr "xml"
            /\ CommitLine.Operation line = VStr "Add")
         allMetadataFound
    /\ Forall2
         (fun e line =>
            field e "n" = Some (CommitLine.MemberName line)
            /\ field e "t" = Some (CommitLine.MemberType line)
            /\ field e "m" = Some (CommitLine.Directory line)
            /\ field e "c" = Some (CommitLine.Category line)
            /\ CommitLine.Operation line = VStr "Add")
         items envObj.
Proof.
  intros Hparse Hitems allMetadataFound.
  destruct (toEnvLine_total items Hitems) as [envObj [Henv [Hnamed Hrel]]].
  destruct (Array_sort_sorted (allMetadataFound ++ envObj)) as [sorted [Hsort [Hperm Hs]]].
  { apply Forall_app. split; [|exact Hnamed].
    subst allMetadataFound. apply Forall_map, Forall_forall.
    intros file _. now exists file. }
  exists envObj, sorted. split; [|split; [exact Hperm | split; [exact Hs | split]]].
  - unfold retrieveChanges, envLines. cbn [to_string bind].
    rewrite Hparse. cbn [bind]. rewrite Henv.
    fold allMetadataFound. rewrite Hsort. destruct c; reflexivity.
  - subst allMetadataFound. apply Forall_map, Forall_forall.
    intros file _. now repeat split.
  - exact Hrel.
Qed.

End Properties.

(** ** The path shortening *)

Lemma append_assoc (a b c : string) : (a ++ b) ++ c = a ++ b ++ c.
Proof. induction a as [|x a IH]; simpl; [reflexivity | now rewrite IH]. Qed.

Lemma append_empty (a : string) : a ++ "" = a.
Proof. induction a as [|x a IH]; simpl; [reflexivity | now rewrite IH]. Qed.

Lemma prefix_drop (p s : string) :
  prefix p s = true -> s = p ++ Str.drop (String.length p) s.
Proof.
  revert s. induction p as [|c p IH]; intros s H; [reflexivity|].
  destruct s as [|d s]; [discriminate H|]. simpl in H.
  destruct (ascii_dec c d) as [->|]; [|discriminate H].
  simpl. f_equal. now apply IH.
Qed.

Lemma span_every (p : ascii -> bool) (s taken rest : string) :
  Str.span p s = (taken, rest) ->
  s = taken ++ rest /\ Str.every p taken = true
  /\ match rest with
     | EmptyString => True
     | String c _ => p c = false
     end.
Proof.
  revert taken rest. induction s as [|c s IH]; intros taken rest H; simpl in H.
  - injection H as <- <-. now repeat split.
  - destruct (p c) eqn:Hc.
    + destruct (Str.span p s) as [t r]. injection H as <- <-.
      destruct (IH t r eq_refl) as [-> [Ht Hr]]. simpl. rewrite Hc, Ht.
      now repeat split.
    + injection H as <- <-. simpl. now repeat split.
Qed.

Lemma every_span (p : ascii -> bool) (taken rest : string) :
  Str.every p taken = true ->
  match rest with
  | EmptyString => True
  | String c _ => p c = false
  end ->
  Str.span p (taken ++ rest) = (taken, rest).
Proof.
  induction taken as [|c taken IH]; simpl; intros Ht Hr.
  - destruct rest as [|d rest]; [reflexivity|]. simpl. now rewrite Hr.
  - apply andb_true_iff in Ht. destruct Ht as [Hc Ht]. rewrite Hc.
    now rewrite IH.
Qed.

Lemma prefix_app (p s : string) : prefix p (p ++ s) = true.
Proof.
  induction p as [|c p IH]; simpl; [now destruct s|].
  destruct (ascii_dec c c); [exact IH | contradiction].
Qed.

Lemma drop_app (p s : string) : Str.drop (String.length p) (p ++ s) = s.
Proof. induction p as [|c p IH]; simpl; [now destruct s | exact IH]. Qed.

Lemma MAIN_DEFAULT_PATTERN_here_match (metaType fileKey rest : string) :
  metaType <> "" -> Str.every (fun c => negb (is_slash c)) metaType = true ->
  fileKey <> "" -> Str.every (fun c => negb (is_line_terminator c)) fileKey = true ->
  endsLine rest ->
  MAIN_DEFAULT_PATTERN_here ("main/default/" ++ metaType ++ "/" ++ fileKey ++ rest)
  = Some (metaType, fileKey).
Proof.
  intros Hm Hms Hf Hfs Hrest. unfold MAIN_DEFAULT_PATTERN_here.
  rewrite (prefix_app "main/default/").
  change 13 with (String.length "main/default/"). rewrite drop_app.
  rewrite (every_span _ metaType ("/" ++ fileKey ++ rest) Hms) by reflexivity.
  destruct metaType as [|c m]; [contradiction|].
  change ("/" ++ fileKey ++ rest) with (String "/" (fileKey ++ rest)).
  cbv iota beta.
  rewrite (every_span _ fileKey rest Hfs).
  - destruct fileKey; [contradiction | reflexivity].
  - destruct rest as [|c' r]; [exact I|]. simpl in Hrest. now rewrite Hrest.
Qed.

Lemma MAIN_DEFAULT_PATTERN_here_marker (s : string) :
  prefix "main/default/" s = false -> MAIN_DEFAULT_PATTERN_here s = None.
Proof. unfold MAIN_DEFAULT_PATTERN_here. now intros ->. Qed.

Lemma cut_app (pat s before after : string) :
  Str.cut pat s = Some (before, after) -> s = before ++ pat ++ after.
Proof.
  revert before after. induction s as [|c s IH]; intros before after H.
  - cbn [Str.cut] in H. destruct (prefix pat "") eqn:E; [|discriminate H].
    injection H as <- <-. now apply prefix_drop in E.
  - cbn [Str.cut] in H. destruct (prefix pat (String c s)) eqn:E.
    + injection H as <- <-. now apply prefix_drop in E.
    + destruct (Str.cut pat s) as [[b a]|]; [|discriminate H].
      injection H as <- <-. simpl. f_equal. now apply IH.
Qed.

Lemma MAIN_DEFAULT_PATTERN_first (path : string) :
  match Str.cut "main/default/" path with
  | None => MAIN_DEFAULT_PATTERN path = None
  | Some (before, after) =>
      forall metaType fileKey rest,
        after = metaType ++ "/" ++ fileKey ++ rest ->
        metaType <> "" -> Str.every (fun c => negb (is_slash c)) metaType = true ->
        fileKey <> "" ->
        Str.every (fun c => negb (is_line_terminator c)) fileKey = true ->
        endsLine rest ->
        MAIN_DEFAULT_PATTERN path = Some (metaType, fileKey)
  end.
Proof.
  induction path as [|c path IH].
  - reflexivity.
  - cbn [Str.cut]. destruct (prefix "main/default/" (String c path)) eqn:E.
    + intros metaType fileKey rest Hafter Hm Hms Hf Hfs Hrest.
      apply prefix_drop in E. rewrite Hafter in E.
      pose proof (MAIN_DEFAULT_PATTERN_here_match metaType fileKey rest
                    Hm Hms Hf Hfs Hrest) as Hhere.
      rewrite <- E in Hhere.
      cbn [MAIN_DEFAULT_PATTERN]. now rewrite Hhere.
    + cbn [MAIN_DEFAULT_PATTERN].
      rewrite (MAIN_DEFAULT_PATTERN_here_marker _ E).
      destruct (Str.cut "main/default/" path) as [[before after]|]; [|exact IH].
      exact IH.
Qed.

Lemma MAIN_DEFAULT_PATTERN_here_sound (s metaType fileKey : string) :
  MAIN_DEFAULT_PATTERN_here s = Some (metaType, fileKey) ->
  exists rest,
    s = "main/default/" ++ metaType ++ "/" ++ fileKey ++ rest
    /\ metaType <> "" /\ Str.every (fun c => negb (is_slash c)) metaType = true
    /\ fileKey <> ""
    /\ Str.every (fun c => negb (is_line_terminator c)) fileKey = true
    /\ endsLine rest.
Proof.
  unfold MAIN_DEFAULT_PATTERN_here. intros H.
  destruct (prefix "main/default/" s) eqn:E; [|discriminate H].
  apply prefix_drop in E. change (String.length "main/default/") with 13 in E.
  destruct (Str.span _ (Str.drop 13 s)) as [m r] eqn:Hspan.
  apply span_every in Hspan. destruct Hspan as [Hs [Hm Hr]].
  destruct m as [|c m]; [discriminate H|].
  destruct r as [|d r]; [discriminate H|].
  destruct d as [[] [] [] [] [] [] [] []]; try discriminate H.
  destruct (Str.span _ r) as [f r'] eqn:Hspan2.
  apply span_every in Hspan2. destruct Hspan2 as [Hs2 [Hf Hr']].
  destruct f as [|e f]; [discriminate H|].
  injection H as <- <-. exists r'. rewrite E at 1. rewrite Hs, Hs2.
  repeat split; try assumption; try discriminate.
  destruct r' as [|x r']; [exact I|]. simpl.
  now apply negb_false_iff in Hr'.
Qed.

Lemma MAIN_DEFAULT_PATTERN_sound (s metaType fileKey : string) :
  MAIN_DEFAULT_PATTERN s = Some (metaType, fileKey) ->
  exists before rest,
    s = before ++ "main/default/" ++ metaType ++ "/" ++ fileKey ++ rest
    /\ metaType <> "" /\ Str.every (fun c => negb (is_slash c)) metaType = true
    /\ fileKey <> ""
    /\ Str.every (fun c => negb (is_line_terminator c)) fileKey = true
    /\ endsLine rest.
Proof.
  induction s as [|c s IH]; cbn [MAIN_DEFAULT_PATTERN].
  - discriminate.
  - destruct (MAIN_DEFAULT_PATTERN_here (String c s)) as [[m f]|] eqn:E.
    + intros [= <- <-]. apply MAIN_DEFAULT_PATTERN_here_sound in E.
      destruct E as [rest E]. now exists "", rest.
    + intros H. destruct (IH H) as [before [rest [-> Hrest]]].
      now exists (String c before), rest.
Qed.

Section Paths.

Variable P : Platform.

(** X1.  The path shortening at the first marker.  A non-empty path in
    which ['main/default/'] does not occur is returned as it is.  When it
    occurs, and what follows its first occurrence is a directory (not
    empty, without a slash), a slash and a file name (not empty, running
    to the end of the path or of its line), [extractFileAfterDefault]
    returns the directory, a slash and the file name. *)
Theorem extractFileAfterDefault_first_marker (path : string) :
  path <> "" ->
  match Str.cut "main/default/" path with
  | None => extractFileAfterDefault (VStr path) = Some path
  | Some (before, after) =>
      forall metaType fileKey rest,
        after = metaType ++ "/" ++ fileKey ++ rest ->
        metaType <> "" -> Str.every (fun c => negb (is_slash c)) metaType = true ->
        fileKey <> "" ->
        Str.every (fun c => negb (is_line_terminator c)) fileKey = true ->
        endsLine rest ->
        extractFileAfterDefault (VStr path) = Some (metaType ++ "/" ++ fileKey)
  end.
Proof.
  intros Hpath. pose proof (MAIN_DEFAULT_PATTERN_first path) as H.
  assert (Htruthy : truthy (VStr path) = true).
  { simpl. destruct path; [contradiction | reflexivity]. }
  unfold extractFileAfterDefault. rewrite Htruthy. cbn [negb].
  destruct (Str.cut "main/default/" path) as [[before after]|].
  - intros metaType fileKey rest Hafter Hm Hms Hf Hfs Hrest.
    now rewrite (H metaType fileKey rest Hafter Hm Hms Hf Hfs Hrest).
  - now rewrite H.
Qed.

(** X2.  On a string [extractFileAfterDefault] does not throw and never
    returns the empty string: for the empty path it returns
    ['Unknown File'], for any other the path itself or a part of it that
    follows an occurrence of ['main/default/'] and runs to the end of the
    path or of its line. *)
Theorem extractFileAfterDefault_part (path : string) :
  exists shown,
    extractFileAfterDefault (VStr path) = Some shown
    /\ shown <> ""
    /\ (path = "" -> shown = UNKNOWN_FILE)
    /\ (path <> "" ->
        shown = path
        \/ exists before rest,
             path = before ++ "main/default/" ++ shown ++ rest /\ endsLine rest).
Proof.
  unfold extractFileAfterDefault. destruct path as [|c path].
  - exists UNKNOWN_FILE. repeat split; [discriminate | contradiction].
  - cbn [truthy String.eqb negb].
    destruct (MAIN_DEFAULT_PATTERN (String c path)) as [[m f]|] eqn:E.
    + exists (m ++ "/" ++ f). split; [reflexivity|].
      apply MAIN_DEFAULT_PATTERN_sound in E.
      destruct E as [before [rest [E [Hm [_ [_ [_ Hrest]]]]]]].
      split; [destruct m; [contradiction | discriminate]|].
      split; [discriminate|]. intros _. right. exists before, rest.
      split; [|exact Hrest]. rewrite E.
      now rewrite !append_assoc.
    + exists (String c path). repeat split; try discriminate. intros _. now left.
Qed.

End Paths.

(** ** The metadata type and the file key of a row *)

Lemma split_nonempty (sep : ascii) (s : string) : Str.split sep s <> [].
Proof.
  destruct s as [|c s]; simpl; [discriminate|].
  destruct (Ascii.eqb c sep); [discriminate|].
  destruct (Str.split sep s); discriminate.
Qed.

Lemma concat_cons (sep part : string) (parts : list string) :
  parts <> [] ->
  String.concat sep (part :: parts) = part ++ sep ++ String.concat sep parts.
Proof. destruct parts; [contradiction | reflexivity]. Qed.

(** Joining the parts with the separator gives the string back. *)
Lemma concat_split (sep : ascii) (s : string) :
  String.concat (String sep "") (Str.split sep s) = s.
Proof.
  induction s as [|c s IH]; [reflexivity|]. cbn [Str.split].
  destruct (Ascii.eqb_spec c sep) as [->|Hne].
  - rewrite concat_cons by apply split_nonempty. now rewrite IH.
  - pose proof (split_nonempty sep s) as Hs.
    destruct (Str.split sep s) as [|part rest]; [contradiction|].
    destruct rest as [|next rest].
    + simpl in *. now rewrite IH.
    + rewrite concat_cons by discriminate.
      rewrite concat_cons in IH by discriminate.
      rewrite <- IH. reflexivity.
Qed.

(** The first part holds no separator; it is the whole string when the
    string holds none. *)
Lemma split_head (sep : ascii) (s : string) :
  match Str.split sep s with
  | [] => False
  | [part] =>
      part = s /\ Str.every (fun c => negb (Ascii.eqb c sep)) s = true
  | part :: _ :: _ =>
      Str.every (fun c => negb (Ascii.eqb c sep)) part = true
      /\ Str.every (fun c => negb (Ascii.eqb c sep)) s = false
  end.
Proof.
  induction s as [|c s IH]; cbn [Str.split Str.every].
  - now split.
  - destruct (Ascii.eqb c sep) eqn:E; cbn [negb andb].
    + pose proof (split_nonempty sep s) as Hs.
      destruct (Str.split sep s); [contradiction | now split].
    + destruct (Str.split sep s) as [|part [|next rest]]; [contradiction | |].
      * destruct IH as [-> Hs]. now split.
      * destruct IH as [Hp Hs]. cbn [Str.every]. rewrite E. now split.
Qed.

(** X3.  The metadata type and the file key under which
    [groupedByMetadataTypeArray] files a row are its (non-empty) [file]
    cut at the first slash: the type holds no slash and type, slash and
    file key give the file back.  A file without a slash is filed under
    the type ['Unknown'], with the whole file as key. *)
Theorem typeAndFile_splits (row : Violation.t) :
  Violation.file row <> "" ->
  let (metaType, fileKey) := typeAndFile row in
  if Str.every (fun c => negb (is_slash c)) (Violation.file row)
  then metaType = UNKNOWN_TYPE /\ fileKey = Violation.file row
  else
    Violation.file row = metaType ++ "/" ++ fileKey
    /\ Str.every (fun c => negb (is_slash c)) metaType = true.
Proof.
  intros Hfile. unfold typeAndFile.
  destruct (String.eqb_spec (Violation.file row) "") as [E|_]; [contradiction|].
  pose proof (split_head "/" (Violation.file row)) as Hhead.
  pose proof (concat_split "/" (Violation.file row)) as Hjoin.
  unfold is_slash.
  destruct (Str.split "/" (Violation.file row)) as [|metaType [|first others]];
    [contradiction | |].
  - destruct Hhead as [_ ->]. now split.
  - destruct Hhead as [Hp ->]. split; [|exact Hp].
    rewrite <- Hjoin at 1. now rewrite concat_cons by discriminate.
Qed.

(** A file of the shape type/file is filed under that type and that file
    key. *)
Lemma split_app (sep : ascii) (part rest : string) :
  Str.every (fun c => negb (Ascii.eqb c sep)) part = true ->
  Str.split sep (part ++ String sep rest) = part :: Str.split sep rest.
Proof.
  induction part as [|c part IH]; cbn [Str.every append Str.split]; intros H.
  - now rewrite Ascii.eqb_refl.
  - apply andb_true_iff in H. destruct H as [Hc Hp].
    apply negb_true_iff in Hc. rewrite Hc. now rewrite IH.
Qed.

Lemma typeAndFile_of (row : Violation.t) (metaType fileKey : string) :
  Violation.file row = metaType ++ "/" ++ fileKey ->
  Str.every (fun c => negb (is_slash c)) metaType = true ->
  typeAndFile row = (metaType, fileKey).
Proof.
  intros Hfile Hm. unfold typeAndFile. rewrite Hfile.
  destruct (String.eqb_spec (metaType ++ "/" ++ fileKey) "") as [E|_].
  - destruct metaType; discriminate E.
  - change ("/" ++ fileKey) with (String "/" fileKey).
    rewrite split_app by exact Hm.
    pose proof (split_nonempty "/" fileKey) as Hs.
    pose proof (concat_split "/" fileKey) as Hjoin.
    destruct (Str.split "/" fileKey) as [|first others]; [contradiction|].
    now rewrite Hjoin.
Qed.

(** ** The ids of the rows *)

Lemma every_app_sep (sep : ascii) (pre rest : string) :
  Str.every (fun d => negb (Ascii.eqb d sep)) (pre ++ String sep rest) = false.
Proof.
  induction pre as [|c pre IH]; cbn [append Str.every].
  - now rewrite Ascii.eqb_refl.
  - rewrite IH. apply andb_false_r.
Qed.

Lemma afterLast_app (sep : ascii) (pre n : string) :
  Str.every (fun d => negb (Ascii.eqb d sep)) n = true ->
  Str.afterLast sep (pre ++ String sep n) = n.
Proof.
  intros Hn. induction pre as [|c pre IH]; cbn [append Str.afterLast].
  - now rewrite Hn, Ascii.eqb_refl.
  - now rewrite every_app_sep.
Qed.

Lemma string_of_uint_digits (d : Decimal.uint) :
  Str.every (fun c => negb (Ascii.eqb c "-")) (NilEmpty.string_of_uint d) = true.
Proof. induction d; simpl; auto. Qed.

Lemma Number_toString_nat_digits (i : nat) :
  Str.every (fun c => negb (Ascii.eqb c "-")) (Number_toString (Z.of_nat i)) = true.
Proof.
  unfold Number_toString. destruct (Z.of_nat i) eqn:E; try lia.
  - reflexivity.
  - cbn [Z.to_int NilZero.string_of_int]. unfold NilZero.string_of_uint.
    destruct (Pos.to_uint p); try reflexivity; apply string_of_uint_digits.
Qed.

Lemma Number_toString_inj (n m : Z) :
  Number_toString n = Number_toString m -> n = m.
Proof.
  unfold Number_toString. intros H. apply DecimalZ.to_int_inj.
  assert (Hd : forall z, Z.to_int z <> Decimal.Pos Decimal.Nil
                         /\ Z.to_int z <> Decimal.Neg Decimal.Nil).
  { intros [|p|p]; simpl; split; try discriminate; intros [= E];
      now apply (DecimalPos.Unsigned.to_uint_nonnil p). }
  destruct (Hd n) as [Hn1 Hn2]. destruct (Hd m) as [Hm1 Hm2].
  pose proof (NilZero.isi _ Hn1 Hn2) as En.
  pose proof (NilZero.isi _ Hm1 Hm2) as Em.
  rewrite H in En. rewrite En in Em. now injection Em.
Qed.

Section Ids.

Variable P : Platform.

Lemma toViolation_id (idx : nat) (violation : value) (row : Violation.t) :
  toViolation P idx violation = Some row ->
  exists before,
    Violation.id row = before ++ String "-" (Number_toString (Z.of_nat idx)).
Proof.
  unfold toViolation. intros H.
  repeat match type of H with
         | bind ?m _ = Some _ =>
             let E := fresh "E" in
             destruct m eqn:E; [cbn [bind] in H | discriminate H]
         end.
  injection H as <-. cbn [Violation.id append].
  match goal with
  | |- exists before, ?a ++ String _ (?b ++ String _ (?c ++ _)) = _ =>
      exists (a ++ String "-" (b ++ String "-" c))
  end.
  rewrite append_assoc. cbn [append]. rewrite append_assoc. reflexivity.
Qed.

(** X4.  The ids of the rows that [transformJson] returns for one payload
    are pairwise distinct. *)
Theorem transformJson_ids (parsedJson : value) (rows : list Violation.t) :
  transformJson P parsedJson = Some rows -> NoDup (map Violation.id rows).
Proof.
  unfold transformJson. intros H.
  destruct (field parsedJson "violations") as [violations|]; [|discriminate H].
  cbn [bind] in H.
  assert (Hrows : exists items, mapi_from (toViolation P) 0 items = Some rows).
  { destruct violations; try (injection H as <-; now exists []). now exists items. }
  clear H. destruct Hrows as [items Hrows].
  destruct (mapi_from_nth _ _ _ _ Hrows) as [Hlen Hnth].
  assert (Hid : forall i row,
             nth_error rows i = Some row ->
             Str.afterLast "-" (Violation.id row) = Number_toString (Z.of_nat i)).
  { intros i row Hi.
    assert (Hlt : i < List.length items).
    { rewrite <- Hlen. apply nth_error_Some. now rewrite Hi. }
    destruct (nth_error items i) as [violation|] eqn:Hv;
      [|apply nth_error_None in Hv; lia].
    destruct (Hnth i violation Hv) as [row' [Hrow' Hto]].
    rewrite Hi in Hrow'. injection Hrow' as <-. simpl in Hto.
    destruct (toViolation_id _ _ _ Hto) as [before ->].
    apply afterLast_app, Number_toString_nat_digits. }
  apply (NoDup_nth_error (map Violation.id rows)).
  intros i j Hi Heq. rewrite length_map in Hi.
  rewrite !nth_error_map in Heq.
  destruct (nth_error rows i) as [ri|] eqn:Hri;
    [|apply nth_error_None in Hri; lia].
  destruct (nth_error rows j) as [rj|] eqn:Hrj; [|discriminate Heq].
  injection Heq as Heq.
  pose proof (Hid i ri Hri) as Ei. pose proof (Hid j rj Hrj) as Ej.
  rewrite Heq, Ej in Ei. apply Number_toString_inj in Ei. lia.
Qed.

End Ids.

Section Composition.

Variable P : Platform.

Lemma toViolation_file (idx : nat) (violation : value) (row : Violation.t) :
  toViolation P idx violation = Some row ->
  exists loc fullFilePath,
    primaryLocation violation = Some loc
    /\ slot_field loc "file" = Some fullFilePath
    /\ extractFileAfterDefault fullFilePath = Some (Violation.file row).
Proof.
  unfold toViolation. intros H.
  repeat match type of H with
         | bind ?m _ = Some _ =>
             let E := fresh "E" in
             destruct m eqn:E; [cbn [bind] in H | discriminate H]
         end.
  injection H as <-. cbn [Violation.file]. eauto.
Qed.

(** X5.  The path shortening and the grouping by type agree.  When the
    file of the primary location of a raw record has, after its first
    ['main/default/'], a directory, a slash and a file name, the row made
    of the record shows directory/file name as its [file], and
    [groupedByMetadataTypeArray] files it under the directory as metadata
    type and the file name as file key. *)
Theorem toViolation_typeAndFile (idx : nat) (violation : value)
    (row : Violation.t) (loc : slot)
    (path before metaType fileKey rest : string) :
  toViolation P idx violation = Some row ->
  primaryLocation violation = Some loc ->
  slot_field loc "file" = Some (VStr path) ->
  Str.cut "main/default/" path
  = Some (before, metaType ++ "/" ++ fileKey ++ rest) ->
  metaType <> "" -> Str.every (fun c => negb (is_slash c)) metaType = true ->
  fileKey <> "" ->
  Str.every (fun c => negb (is_line_terminator c)) fileKey = true ->
  endsLine rest ->
  Violation.file row = metaType ++ "/" ++ fileKey
  /\ typeAndFile row = (metaType, fileKey).
Proof.
  intros Hrow Hloc Hfile Hcut Hm Hms Hf Hfs Hrest.
  destruct (toViolation_file idx violation row Hrow)
    as [loc' [full [Hloc' [Hfile' Hshown]]]].
  rewrite Hloc in Hloc'. injection Hloc' as <-.
  rewrite Hfile in Hfile'. injection Hfile' as <-.
  pose proof (MAIN_DEFAULT_PATTERN_first path) as Hfirst.
  rewrite Hcut in Hfirst.
  specialize (Hfirst metaType fileKey rest eq_refl Hm Hms Hf Hfs Hrest).
  assert (Hpath : path <> "").
  { intros ->. discriminate Hfirst. }
  unfold extractFileAfterDefault in Hshown.
  assert (Htruthy : truthy (VStr path) = true).
  { simpl. destruct path; [contradiction | reflexivity]. }
  rewrite Htruthy, Hfirst in Hshown. cbn [negb] in Hshown.
  injection Hshown as Hshown. split; [now symmetry|].
  apply typeAndFile_of; [now symmetry | exact Hms].
Qed.

End Composition.

(** ** The states of the component *)

Section States.

Variable P : Platform.

Lemma getFormattedData_shape (c : Component.t) (s : string) :
  (fst (getFormattedData P c s) = c
   \/ exists counts,
        fst (getFormattedData P c s) = Component.set_violationCounts counts c)
  /\ (snd (getFormattedData P c s) = plainText s
      \/ (exists row rows,
            snd (getFormattedData P c s)
            = {| Formatted.formattedJson := Rows (row :: rows);
                 Formatted.type := "Table" |})
      \/ snd (getFormattedData P c s)
         = {| Formatted.formattedJson := Rows []; Formatted.type := "YAML" |}).
Proof.
  unfold getFormattedData.
  destruct (JSON_parse P s) as [parsed|]; [|split; now left].
  destruct (field parsed "violationCounts") as [counts|]; [|split; now left].
  destruct (transformJson P parsed) as [[|row rows]|]; cbn [fst snd].
  - split; [right; eauto | right; now right].
  - split; [right; eauto | right; left; eauto].
  - split; [right; eauto | now left].
Qed.

Lemma wiredVersion_consistent (c : Component.t) (s : string) :
  consistent c -> consistent (wiredVersion P c s).
Proof.
  intros Hc. unfold wiredVersion.
  destruct (getFormattedData_shape c s) as [Hfst Hsnd].
  destruct (getFormattedData P c s) as [c' result]. cbn [fst snd] in *.
  assert (Hc' : consistent c').
  { destruct Hfst as [-> | [counts ->]]; assumption. }
  destruct Hsnd as [-> | [[row [rows ->]] | ->]]; cbn [Formatted.formattedJson plainText].
  - destruct s as [|a s]; [exact Hc'|].
    split; cbn; [reflexivity|]. repeat split. discriminate.
  - split; cbn; [reflexivity|]. repeat split. discriminate.
  - exact Hc'.
Qed.

Lemma handleSearch_loadedPart (c : Component.t) (value : string) :
  loadedPart (fst (handleSearch c value)) = loadedPart c.
Proof.
  unfold handleSearch.
  destruct (String.eqb _ ""); [reflexivity|].
  unfold _applySearch. cbn [Component.set_searchValue Component.formattedJson].
  destruct (Component.formattedJson c) as [[rows|text]|]; try reflexivity.
  destruct (filter_throw _ rows); reflexivity.
Qed.

Lemma consistent_loadedPart (c c' : Component.t) :
  loadedPart c' = loadedPart c -> consistent c -> consistent c'.
Proof.
  unfold loadedPart, consistent. intros [= -> -> _ -> ->] H. exact H.
Qed.

(** X6.  In every state the component reaches from its initial state, by
    documents that arrive, searches, severity clicks and cleared filters,
    it shows nothing (no type, the table hidden), or a non-empty array of
    rows with type ['Table'], or a non-empty text with type ['String'];
    [relevantFormattedJson] equals [formattedJson].  The type is never
    ['YAML']: [isYAML] is false in all these states. *)
Theorem reachable_consistent (c : Component.t) :
  reachable P c -> consistent c /\ isYAML c = false.
Proof.
  intros H.
  assert (Hc : consistent c).
  { induction H as [|c s _ IH|c v _ IH|c sev _ IH|c _ IH].
    - split; [reflexivity | now split].
    - now apply wiredVersion_consistent.
    - exact (consistent_loadedPart c _ (handleSearch_loadedPart c v) IH).
    - exact IH.
    - exact IH. }
  split; [exact Hc|]. destruct Hc as [_ Hc]. unfold isYAML, shownAs.
  destruct (Component.formattedJson c) as [[rows|s]|].
  - destruct Hc as [_ [-> _]]. reflexivity.
  - destruct Hc as [_ [-> _]]. reflexivity.
  - destruct Hc as [-> _]. reflexivity.
Qed.

(** X7.  A document that parses to a value whose [violations] is not a
    non-empty array (an empty report) replaces [violationCounts] and
    nothing else: the rows, the type and the table shown before stay. *)
Theorem wiredVersion_no_violations (c : Component.t) (s : string)
    (parsed violations counts : value) :
  JSON_parse P s = Some parsed ->
  field parsed "violationCounts" = Some counts ->
  field parsed "violations" = Some violations ->
  match violations with
  | VArr (_ :: _) => False
  | _ => True
  end ->
  wiredVersion P c s
  = Component.set_violationCounts (if truthy counts then counts else VNull) c.
Proof.
  intros Hparse Hcounts Hviolations Hnone.
  unfold wiredVersion, getFormattedData, transformJson.
  rewrite Hparse, Hcounts, Hviolations. cbn [bind].
  destruct violations as [ | | | | | [|first others] | ];
    try reflexivity; contradiction.
Qed.

(** *** The filters *)

Lemma interact_loadedPart (c : Component.t) (e : interaction) :
  loadedPart (interact c e) = loadedPart c.
Proof.
  destruct e as [value|severity|]; cbn [interact];
    [apply handleSearch_loadedPart | reflexivity | reflexivity].
Qed.

Lemma handleClearFilters_loadedPart (c c' : Component.t) :
  loadedPart c' = loadedPart c -> handleClearFilters c' = handleClearFilters c.
Proof.
  unfold loadedPart, handleClearFilters. intros [= E1 E2 E3 E4 E5].
  destruct c, c'. cbn in *. subst. reflexivity.
Qed.

(** X8.  Whatever the user did to the filters (searches, severity clicks,
    clearings, in any number and order), [handleClearFilters] then gives
    the state it would have given at once: no filter is active, the rows
    at work are the rows loaded, and the search value is empty. *)
Theorem handleClearFilters_after (c : Component.t) (events : list interaction) :
  let cleared := handleClearFilters (fold_left interact events c) in
  cleared = handleClearFilters c
  /\ hasActiveFilters cleared = false
  /\ Component.data cleared = Component.formattedJson c
  /\ Component.searchValue cleared = "".
Proof.
  assert (H : loadedPart (fold_left interact events c) = loadedPart c).
  { revert c. induction events as [|e events IH]; intros c; [reflexivity|].
    cbn [fold_left]. rewrite IH. apply interact_loadedPart. }
  cbv zeta. rewrite (handleClearFilters_loadedPart _ _ H).
  repeat split.
Qed.

(** X9.  The search and the severity click commute: a search after a click
    ends as the search alone does, and in the state of the click after
    the search. *)
Theorem handleSearch_handleSeverityClick (c : Component.t) (value : string)
    (severity : option string) :
  handleSearch (handleSeverityClick c severity) value
  = (handleSeverityClick (fst (handleSearch c value)) severity,
     snd (handleSearch c value)).
Proof.
  unfold handleSearch, handleSeverityClick.
  destruct (String.eqb _ ""); [reflexivity|].
  unfold _applySearch.
  cbn [Component.set_searchValue Component.set_selectedSeverity
       Component.formattedJson].
  destruct (Component.formattedJson c) as [[rows|text]|]; try reflexivity.
  destruct (filter_throw _ rows); reflexivity.
Qed.

(** X10.  A search does not build on the search before it: it throws or
    returns as it would without that search, and when it returns, the
    state is the one it would have given without that search. *)
Theorem handleSearch_again (c : Component.t) (first second : string) :
  snd (handleSearch (fst (handleSearch c first)) second)
  = snd (handleSearch c second)
  /\ (snd (handleSearch c second) = Returned ->
      fst (handleSearch (fst (handleSearch c first)) second)
      = fst (handleSearch c second)).
Proof.
  assert (H : forall c' : Component.t,
             loadedPart c' = loadedPart c ->
             Component.selectedSeverity c' = Component.selectedSeverity c ->
             snd (handleSearch c' second) = snd (handleSearch c second)
             /\ (snd (handleSearch c second) = Returned ->
                 fst (handleSearch c' second) = fst (handleSearch c second))).
  { intros c' Hl Hs. unfold loadedPart in Hl. injection Hl as E1 E2 E3 E4 E5.
    destruct c, c'. cbn in E1, E2, E3, E4, E5, Hs. subst.
    unfold handleSearch.
    destruct (String.eqb _ ""); [split; reflexivity|].
    unfold _applySearch.
    cbn [Component.set_searchValue Component.formattedJson].
    destruct formattedJson as [[rows|text]|];
      try (split; [reflexivity | discriminate]).
    destruct (filter_throw _ rows); split; try reflexivity; discriminate. }
  apply H; [apply handleSearch_loadedPart|].
  unfold handleSearch. destruct (String.eqb _ ""); [reflexivity|].
  unfold _applySearch. cbn [Component.set_searchValue Component.formattedJson].
  destruct (Component.formattedJson c) as [[rows|text]|]; try reflexivity.
  destruct (filter_throw _ rows); reflexivity.
Qed.

End States.

(** ** Every violation is listed once *)

Section MoreMaps.
Context {A : Type}.

Lemma assoc_assign_same (k : string) (a : A) (o : list (string * A)) :
  assoc k (assign k a o) = Some a.
Proof.
  induction o as [|[k' a'] rest IH]; simpl.
  - now rewrite String.eqb_refl.
  - destruct (String.eqb k k') eqn:E; simpl; [now rewrite String.eqb_refl|].
    now rewrite E.
Qed.

Lemma assoc_assign_other (k k' : string) (a : A) (o : list (string * A)) :
  k' <> k -> assoc k' (assign k a o) = assoc k' o.
Proof.
  intros Hne. induction o as [|[k0 a0] rest IH]; simpl.
  - now rewrite (proj2 (String.eqb_neq k' k)).
  - destruct (String.eqb_spec k k0) as [->|Hk]; simpl.
    + now rewrite (proj2 (String.eqb_neq k' k0)).
    + now rewrite IH.
Qed.

Lemma assign_keys (k : string) (a : A) (o : list (string * A)) :
  map fst (assign k a o)
  = if has_key k o then map fst o else (map fst o ++ [k])%list.
Proof.
  unfold has_key. induction o as [|[k' a'] rest IH]; simpl; [reflexivity|].
  destruct (String.eqb_spec k k') as [->|Hk]; simpl; [reflexivity|].
  rewrite IH. now destruct (assoc k rest).
Qed.

Lemma assoc_None_keys (k : string) (o : list (string * A)) :
  assoc k o = None -> ~ In k (map fst o).
Proof.
  induction o as [|[k' a'] rest IH]; simpl; [tauto|].
  destruct (String.eqb_spec k k') as [->|Hk]; [discriminate|].
  intros H [E|Hin]; [now symmetry in E | now apply IH].
Qed.

Lemma assign_NoDup (k : string) (a : A) (o : list (string * A)) :
  NoDup (map fst o) -> NoDup (map fst (assign k a o)).
Proof.
  intros H. rewrite assign_keys. unfold has_key.
  destruct (assoc k o) eqn:E; [exact H|].
  apply NoDup_app; [exact H | repeat constructor; simpl; tauto |].
  intros x Hx [<-|[]]. now apply (assoc_None_keys _ _ E).
Qed.

Lemma In_assoc (k : string) (a : A) (o : list (string * A)) :
  NoDup (map fst o) -> In (k, a) o -> assoc k o = Some a.
Proof.
  induction o as [|[k' a'] rest IH]; simpl; [tauto|].
  intros Hnd [E|Hin].
  - injection E as -> ->. now rewrite String.eqb_refl.
  - inversion Hnd as [|? ? Hnot Hrest]; subst.
    destruct (String.eqb_spec k k') as [->|Hk]; [|now apply IH].
    exfalso. apply Hnot. now apply (in_map fst) in Hin.
Qed.

Lemma Object_values_In (a : A) (o : list (string * A)) :
  NoDup (map fst o) ->
  (In a (Object_values o) <-> exists k, assoc k o = Some a).
Proof.
  intros Hnd. split.
  - intros H.
    apply (Permutation_in _ (Object_values_perm o)) in H.
    apply in_map_iff in H. destruct H as [[k a'] [<- Hin]].
    exists k. now apply In_assoc.
  - intros [k Hk]. apply assoc_In in Hk.
    apply (Permutation_in _ (Permutation_sym (Object_values_perm o))).
    now apply (in_map snd) in Hk.
Qed.

End MoreMaps.

Lemma mapi_from_maps {A B C : Type} (f : nat -> A -> option B)
    (g : A -> C) (h : B -> C) (l : list A) :
  (forall j x y, f j x = Some y -> h y = g x) ->
  forall (i : nat) (l' : list B),
    mapi_from f i l = Some l' -> map h l' = map g l.
Proof.
  intros Hfg. induction l as [|x l IH]; simpl; intros i l' H.
  - now injection H as <-.
  - destruct (f i x) as [y|] eqn:Hy; [|discriminate H]. cbn [bind] in H.
    destruct (mapi_from f (S i) l) as [ys|] eqn:Hys; [|discriminate H].
    cbn [bind] in H. injection H as <-. simpl.
    now rewrite (Hfg _ _ _ Hy), (IH _ _ Hys).
Qed.

Lemma mapi_from_In {A B : Type} (f : nat -> A -> option B) (l : list A) :
  forall (i : nat) (l' : list B),
    mapi_from f i l = Some l' ->
    (forall x, In x l -> exists j y, f j x = Some y /\ In y l')
    /\ (forall y, In y l' -> exists j x, f j x = Some y /\ In x l).
Proof.
  induction l as [|a l IH]; simpl; intros i l' H.
  - injection H as <-. split; intros ? [].
  - destruct (f i a) as [b|] eqn:Hb; [|discriminate H]. cbn [bind] in H.
    destruct (mapi_from f (S i) l) as [ys|] eqn:Hys; [|discriminate H].
    cbn [bind] in H. injection H as <-.
    destruct (IH _ _ Hys) as [Hto Hfrom]. split.
    + intros x [<-|Hx]; [exists i, b; simpl; auto|].
      destruct (Hto x Hx) as [j [y [Hy Hin]]]. exists j, y. simpl. auto.
    + intros y [<-|Hy]; [exists i, a; auto|].
      destruct (Hfrom y Hy) as [j [x [Hx Hin]]]. exists j, x. auto.
Qed.

Lemma filter_app_one {A : Type} (p : A -> bool) (l : list A) (x : A) :
  filter p (l ++ [x]) = (filter p l ++ if p x then [x] else [])%list.
Proof. rewrite filter_app. simpl. now destruct (p x). Qed.

Lemma forEach_app {A S : Type} (f : S -> A -> option S) (Inv : S -> list A -> Prop) :
  (forall s s' x done, f s x = Some s' -> Inv s done -> Inv s' (done ++ [x])%list) ->
  forall (l done : list A) (s s' : S),
    forEach f l s = Some s' -> Inv s done -> Inv s' (done ++ l)%list.
Proof.
  intros Hstep. induction l as [|x l IH]; simpl; intros done s s' H Hs.
  - injection H as <-. now rewrite app_nil_r.
  - destruct (f s x) as [mid|] eqn:Hmid; [|discriminate H]. cbn [bind] in H.
    replace (done ++ x :: l)%list with ((done ++ [x]) ++ l)%list
      by now rewrite <- app_assoc.
    eapply IH; [exact H|]. eapply Hstep; eassumption.
Qed.

Lemma groupViolation_filed (filterSeverity : value)
    (engines engines' : list (string * EngineObject.t))
    (violation : Violation.t) (done : list Violation.t) :
  groupViolation filterSeverity engines violation = Some engines' ->
  filed filterSeverity engines done ->
  filed filterSeverity engines' (done ++ [violation]).
Proof.
  unfold groupViolation. intros H [Hnd [Hkeys [Hlisted Hdone]]].
  destruct (filteredOut filterSeverity violation) as [[|]|] eqn:Hskip;
    [| |discriminate H]; cbn [bind] in H.
  { injection H as <-. split; [exact Hnd|]. split; [exact Hkeys|]. split.
    - intros ke kr. rewrite filter_app_one. unfold passes at 2. rewrite Hskip.
      cbn [andb]. rewrite app_nil_r. apply Hlisted.
    - intros v Hv Hp. apply in_app_or in Hv. destruct Hv as [Hv|[<-|[]]].
      + now apply Hdone.
      + unfold passes in Hp. rewrite Hskip in Hp. discriminate Hp. }
  assert (Hpass : passes filterSeverity violation = true)
    by (unfold passes; now rewrite Hskip).
  destruct (to_string (Violation.engine violation)) as [engineKey|] eqn:Hek;
    [|discriminate H].
  cbn [bind] in H.
  destruct (to_string (Violation.rule violation)) as [ruleKey|] eqn:Hrk.
  2:{ destruct (lookup engineKey engines); discriminate H. }
  assert (Hunder : forall ke kr,
             filedUnder ke kr violation
             = String.eqb engineKey ke && String.eqb ruleKey kr).
  { intros ke kr. unfold filedUnder. now rewrite Hek, Hrk. }
  (* the engine object *)
  assert (Hengine :
    exists e,
      (match lookup engineKey engines with
       | Own e => Some e
       | Missing => Some (createEngineObject (Violation.engine violation) violation)
       | Inherited => None
       end) = Some e
      /\ to_string (EngineObject.engine e) = Some engineKey
      /\ NoDup (map fst (EngineObject.rules e))
      /\ (forall kr r,
             assoc kr (EngineObject.rules e) = Some r ->
             to_string (RuleObject.rule r) = Some kr)
      /\ forall kr,
           match assoc kr (EngineObject.rules e) with
           | Some r => RuleObject.violations r
           | None => []
           end = listedUnder engines engineKey kr).
  { unfold listedUnder.
    destruct (lookup engineKey engines) as [e| |] eqn:He; [| discriminate H |].
    - apply lookup_Own in He. exists e. rewrite He.
      destruct (Hkeys _ _ He) as [H1 [H2 H3]]. repeat split; assumption.
    - apply lookup_Missing in He. rewrite He. eexists.
      split; [reflexivity|]. cbn. repeat split; try assumption.
      + constructor.
      + discriminate. }
  destruct Hengine as [e [He [Hename [Hernd [Hrkeys Hrl]]]]].
  rewrite He in H. cbn [bind] in H.
  assert (Hrule :
    exists r,
      (match lookup ruleKey (EngineObject.rules e) with
       | Own r => Some r
       | Missing => Some (createRuleObject violation)
       | Inherited => None
       end) = Some r
      /\ to_string (RuleObject.rule r) = Some ruleKey
      /\ RuleObject.violations r = listedUnder engines engineKey ruleKey).
  { destruct (lookup ruleKey (EngineObject.rules e)) as [r| |] eqn:Hr;
      [| discriminate H |].
    - apply lookup_Own in Hr. exists r. split; [reflexivity|].
      split; [now apply Hrkeys|]. rewrite <- Hrl. now rewrite Hr.
    - apply lookup_Missing in Hr. eexists. split; [reflexivity|].
      split; [exact Hrk|]. rewrite <- Hrl. now rewrite Hr. }
  destruct Hrule as [r [Hr [Hrname Hrv]]]. rewrite Hr in H. cbn [bind] in H.
  injection H as <-.
  split; [now apply assign_NoDup|]. split.
  - intros ke e' Hke.
    destruct (String.eqb_spec ke engineKey) as [->|Hne].
    + rewrite assoc_assign_same in Hke. injection Hke as <-.
      cbn [EngineObject.engine EngineObject.rules].
      split; [exact Hename|]. split; [now apply assign_NoDup|].
      intros kr r' Hkr.
      destruct (String.eqb_spec kr ruleKey) as [->|Hnr].
      * rewrite assoc_assign_same in Hkr. injection Hkr as <-. exact Hrname.
      * rewrite assoc_assign_other in Hkr by exact Hnr. now apply Hrkeys.
    + rewrite assoc_assign_other in Hke by exact Hne. now apply Hkeys.
  - split.
    2:{ intros v Hv Hp. apply in_app_or in Hv. destruct Hv as [Hv|[<-|[]]].
        - now apply Hdone.
        - exists engineKey, ruleKey. rewrite Hunder.
          now rewrite !String.eqb_refl. }
    intros ke kr. rewrite filter_app_one, Hpass, Hunder. cbn [andb].
    unfold listedUnder at 1.
    destruct (String.eqb_spec engineKey ke) as [<-|Hne].
    + rewrite assoc_assign_same. cbn [EngineObject.rules andb].
      destruct (String.eqb_spec ruleKey kr) as [<-|Hnr].
      * rewrite assoc_assign_same. cbn [RuleObject.violations].
        now rewrite Hrv, Hlisted.
      * rewrite assoc_assign_other by (intros E; now symmetry in E).
        rewrite Hrl, app_nil_r. apply Hlisted.
    + rewrite assoc_assign_other by (intros E; now symmetry in E).
      cbn [andb]. rewrite app_nil_r. apply Hlisted.
Qed.

Lemma processViolationsByEngine_filed (violations : list Violation.t)
    (filterSeverity : value) (engines : list (string * EngineObject.t)) :
  processViolationsByEngine violations filterSeverity = Some engines ->
  filed filterSeverity engines violations.
Proof.
  unfold processViolationsByEngine. intros H.
  assert (Hf : filed match filterSeverity with
                     | VUndefined => VNull
                     | _ => filterSeverity
                     end engines ([] ++ violations)).
  { eapply (forEach_app _ (filed _)); [|exact H|].
    - intros s s' x done. apply groupViolation_filed.
    - split; [constructor|]. split; [discriminate|].
      split; [reflexivity | intros v []]. }
  destruct filterSeverity; exact Hf.
Qed.

Section Partition.

Variable P : Platform.

Lemma spreadRule_keeps (r : RuleObject.t) (rule : RuleNode.t) :
  spreadRule P r = Some rule ->
  ruleOf rule = RuleObject.rule r
  /\ RuleNode.violations rule = RuleObject.violations r.
Proof.
  unfold spreadRule. intros H.
  destruct (tagsString_of _); [|discriminate H]. cbn [bind] in H.
  destruct (severityLabel_of P _); [|discriminate H]. cbn [bind] in H.
  injection H as <-. now split.
Qed.

Lemma keyedRule_keeps (r : RuleObject.t) (rule : RuleNode.t) :
  keyedRule P r = Some rule ->
  ruleOf rule = RuleObject.rule r
  /\ RuleNode.violations rule = RuleObject.violations r.
Proof.
  unfold keyedRule. intros H.
  destruct (to_string _); [|discriminate H]. cbn [bind] in H.
  destruct (tagsString_of _); [|discriminate H]. cbn [bind] in H.
  destruct (severityLabel_of P _); [|discriminate H]. cbn [bind] in H.
  injection H as <-. now split.
Qed.

(** The rules of a node are the rule objects of its engine. *)
Lemma toEngineNode_rules (includeKey : bool) (e : EngineObject.t)
    (node : EngineNode.t) :
  toEngineNode P includeKey e = Some node ->
  EngineNode.engine node = EngineObject.engine e
  /\ exists f,
       mapi_from (fun _ : nat => f) 0 (Object_values (EngineObject.rules e))
       = Some (EngineNode.rules node)
       /\ forall r rule,
            f r = Some rule ->
            ruleOf rule = RuleObject.rule r
            /\ RuleNode.violations rule = RuleObject.violations r.
Proof.
  unfold toEngineNode. intros H.
  destruct (index engineDescriptions _); [|discriminate H]. cbn [bind] in H.
  destruct (to_string _); [|discriminate H]. cbn [bind] in H.
  destruct (mapi_from (fun _ => spreadRule P) 0 _) as [rules|] eqn:Hrules;
    [|discriminate H].
  cbn [bind] in H. destruct includeKey.
  - destruct (mapi_from (fun _ => keyedRule P) 0 _) as [keyed|] eqn:Hkeyed;
      [|discriminate H].
    cbn [bind] in H. injection H as <-. split; [reflexivity|].
    exists (keyedRule P). split; [exact Hkeyed | apply keyedRule_keeps].
  - injection H as <-. split; [reflexivity|].
    exists (spreadRule P). split; [exact Hrules | apply spreadRule_keeps].
Qed.

Lemma Object_values_keys {A : Type} (g : A -> option string)
    (o : list (string * A)) :
  NoDup (map fst o) ->
  (forall k a, assoc k o = Some a -> g a = Some k) ->
  NoDup (map g (Object_values o)).
Proof.
  intros Hnd Hg.
  apply (Permutation_NoDup
           (Permutation_sym (Permutation_map g (Object_values_perm o)))).
  assert (E : map g (map snd o) = map Some (map fst o)).
  { rewrite !map_map. apply map_ext_in. intros [k a] Hin. cbn.
    apply Hg. now apply In_assoc. }
  rewrite E. apply Finite.Injective_map_NoDup; [|exact Hnd].
  intros x y [= ->]. reflexivity.
Qed.

(** X11.  In the array the grouping by engine and rule produces, the
    engines have pairwise distinct keys, the rules of an engine have
    pairwise distinct keys, and a rule lists exactly the violations, in
    the order of the report, that pass the severity filter and whose
    engine and rule convert to the keys of its engine and of the rule.
    Every violation that passes the filter is listed under some rule. *)
Theorem grouping_partition (violations : list Violation.t)
    (filterSeverity : value) (includeKey : bool)
    (engines : list (string * EngineObject.t)) (nodes : list EngineNode.t) :
  processViolationsByEngine violations filterSeverity = Some engines ->
  transformEngineObjectsToArray P engines includeKey = Some nodes ->
  NoDup (map engineKeyOf nodes)
  /\ Forall
       (fun node =>
          NoDup (map ruleKeyOf (EngineNode.rules node))
          /\ exists engineKey,
               engineKeyOf node = Some engineKey
               /\ Forall
                    (fun rule =>
                       exists ruleKey,
                         ruleKeyOf rule = Some ruleKey
                         /\ RuleNode.violations rule
                            = filter
                                (fun v =>
                                   passes filterSeverity v
                                   && filedUnder engineKey ruleKey v)
                                violations)
                    (EngineNode.rules node))
       nodes
  /\ forall v,
       In v violations -> passes filterSeverity v = true ->
       exists node rule,
         In node nodes /\ In rule (EngineNode.rules node)
         /\ In v (RuleNode.violations rule).
Proof.
  intros Hgroup Hnodes.
  destruct (processViolationsByEngine_filed _ _ _ Hgroup)
    as [Hnd [Hkeys [Hlisted Hdone]]].
  unfold transformEngineObjectsToArray in Hnodes.
  split; [|split].
  - unfold engineKeyOf.
    rewrite (mapi_from_maps _
               (fun e => to_string (EngineObject.engine e))
               (fun node => to_string (EngineNode.engine node)) _
               (fun j e node Hn =>
                  f_equal to_string (proj1 (toEngineNode_rules _ _ _ Hn)))
               _ _ Hnodes).
    apply Object_values_keys; [exact Hnd|].
    intros k e He. now destruct (Hkeys k e He).
  - eapply mapi_from_Forall
      with (Q := fun e => exists ke, assoc ke engines = Some e);
      [|exact Hnodes|].
    + intros j e node Hnode [ke He].
      destruct (Hkeys ke e He) as [Hname [Hrnd Hrkeys]].
      destruct (toEngineNode_rules _ _ _ Hnode) as [Hen [f [Hrules Hf]]].
      split.
      * unfold ruleKeyOf.
        rewrite (mapi_from_maps _
                   (fun r => to_string (RuleObject.rule r))
                   (fun rule => to_string (ruleOf rule)) _
                   (fun j r rule Hr => f_equal to_string (proj1 (Hf r rule Hr)))
                   _ _ Hrules).
        now apply Object_values_keys.
      * exists ke. unfold engineKeyOf. rewrite Hen. split; [exact Hname|].
        eapply mapi_from_Forall
          with (Q := fun r =>
                       exists kr, assoc kr (EngineObject.rules e) = Some r);
          [|exact Hrules|].
        -- intros i r rule Hr [kr Hkr]. destruct (Hf r rule Hr) as [E1 E2].
           exists kr. unfold ruleKeyOf. rewrite E1, E2.
           split; [now apply Hrkeys|].
           rewrite <- Hlisted. unfold listedUnder. now rewrite He, Hkr.
        -- apply Forall_forall. intros r Hr.
           now apply Object_values_In in Hr.
    + apply Forall_forall. intros e He. now apply Object_values_In in He.
  - intros v Hv Hp. destruct (Hdone v Hv Hp) as [ke [kr Hunder]].
    assert (Hin : In v (listedUnder engines ke kr)).
    { rewrite Hlisted. apply filter_In. split; [exact Hv|].
      now rewrite Hp, Hunder. }
    unfold listedUnder in Hin.
    destruct (assoc ke engines) as [e|] eqn:He; [|contradiction].
    destruct (assoc kr (EngineObject.rules e)) as [r|] eqn:Hr; [|contradiction].
    destruct (Hkeys ke e He) as [_ [Hrnd _]].
    destruct (mapi_from_In _ _ _ _ Hnodes) as [Hto _].
    destruct (Hto e) as [j [node [Hnode Hnin]]].
    { apply Object_values_In; [exact Hnd | now exists ke]. }
    destruct (toEngineNode_rules _ _ _ Hnode) as [_ [f [Hrules Hf]]].
    destruct (mapi_from_In _ _ _ _ Hrules) as [Hrto _].
    destruct (Hrto r) as [i [rule [Hrule Hrin]]].
    { apply Object_values_In; [exact Hrnd | now exists kr]. }
    exists node, rule. split; [exact Hnin|]. split; [exact Hrin|].
    destruct (Hf r rule Hrule) as [_ ->]. exact Hin.
Qed.

End Partition.

(** ** Grouping by metadata type and file *)

Section EntriesOfMaps.
Context {A : Type}.

Lemma indexed_entries_perm (o : list (string * A)) :
  Permutation
    (map snd (indexed_entries o) ++ named_properties o)%list o.
Proof.
  unfold indexed_entries, named_properties.
  induction o as [|[k a] rest IH]; simpl; [reflexivity|].
  destruct (array_index k) as [n|]; simpl.
  - rewrite (Permutation_map snd (insert_index_perm n (k, a) _)). simpl.
    now constructor.
  - symmetry. apply Permutation_cons_app. symmetry. exact IH.
Qed.

Lemma Object_entries_perm (o : list (string * A)) :
  Permutation (Object_entries o) o.
Proof. apply indexed_entries_perm. Qed.

Lemma Object_entries_In (k : string) (a : A) (o : list (string * A)) :
  NoDup (map fst o) ->
  (In (k, a) (Object_entries o) <-> assoc k o = Some a).
Proof.
  intros Hnd. split.
  - intros H. apply In_assoc; [exact Hnd|].
    exact (Permutation_in _ (Object_entries_perm o) H).
  - intros H. apply assoc_In in H.
    exact (Permutation_in _ (Permutation_sym (Object_entries_perm o)) H).
Qed.

Lemma Object_entries_NoDup (o : list (string * A)) :
  NoDup (map fst o) -> NoDup (map fst (Object_entries o)).
Proof.
  apply Permutation_NoDup, Permutation_map, Permutation_sym,
    Object_entries_perm.
Qed.


End EntriesOfMaps.




Section TypeGrouping.








End TypeGrouping.

(** ** Grouping by rule *)

Lemma groupRule_filed (groups groups' : list (string * RuleObject.t))
    (violation : Violation.t) (done : list Violation.t) :
  groupRule groups violation = Some groups' ->
  filedByRule groups done ->
  filedByRule groups' (done ++ [violation]).
Proof.
  unfold groupRule. intros H [Hnd [Hkeys Hdone]].
  destruct (to_string (Violation.rule violation)) as [ruleKey|] eqn:Hrk;
    [|discriminate H].
  cbn [bind] in H.
  assert (Hunder : forall kr,
             filedUnderRule kr violation = String.eqb ruleKey kr).
  { intros kr. unfold filedUnderRule. now rewrite Hrk. }
  assert (Hrule :
    exists r,
      (match lookup ruleKey groups with
       | Own r => Some r
       | Missing => Some (createRuleObject violation)
       | Inherited => None
       end) = Some r
      /\ to_string (RuleObject.rule r) = Some ruleKey
      /\ RuleObject.violations r = filter (filedUnderRule ruleKey) done).
  { destruct (lookup ruleKey groups) as [r| |] eqn:Hr; [| discriminate H |].
    - apply lookup_Own in Hr. exists r. split; [reflexivity|].
      destruct (Hkeys _ _ Hr) as [H1 [_ H3]]. now split.
    - apply lookup_Missing in Hr. eexists. split; [reflexivity|].
      split; [exact Hrk|]. cbn [createRuleObject RuleObject.violations].
      symmetry.
      destruct (filter (filedUnderRule ruleKey) done) as [|v l] eqn:E;
        [reflexivity|].
      assert (Hv : In v (filter (filedUnderRule ruleKey) done))
        by (rewrite E; now left).
      apply filter_In in Hv. destruct Hv as [Hv Hu].
      destruct (Hdone v Hv) as [kr [r [Hr' Hin]]].
      destruct (Hkeys _ _ Hr') as [_ [_ Hr3]]. rewrite Hr3 in Hin.
      apply filter_In in Hin. destruct Hin as [_ Hu'].
      unfold filedUnderRule in Hu, Hu'.
      destruct (to_string (Violation.rule v)); [|discriminate Hu].
      apply String.eqb_eq in Hu, Hu'. subst. rewrite Hr in Hr'.
      discriminate Hr'. }
  destruct Hrule as [r [Hr [Hrname Hrv]]]. rewrite Hr in H. cbn [bind] in H.
  injection H as <-.
  split; [now apply assign_NoDup|]. split.
  - intros kr r' Hkr.
    destruct (String.eqb_spec kr ruleKey) as [->|Hne].
    + rewrite assoc_assign_same in Hkr. injection Hkr as <-.
      cbn [RuleObject.rule RuleObject.violations].
      split; [exact Hrname|]. split; [now destruct (RuleObject.violations r)|].
      rewrite filter_app_one, Hunder, String.eqb_refl. now rewrite Hrv.
    + rewrite assoc_assign_other in Hkr by exact Hne.
      destruct (Hkeys _ _ Hkr) as [H1 [H2 H3]]. split; [exact H1|].
      split; [exact H2|].
      rewrite filter_app_one, Hunder.
      rewrite (proj2 (String.eqb_neq ruleKey kr))
        by (intros E; now symmetry in E).
      now rewrite app_nil_r.
  - intros v Hv. apply in_app_or in Hv. destruct Hv as [Hv|[<-|[]]].
    + destruct (Hdone v Hv) as [kr [r' [Hr' Hin]]].
      destruct (String.eqb_spec kr ruleKey) as [->|Hne].
      * eexists ruleKey, _. rewrite assoc_assign_same. split; [reflexivity|].
        cbn [RuleObject.violations]. apply in_or_app. left.
        assert (E : r' = r).
        { destruct (lookup ruleKey groups) as [r0| |] eqn:Hl.
          - apply lookup_Own in Hl. rewrite Hl in Hr'. injection Hr as <-.
            now injection Hr'.
          - discriminate Hr.
          - apply lookup_Missing in Hl. rewrite Hl in Hr'. discriminate Hr'. }
        now subst.
      * exists kr, r'. now rewrite assoc_assign_other by exact Hne.
    + eexists ruleKey, _. rewrite assoc_assign_same. split; [reflexivity|].
      cbn [RuleObject.violations]. apply in_or_app. right. now left.
Qed.

(** X14.  [groupedByRule] returns rule objects of pairwise distinct rule
    keys, none of them empty: each lists exactly the rows, in their order,
    whose rule converts to its key, and every row is listed in one. *)
Theorem groupedByRule_partition (c : Component.t) (rows : list Violation.t)
    (groups : list RuleObject.t) :
  Component.formattedJson c = Some (Rows rows) ->
  groupedByRule c = Some groups ->
  NoDup (map (fun r => to_string (RuleObject.rule r)) groups)
  /\ Forall
       (fun r =>
          RuleObject.violations r <> []
          /\ exists ruleKey,
               to_string (RuleObject.rule r) = Some ruleKey
               /\ RuleObject.violations r = filter (filedUnderRule ruleKey) rows)
       groups
  /\ forall v,
       In v rows -> exists r, In r groups /\ In v (RuleObject.violations r).
Proof.
  unfold groupedByRule. intros -> H.
  destruct (forEach groupRule rows []) as [o|] eqn:Hrun; [|discriminate H].
  cbn [bind] in H. injection H as <-.
  assert (Hf : filedByRule o ([] ++ rows)).
  { eapply (forEach_app _ filedByRule); [|exact Hrun|].
    - intros s s' x done. apply groupRule_filed.
    - split; [constructor|]. split; [discriminate | intros v []]. }
  cbn [app] in Hf. destruct Hf as [Hnd [Hkeys Hdone]].
  split; [|split].
  - apply Object_values_keys; [exact Hnd|].
    intros k r Hr. now destruct (Hkeys k r Hr).
  - apply Forall_forall. intros r Hr.
    apply Object_values_In in Hr; [|exact Hnd]. destruct Hr as [k Hk].
    destruct (Hkeys k r Hk) as [H1 [H2 H3]]. split; [exact H2|]. now exists k.
  - intros v Hv. destruct (Hdone v Hv) as [kr [r [Hr Hin]]].
    exists r. split; [|exact Hin].
    apply Object_values_In; [exact Hnd | now exists kr].
Qed.

(** ** Grouping by file *)

Lemma groupFilePassing_filed (filterSeverity : value)
    (grouped grouped' : list (string * list Violation.t))
    (violation : Violation.t) (done : list Violation.t) :
  groupFilePassing filterSeverity grouped violation = Some grouped' ->
  filedByFile filterSeverity grouped done ->
  filedByFile filterSeverity grouped' (done ++ [violation]).
Proof.
  unfold groupFilePassing. intros H [Hnd [Hfull Hlisted]].
  assert (Hpass : passes filterSeverity violation
                  = match filteredOut filterSeverity violation with
                    | Some false => true
                    | _ => false
                    end) by reflexivity.
  destruct (filteredOut filterSeverity violation) as [[|]|];
    [| |discriminate H]; cbn [bind] in H.
  - injection H as <-. split; [exact Hnd|]. split; [exact Hfull|].
    intros file. rewrite filter_app_one, Hpass. cbn [andb].
    now rewrite app_nil_r.
  - unfold groupFile in H.
    assert (Hold : exists violations,
               listedUnderFile grouped (shownFile violation) = violations
               /\ grouped' = assign (shownFile violation)
                               (violations ++ [violation])%list grouped).
    { unfold listedUnderFile.
      destruct (lookup (shownFile violation) grouped) as [l| |] eqn:Hl;
        [| discriminate H |].
      - apply lookup_Own in Hl. rewrite Hl. injection H as <-. now exists l.
      - apply lookup_Missing in Hl. rewrite Hl. injection H as <-.
        now exists []. }
    destruct Hold as [violations [Hold ->]].
    split; [now apply assign_NoDup|]. split.
    + intros file l Hl.
      destruct (String.eqb_spec file (shownFile violation)) as [->|Hne].
      * rewrite assoc_assign_same in Hl. injection Hl as <-.
        now destruct violations.
      * rewrite assoc_assign_other in Hl by exact Hne. now apply (Hfull file).
    + intros file. rewrite filter_app_one, Hpass. cbn [andb].
      unfold filedUnderFile at 2.
      destruct (String.eqb_spec (shownFile violation) file) as [<-|Hne].
      * unfold listedUnderFile. rewrite assoc_assign_same.
        now rewrite <- Hlisted, Hold.
      * unfold listedUnderFile.
        rewrite assoc_assign_other by (intros E; now symmetry in E).
        rewrite app_nil_r. apply Hlisted.
Qed.

Lemma groupFile_passing (grouped : list (string * list Violation.t))
    (violation : Violation.t) :
  groupFile grouped violation = groupFilePassing VNull grouped violation.
Proof. reflexivity. Qed.

Lemma forEach_ext {A S : Type} (f g : S -> A -> option S) (l : list A) :
  (forall s x, f s x = g s x) -> forall s, forEach f l s = forEach g l s.
Proof.
  intros Hfg. induction l as [|x l IH]; intros s; simpl; [reflexivity|].
  rewrite Hfg. destruct (g s x); simpl; [apply IH | reflexivity].
Qed.

Lemma forEach_groupFilePassing (filterSeverity : value)
    (rows : list Violation.t) (grouped : list (string * list Violation.t)) :
  forEach (groupFilePassing filterSeverity) rows [] = Some grouped ->
  filedByFile filterSeverity grouped rows.
Proof.
  intros Hrun.
  change rows with ([] ++ rows)%list.
  eapply (forEach_app _ (filedByFile filterSeverity)); [|exact Hrun|].
  - intros s s' x done. apply groupFilePassing_filed.
  - split; [constructor|]. split; [discriminate | reflexivity].
Qed.

Lemma passes_unfiltered (filterSeverity : value) (row : Violation.t) :
  truthy filterSeverity = false -> passes filterSeverity row = true.
Proof. unfold passes, filteredOut. now intros ->. Qed.

(** X23.  In the array [groupByFilenameArray] returns for an array of
    rows, the files have pairwise distinct keys, the label of a file is its
    key, and no file is empty: it lists exactly the rows, in their order,
    that pass the severity filter and show that file.  Every row that
    passes the filter is listed under some file. *)
Theorem groupByFilenameArray_partition (c : Component.t)
    (rows : list Violation.t) (nodes : list FileNode.t) :
  groupByFilenameArray c (Some (Rows rows)) = Some nodes ->
  NoDup (map FileNode.key nodes)
  /\ Forall
       (fun node =>
          FileNode.label node = FileNode.key node
          /\ FileNode.violations node <> []
          /\ FileNode.violations node
             = filter
                 (fun v =>
                    passes (Component.selectedSeverity c) v
                    && filedUnderFile (FileNode.key node) v)
                 rows)
       nodes
  /\ forall v,
       In v rows -> passes (Component.selectedSeverity c) v = true ->
       exists node, In node nodes /\ In v (FileNode.violations node).
Proof.
  unfold groupByFilenameArray. intros H.
  destruct (forEach _ rows []) as [grouped|] eqn:Hrun; [|discriminate H].
  cbn [bind] in H. injection H as <-.
  destruct (forEach_groupFilePassing _ _ _ Hrun) as [Hnd [Hfull Hlisted]].
  assert (Hkeys : map FileNode.key (map toFileGroup (Object_entries grouped))
                  = map fst (Object_entries grouped)).
  { rewrite map_map. apply map_ext. now intros [file l]. }
  split; [|split].
  - rewrite Hkeys. now apply Object_entries_NoDup.
  - apply Forall_forall. intros node Hnode.
    apply in_map_iff in Hnode. destruct Hnode as [[file l] [<- Hin]].
    apply (Object_entries_In file l grouped Hnd) in Hin.
    cbn [toFileGroup FileNode.label FileNode.key FileNode.violations].
    split; [reflexivity|]. split; [now apply (Hfull file)|].
    rewrite <- Hlisted. unfold listedUnderFile. now rewrite Hin.
  - intros v Hv Hpass.
    assert (Hin : In v (listedUnderFile grouped (shownFile v))).
    { rewrite Hlisted. apply filter_In. split; [exact Hv|].
      rewrite Hpass. unfold filedUnderFile. now rewrite String.eqb_refl. }
    unfold listedUnderFile in Hin.
    destruct (assoc (shownFile v) grouped) as [l|] eqn:Hl; [|contradiction].
    exists (toFileGroup (shownFile v, l)). split; [|exact Hin].
    apply in_map. now apply (Object_entries_In _ _ _ Hnd).
Qed.

(** X24.  When [groupedViolations] returns an object, rows are loaded and
    the object holds under each file exactly the loaded rows that show the
    file, in their order; a file is a key exactly when some row shows it.
    With no severity selected, [groupByFilenameArray] gives for the loaded
    rows the entries of that object, in the order of its keys. *)
Theorem groupedViolations_files (groupBy : value) (c : Component.t)
    (grouped : list (string * list Violation.t)) :
  groupedViolations groupBy c = Some (Some grouped) ->
  exists rows,
    Component.formattedJson c = Some (Rows rows)
    /\ (forall file,
           listedUnderFile grouped file = filter (filedUnderFile file) rows)
    /\ (forall file,
           assoc file grouped <> None <-> exists v, In v rows /\ shownFile v = file)
    /\ (truthy (Component.selectedSeverity c) = false ->
        groupByFilenameArray c (Component.formattedJson c)
        = Some (map toFileGroup (Object_entries grouped))).
Proof.
  unfold groupedViolations. intros H.
  assert (Hg : groupByFilename (Component.formattedJson c) = Some grouped).
  { destruct (groupByFilename (Component.formattedJson c)) as [g|] eqn:E.
    - destruct groupBy as [| | | |s| |]; try (now injection H as <-).
      destruct (String.eqb_spec s "engine") as [->|Hne]; [discriminate H|].
      revert H. clear -Hne.
      repeat (destruct s as [|[[] [] [] [] [] [] [] []] s];
              try (intros [= <-]; reflexivity); try discriminate;
              try (exfalso; apply Hne; reflexivity)).
    - destruct groupBy as [| | | |s| |]; try discriminate H.
      revert H.
      repeat (destruct s as [|[[] [] [] [] [] [] [] []] s]; try discriminate). }
  clear H. unfold groupByFilename in Hg.
  destruct (Component.formattedJson c) as [[rows|s]|]; try discriminate Hg.
  exists rows. split; [reflexivity|].
  rewrite (forEach_ext _ (groupFilePassing VNull) rows groupFile_passing) in Hg.
  destruct (forEach_groupFilePassing _ _ _ Hg) as [Hnd [Hfull Hlisted]].
  split; [|split].
  - intros file. rewrite Hlisted. apply filter_ext. intros v.
    now rewrite passes_unfiltered.
  - intros file. specialize (Hlisted file). unfold listedUnderFile in Hlisted.
    split.
    + intros Hsome. destruct (assoc file grouped) as [l|] eqn:Hl; [|contradiction].
      specialize (Hfull file l Hl). destruct l as [|v l]; [contradiction|].
      assert (Hv : In v (v :: l)) by now left.
      rewrite Hlisted in Hv. apply filter_In in Hv. destruct Hv as [Hv Hu].
      exists v. split; [exact Hv|].
      apply andb_true_iff in Hu. destruct Hu as [_ Hu].
      now apply String.eqb_eq in Hu.
    + intros [v [Hv <-]] Hnone. rewrite Hnone in Hlisted.
      assert (Hin : In v []).
      { rewrite Hlisted. apply filter_In. split; [exact Hv|].
        rewrite passes_unfiltered by reflexivity. unfold filedUnderFile.
        now rewrite String.eqb_refl. }
      contradiction.
  - intros Hsev. unfold groupByFilenameArray.
    rewrite (forEach_ext (groupFilePassing (Component.selectedSeverity c))
               (groupFilePassing VNull)).
    + now rewrite Hg.
    + intros s x. unfold groupFilePassing, filteredOut. now rewrite Hsev.
Qed.

(** ** The total shown *)

Section Totals.

Variable P : Platform.







(** X16.  Without data (nothing loaded and no search at work) the getters
    [groupedByEngine], [filteredGroupedByEngine] and
    [groupedByMetadataTypeArray] return the empty array and the total is
    0, [groupedViolationsArray] returns the empty array in the grouping
    by type and file, but throws in the grouping by engine, where it
    hands the missing data on. *)
Theorem groupings_without_data (c : Component.t) :
  Component.data c = None ->
  groupedByEngine P c = Some []
  /\ filteredGroupedByEngine P c = Some []
  /\ groupedByMetadataTypeArray c = Returns []
  /\ groupedViolationsArray P (VStr "typefilename") c = Returns []
  /\ groupedViolationsArray P (VStr "engine") c = Throws
  /\ dynamicTotalViolations c = Some (VNum 0).
Proof.
  intros H.
  unfold groupedByEngine, filteredGroupedByEngine, groupedBy,
    groupedViolationsArray, groupedByMetadataTypeArray, dynamicTotalViolations.
  rewrite H. repeat split.
Qed.

(** X17.  A search for a non-blank term needs rows: while a text is shown,
    and before anything is loaded, [handleSearch] records the search value
    and throws, leaving the filter as it was. *)
Theorem handleSearch_without_rows (c : Component.t) (value : string) :
  (forall rows, Component.formattedJson c <> Some (Rows rows)) ->
  Str.toLowerCase (Str.trim value) <> "" ->
  handleSearch c value = (Component.set_searchValue value c, Threw).
Proof.
  intros Hrows Hterm. unfold handleSearch.
  destruct (String.eqb_spec value "") as [->|_]; [now contradiction Hterm|].
  destruct (String.eqb_spec (Str.toLowerCase (Str.trim value)) "") as [E|_];
    [contradiction|].
  unfold _applySearch. cbn [Component.set_searchValue Component.formattedJson].
  destruct (Component.formattedJson c) as [[rows|text]|]; try reflexivity.
  now contradiction (Hrows rows).
Qed.

End Totals.

(** ** The expansion of the templates *)

Lemma mapi_from_pure {A B : Type} (f : A -> option B) (h : A -> B)
    (l : list A) :
  (forall x, f x = Some (h x)) ->
  forall i, mapi_from (fun _ : nat => f) i l = Some (map h l).
Proof.
  intros Hf. induction l as [|x l IH]; intros i; simpl; [reflexivity|].
  now rewrite Hf, IH.
Qed.

Lemma forEach_flat_map {A B : Type} (f : list B -> A -> option (list B))
    (g : A -> list B) (l : list A) :
  (forall acc x, f acc x = Some (acc ++ g x)%list) ->
  forall acc, forEach f l acc = Some (acc ++ flat_map g l)%list.
Proof.
  intros Hf. induction l as [|x l IH]; intros acc; simpl.
  - now rewrite app_nil_r.
  - rewrite Hf. cbn [bind]. rewrite IH. now rewrite <- app_assoc.
Qed.

Lemma map_const {A B : Type} (b : B) (l : list A) :
  map (fun _ => b) l = repeat b (List.length l).
Proof. induction l as [|x l IH]; simpl; [reflexivity | now rewrite IH]. Qed.

Lemma split_lines_sites (listed : value) :
  truthy listed = false \/ (exists s, listed = VStr s) ->
  option_map (filter (fun x => negb (String.eqb x "")))
    (split_lines (if truthy listed then listed else VStr ""))
  = Some (sitesOf listed).
Proof.
  intros [H | [s ->]].
  - rewrite H. cbn. destruct listed as [ | |[]|n|s| | ]; try discriminate H;
      try reflexivity.
    simpl in H. apply negb_false_iff, String.eqb_eq in H. now subst.
  - cbn [truthy]. destruct (String.eqb_spec s "") as [->|]; reflexivity.
Qed.

(** A replacement without [$] is put in as it is. *)
Lemma GetSubstitution_plain (matched before after template : string) :
  plain template = true ->
  Str.GetSubstitution matched before after template = template.
Proof.
  unfold plain. induction template as [|c r IH]; [reflexivity|].
  cbn [Str.every]. intros H. apply andb_true_iff in H. destruct H as [Hc Hr].
  specialize (IH Hr).
  destruct c as [[|] [|] [|] [|] [|] [|] [|] [|]];
    try discriminate Hc; cbn [Str.GetSubstitution]; now rewrite IH.
Qed.

Lemma replace_plain (line pat text : string) :
  plain text = true -> Str.replace line pat text = putIn pat text line.
Proof.
  intros H. unfold Str.replace, putIn.
  destruct (Str.cut pat line) as [[before after]|]; [|reflexivity].
  now rewrite GetSubstitution_plain.
Qed.

(** A line includes a pattern when it can be cut at it. *)
Lemma includes_cut (pat line : string) :
  Str.includes line pat
  = match Str.cut pat line with
    | Some _ => true
    | None => false
    end.
Proof.
  induction line as [|c line IH]; cbn [Str.includes Str.cut].
  - destruct (prefix pat ""); reflexivity.
  - destruct (prefix pat (String c line)); [reflexivity|].
    cbn [orb]. rewrite IH.
    destruct (Str.cut pat line) as [[before after]|]; reflexivity.
Qed.

(** What a line includes before or after a pattern, it includes whatever
    is put in for the pattern. *)
Lemma prefix_app_l (sub line rest : string) :
  prefix sub line = true -> prefix sub (line ++ rest) = true.
Proof.
  revert line. induction sub as [|c sub IH]; intros line H;
    [now destruct (line ++ rest)|].
  destruct line as [|d line]; [discriminate H|]. cbn [append prefix] in *.
  destruct (ascii_dec c d); [now apply IH | discriminate H].
Qed.

Lemma includes_app_l (sub line rest : string) :
  Str.includes line sub = true -> Str.includes (line ++ rest) sub = true.
Proof.
  induction line as [|c line IH]; cbn [Str.includes append]; intros H.
  - rewrite orb_false_r in H.
    destruct sub as [|d sub]; [|discriminate H].
    now destruct rest.
  - apply orb_true_iff in H. apply orb_true_iff. destruct H as [H|H].
    + left. exact (prefix_app_l sub (String c line) rest H).
    + right. now apply IH.
Qed.

Lemma includes_app_r (sub line rest : string) :
  Str.includes rest sub = true -> Str.includes (line ++ rest) sub = true.
Proof.
  intros H. induction line as [|c line IH]; [exact H|].
  cbn [append Str.includes]. rewrite IH. apply orb_true_r.
Qed.

Lemma prefix_before (m : ascii) (sub line rest : string) :
  Str.every (fun c => negb (Ascii.eqb c m)) sub = true ->
  prefix sub (line ++ String m rest) = true -> prefix sub line = true.
Proof.
  revert line. induction sub as [|c sub IH]; intros line Hsub H;
    [now destruct line|].
  cbn [Str.every] in Hsub. apply andb_true_iff in Hsub.
  destruct Hsub as [Hc Hsub].
  destruct line as [|d line]; cbn [append prefix] in *.
  - destruct (ascii_dec c m) as [->|]; [|discriminate H].
    now rewrite Ascii.eqb_refl in Hc.
  - destruct (ascii_dec c d); [now apply IH | discriminate H].
Qed.

Lemma includes_before (m : ascii) (sub line rest : string) :
  Str.every (fun c => negb (Ascii.eqb c m)) sub = true ->
  Str.includes (line ++ String m rest) sub = true ->
  Str.includes line sub = true \/ Str.includes (String m rest) sub = true.
Proof.
  intros Hsub. induction line as [|c line IH]; intros H; [now right|].
  cbn [append] in H. cbn [Str.includes] in H.
  apply orb_true_iff in H. destruct H as [H|H].
  - left. cbn [Str.includes].
    change (String c (line ++ String m rest))
      with (String c line ++ String m rest) in H.
    now rewrite (prefix_before m sub (String c line) rest Hsub H).
  - destruct (IH H) as [Hl|Hr]; [left | now right].
    cbn [Str.includes]. rewrite Hl. apply orb_true_r.
Qed.

Lemma includes_after (b : ascii) (sub skipped rest : string) :
  Str.every (fun c => negb (Ascii.eqb c b)) skipped = true ->
  Str.includes (skipped ++ rest) (String b sub) = true ->
  Str.includes rest (String b sub) = true.
Proof.
  induction skipped as [|c skipped IH]; intros Hs H; [exact H|].
  cbn [Str.every] in Hs. apply andb_true_iff in Hs. destruct Hs as [Hc Hs].
  cbn [append Str.includes prefix] in H.
  destruct (ascii_dec b c) as [->|].
  - now rewrite Ascii.eqb_refl in Hc.
  - cbn [orb] in H. now apply IH.
Qed.

Lemma putIn_keeps_placeholder (text line : string) :
  Str.includes line "<site-id>" = true ->
  Str.includes (putIn "metadata/" text line) "<site-id>" = true.
Proof.
  intros H. unfold putIn.
  destruct (Str.cut "metadata/" line) as [[before after]|] eqn:Hcut;
    [|exact H].
  apply cut_app in Hcut. subst line.
  apply (includes_before "m" "<site-id>" before ("etadata/" ++ after)) in H;
    [|reflexivity].
  destruct H as [H|H].
  - now apply includes_app_l.
  - apply includes_app_r, includes_app_r.
    exact (includes_after "<" "site-id>" "metadata/" after eq_refl H).
Qed.

Section Expansion.

Variable P : Platform.

(** X18.  The expansion without a directory override.  When
    [SFCC_METADATA_ITEMS] is a string and [SFCC_SITES] a string or falsy
    whose non-empty lines, the sites, hold no [$], the callback does not
    throw and [_filtered] holds, for every line of the items in order: the
    line itself when it has no placeholder, and otherwise, for each site
    in order, what precedes the first placeholder, the site, and what
    follows that placeholder (no entry when there is no site). *)
Theorem filteredMetadata_sites (properties listed directory : value)
    (items : string) :
  field properties _SFCC_METADATA = Some (VStr items) ->
  field properties _SFCC_SITES = Some listed ->
  truthy listed = false \/ (exists s, listed = VStr s) ->
  forallb plain (sitesOf listed) = true ->
  field properties _SFCC_METADATA_DIRECTORY = Some directory ->
  truthy directory = false ->
  filteredMetadata properties
  = Some
      (flat_map
         (fun meta =>
            match Str.cut "<site-id>" meta with
            | Some (before, after) =>
                map (fun site => before ++ site ++ after) (sitesOf listed)
            | None => [meta]
            end)
         (Str.split_newlines items)).
Proof.
  intros Hitems Hsites Hlisted Hplain Hdir Hfalsy. unfold filteredMetadata.
  rewrite Hitems. cbn [bind split_lines]. rewrite Hsites. cbn [bind].
  pose proof (split_lines_sites listed Hlisted) as Hl.
  destruct (split_lines (if truthy listed then listed else VStr ""))
    as [lines|]; [|discriminate Hl].
  cbn [bind option_map] in *. injection Hl as ->.
  apply (forEach_flat_map _ _ _) with (acc := @nil string).
  intros acc meta. unfold expand, forSite, withDirectory.
  rewrite Hdir. cbn [bind]. rewrite Hfalsy, includes_cut.
  destruct (Str.cut "<site-id>" meta) as [[before after]|] eqn:Hcut;
    [|reflexivity].
  assert (Hmap :
    forall sites i,
      forallb plain sites = true ->
      mapi_from (fun _ site => Some (Str.replace meta "<site-id>" site)) i sites
      = Some (map (fun site => before ++ site ++ after) sites)).
  { induction sites as [|site sites IH]; intros i Hs; [reflexivity|].
    cbn [forallb] in Hs. apply andb_true_iff in Hs. destruct Hs as [Hsite Hs].
    cbn [mapi_from bind map]. rewrite (IH (S i) Hs). cbn [bind].
    rewrite (replace_plain meta "<site-id>" site Hsite). unfold putIn.
    now rewrite Hcut. }
  now rewrite (Hmap _ 0 Hplain).
Qed.

(** X19.  The expansion with a directory override that holds no [$].
    Every line of the items gives the line with the directory in the place
    of its first ['metadata/'] (the line itself when it has none), once when
    it has no placeholder and otherwise as many times as there are sites:
    the entries of a template are equal whatever the sites are called, and
    the placeholder is still in them. *)
Theorem filteredMetadata_directory (properties listed directory : value)
    (items replacement : string) :
  field properties _SFCC_METADATA = Some (VStr items) ->
  field properties _SFCC_SITES = Some listed ->
  truthy listed = false \/ (exists s, listed = VStr s) ->
  field properties _SFCC_METADATA_DIRECTORY = Some directory ->
  truthy directory = true ->
  to_string directory = Some replacement ->
  plain replacement = true ->
  filteredMetadata properties
  = Some
      (flat_map
         (fun meta =>
            repeat (putIn "metadata/" replacement meta)
              (if Str.includes meta "<site-id>"
               then List.length (sitesOf listed)
               else 1))
         (Str.split_newlines items))
  /\ forall meta,
       Str.includes meta "<site-id>" = true ->
       Str.includes (putIn "metadata/" replacement meta) "<site-id>" = true.
Proof.
  intros Hitems Hsites Hlisted Hdir Htruthy Hreplacement Hplain.
  split; [|intros meta; apply putIn_keeps_placeholder].
  unfold filteredMetadata.
  rewrite Hitems. cbn [bind split_lines]. rewrite Hsites. cbn [bind].
  pose proof (split_lines_sites listed Hlisted) as Hl.
  destruct (split_lines (if truthy listed then listed else VStr ""))
    as [lines|]; [|discriminate Hl].
  cbn [bind option_map] in *. injection Hl as ->.
  apply (forEach_flat_map _ _ _) with (acc := @nil string).
  intros acc meta. unfold expand, forSite, withDirectory.
  rewrite Hdir. cbn [bind]. rewrite Htruthy, Hreplacement. cbn [bind].
  rewrite (replace_plain meta "metadata/" replacement Hplain).
  destruct (Str.includes meta "<site-id>"); [|reflexivity].
  rewrite (mapi_from_pure _ (fun _ => putIn "metadata/" replacement meta))
    by reflexivity.
  cbn [bind]. now rewrite map_const.
Qed.

(** X20.  When the properties cannot be fetched, or hold no string under
    [SFCC_METADATA_ITEMS], [renderedCallback] makes the one call, logs the
    error and does nothing else: the changes are not fetched, nothing is
    published and the component is unchanged. *)
Theorem renderedCallback_without_items (c : Actions.t)
    (properties changes : settled value) :
  properties = Rejected
  \/ (exists props,
         properties = Resolved props
         /\ forall items, field props _SFCC_METADATA <> Some (VStr items)) ->
  renderedCallback P c properties changes
  = (c,
     [ GetSystemPropertiesFromPipelineOfUserStory (Actions.recordId c)
         [_SFCC_METADATA; _SFCC_SITES; _SFCC_METADATA_DIRECTORY];
       LogApexError ]).
Proof.
  intros [-> | [props [-> Hitems]]]; [reflexivity|].
  unfold renderedCallback, filteredMetadata.
  destruct (field props _SFCC_METADATA) as [items|]; [|reflexivity].
  cbn [bind]. destruct items; try reflexivity. now contradiction (Hitems s).
Qed.

End Expansion.

(** ** The order of lines of the same name *)

Section Stable.

Variable P : Platform.

Lemma nameLe_hasName (x y : CommitLine.t) (a : string) :
  CommitLine.MemberName x = VStr a ->
  (exists b, CommitLine.MemberName y = VStr b /\ String.ltb a b = true) ->
  hasName a y = false.
Proof.
  intros Hx [b [Hy Hlt]]. unfold hasName. rewrite Hy.
  apply String.eqb_neq. intros ->. unfold String.ltb in Hlt.
  now rewrite compare_refl in Hlt.
Qed.

Lemma ltb_leb_trans (a b c : string) :
  String.ltb a b = true -> String.leb b c = true -> String.ltb a c = true.
Proof.
  unfold String.ltb, String.leb.
  destruct (String.compare a b) eqn:Hab; try discriminate.
  destruct (String.compare b c) eqn:Hbc; try discriminate; intros _ _.
  - apply String.compare_eq_iff in Hbc. subst. now rewrite Hab.
  - now rewrite (compare_Lt_trans _ _ _ Hab Hbc).
Qed.

Lemma insert_by_stable (x : CommitLine.t) (sorted placed : list CommitLine.t)
    (name : string) :
  named_line x -> Forall named_line sorted -> StronglySorted nameLe sorted ->
  insert_by (byMemberName P) x sorted = Some placed ->
  filter (hasName name) placed
  = (filter (hasName name) sorted ++ filter (hasName name) [x])%list.
Proof.
  intros [a Ha] Hnamed Hsorted. revert placed.
  induction sorted as [|y rest IH]; intros placed H; simpl in H.
  - now injection H as <-.
  - inversion Hnamed as [|? ? [b Hb] Hrest]; subst.
    inversion Hsorted as [|? ? Hsrest Hy]; subst.
    rewrite (byMemberName_strings P x y a b Ha Hb) in H. cbn [bind] in H.
    destruct (String.ltb a b) eqn:Hlt.
    + change (-1 <? 0)%Z with true in H. cbv iota in H. injection H as <-.
      cbn [filter]. destruct (hasName name x) eqn:Hx; [|now rewrite app_nil_r].
      assert (Hname : name = a).
      { unfold hasName in Hx. rewrite Ha in Hx.
        now apply String.eqb_eq in Hx. }
      subst name.
      assert (Hnone : filter (hasName a) (y :: rest) = []).
      { assert (Hall : Forall (fun z => hasName a z = false) (y :: rest)).
        { constructor.
          - apply (nameLe_hasName x); [exact Ha | now exists b].
          - eapply Forall_impl; [|exact Hy].
            intros z [b' [c [Hb' [Hc Hle]]]]. rewrite Hb in Hb'.
            injection Hb' as <-.
            apply (nameLe_hasName x); [exact Ha|]. exists c.
            split; [exact Hc | now apply (ltb_leb_trans a b c)]. }
        clear -Hall. induction Hall as [|z l Hz _ IHl]; [reflexivity|].
        cbn [filter]. now rewrite Hz. }
      cbn [filter] in Hnone. rewrite Hnone. reflexivity.
    + assert (Hnot : ((if String.ltb b a then 1 else 0) <? 0)%Z = false)
        by (destruct (String.ltb b a); reflexivity).
      rewrite Hnot in H.
      destruct (insert_by (byMemberName P) x rest) as [placed'|] eqn:Hp;
        [|discriminate H].
      cbn [bind] in H. injection H as <-.
      cbn [filter]. rewrite (IH Hrest Hsrest placed' eq_refl).
      now destruct (hasName name y).
Qed.

Lemma forEach_insert_stable (name : string) (l : list CommitLine.t) :
  forall acc sorted : list CommitLine.t,
    Forall named_line l -> Forall named_line acc ->
    StronglySorted nameLe acc ->
    forEach (fun sorted x => insert_by (byMemberName P) x sorted) l acc
    = Some sorted ->
    filter (hasName name) sorted
    = (filter (hasName name) acc ++ filter (hasName name) l)%list.
Proof.
  induction l as [|x l IH]; intros acc sorted Hl Hacc Hs H; simpl in H.
  - injection H as <-. now rewrite app_nil_r.
  - inversion Hl as [|? ? Hx Hrest]; subst.
    destruct (insert_by_sorted P x acc Hx Hacc Hs) as [placed [Hp [Hperm Hsp]]].
    rewrite Hp in H. cbn [bind] in H.
    rewrite (IH placed sorted Hrest) ; [| |exact Hsp|exact H].
    + rewrite (insert_by_stable x acc placed name Hx Hacc Hs Hp).
      rewrite <- app_assoc. f_equal.
      change (x :: l) with ([x] ++ l)%list. now rewrite filter_app.
    + apply (Permutation_Forall (Permutation_sym Hperm)). now constructor.
Qed.

(** X21.  When the changeset parses to an array of records whose [n] is a
    string, the sort of [retrieveChanges] keeps the lines of the same
    member name in the order they were gathered in: first the metadata
    lines of that name, then the lines of the changeset of that name, each
    in their order. *)
Theorem retrieveChanges_keeps_order (c : Actions.t) (text : string)
    (items : list value) :
  JSON_parse P text = Some (VArr items) ->
  Forall (fun e => exists name, field e "n" = Some (VStr name)) items ->
  let allMetadataFound := map toMetadataLine (Actions._filtered c) in
  exists envObj sorted,
    snd (retrieveChanges P c (Resolved (VStr text)))
    = [ GetChangesFromUserStory (Actions.recordId c);
        LogFound allMetadataFound envObj;
        Publish {| Payload.type := "retrievedChanges";
                   Payload.value := sorted |} ]
    /\ forall name,
         filter (hasName name) sorted
         = (filter (hasName name) allMetadataFound
            ++ filter (hasName name) envObj)%list.
Proof.
  intros Hparse Hitems allMetadataFound.
  destruct (toEnvLine_total items Hitems) as [envObj [Henv [Hnamed _]]].
  assert (Hall : Forall named_line (allMetadataFound ++ envObj)).
  { apply Forall_app. split; [|exact Hnamed].
    subst allMetadataFound. apply Forall_map, Forall_forall.
    intros file _. now exists file. }
  destruct (Array_sort_sorted P _ Hall) as [sorted [Hsort _]].
  exists envObj, sorted. split.
  - unfold retrieveChanges, envLines. cbn [to_string bind].
    rewrite Hparse. cbn [bind]. rewrite Henv.
    fold allMetadataFound. now rewrite Hsort.
  - intros name. rewrite (Array_sort_named P _ Hall) in Hsort.
    rewrite (forEach_insert_stable name _ [] sorted Hall) ;
      [| constructor | constructor | exact Hsort].
    cbn [filter app]. now rewrite filter_app.
Qed.

End Stable.

(** ** utils.js *)

(** The names [reduceErrors] reads are members of no built-in prototype:
    their read is the own property, or [undefined]. *)
Lemma error_names_own (o : value) (name : string) :
  In name error_names -> Get o name = option_map Val (field o name).
Proof.
  intros Hin.
  assert (H : Str.mem name Object_prototype = false
              /\ Str.mem name Array_prototype = false
              /\ Str.mem name String_prototype = false
              /\ Str.mem name Number_prototype = false
              /\ Str.mem name Boolean_prototype = false).
  { destruct Hin as [<-|[<-|[<-|[]]]]; repeat split; reflexivity. }
  destruct H as [Hobj [Harr [Hstr [Hnum Hbool]]]].
  destruct o; try reflexivity;
    unfold Get, field, inherited;
    rewrite ?Hobj, ?Harr, ?Hstr, ?Hnum, ?Hbool;
    destruct (own_property _ name); reflexivity.
Qed.

Lemma falsy_cases (v : value) :
  truthy v = false ->
  v = VUndefined \/ v = VNull \/ v = VBool false \/ v = VNum 0 \/ v = VStr "".
Proof.
  destruct v as [ | |[]|n|s| | ]; simpl; intros H; try discriminate H; auto.
  - apply negb_false_iff, Z.eqb_eq in H. subst. auto.
  - apply negb_false_iff, String.eqb_eq in H. subst. auto 6.
Qed.

Lemma says_falsy (error : value) (messages : list string) :
  truthy error = false -> says error messages -> messages = [].
Proof.
  intros Hf Hs.
  destruct (falsy_cases error Hf) as [-> | [-> | [-> | [-> | ->]]]];
    inversion Hs; subst; try reflexivity;
    repeat match goal with
           | H : field ?e _ = Some _ |- _ =>
               tryif is_var e then fail
               else (vm_compute in H;
                     first [discriminate H | injection H as <-])
           | H : truthy _ = true |- _ => discriminate H
           | H : Forall2 _ [] _ |- _ => now inversion H
           end.
Qed.

Lemma join_strings (l : list string) :
  join_with to_string "," (map VStr l) = Some (String.concat "," l).
Proof.
  induction l as [|x l IH]; [reflexivity|].
  cbn [map join_with to_string bind] in *.
  destruct l as [|y l]; [reflexivity|].
  cbn [map] in *. rewrite IH. reflexivity.
Qed.

Lemma adds_string (message : string) : adds (VStr message) [message].
Proof.
  intros prev. unfold concat_spread. rewrite filter_app. f_equal.
  cbn. unfold nonEmpty. now destruct (String.eqb message "").
Qed.

Lemma adds_falsy (v : value) :
  truthy v = false -> adds v [].
Proof.
  intros H prev.
  assert (E : concat_spread prev v = (prev ++ [v])%list)
    by (destruct v; try reflexivity; discriminate H).
  rewrite E, filter_app. cbn. now rewrite H.
Qed.

Lemma adds_array (entries : list value) (messages : list string) :
  Forall2 (fun e m => field e "message" = Some (VStr m)) entries messages ->
  exists collected,
    mapi_from (fun (_ : nat) e => field e "message") 0 entries = Some collected
    /\ adds (VArr collected) messages.
Proof.
  intros H. generalize 0 as i.
  assert (Hmap : forall i,
             mapi_from (fun (_ : nat) e => field e "message") i entries
             = Some (map VStr messages)).
  { induction H as [|e m entries messages He _ IH]; intros i; [reflexivity|].
    simpl. rewrite He. cbn [bind]. now rewrite IH. }
  intros i. exists (map VStr messages). split; [apply Hmap|].
  intros prev. unfold concat_spread. rewrite filter_app. f_equal.
  clear. induction messages as [|m l IH]; [reflexivity|].
  cbn. unfold nonEmpty at 1. destruct (String.eqb m ""); cbn; now rewrite IH.
Qed.

Lemma messageOf_other (error body : value) :
  field error "body" = Some body ->
  (forall entries, body <> VArr entries) ->
  messageOf error
  = (inBody <- (if truthy body then field body "message" else Some VUndefined) ;;
     match inBody with
     | VStr _ => Some inBody
     | _ =>
         message <- field error "message" ;;
         match message with
         | VStr _ => Some message
         | _ => field error "statusText"
         end
     end).
Proof.
  intros Hbody Hna. unfold messageOf. rewrite Hbody. cbn [bind].
  destruct body; try reflexivity. now contradiction (Hna items).
Qed.

Lemma inBody_other (body : value) :
  truthy body = false
  \/ (forall text, field body "message" <> Some (VStr text)) ->
  exists inBody,
    (if truthy body then field body "message" else Some VUndefined)
    = Some inBody
    /\ forall text, inBody <> VStr text.
Proof.
  intros [H | H].
  - rewrite H. exists VUndefined. split; [reflexivity | discriminate].
  - destruct (truthy body) eqn:Ht;
      [|exists VUndefined; split; [reflexivity | discriminate]].
    destruct (field body "message") as [v|] eqn:E.
    + exists v. split; [reflexivity|]. intros text ->. now apply (H text).
    + destruct body; discriminate.
Qed.

Lemma messageOf_says (error : value) (messages : list string) :
  truthy error = true -> says error messages ->
  exists collected, messageOf error = Some collected /\ adds collected messages.
Proof.
  intros Ht Hs.
  inversion Hs as
    [ e Hf
    | e entries ms Hbody Hentries
    | e body m Hbody Htb Hna Hm
    | e body m Hbody Hna Hnb Hm
    | e body st Hbody Hna Hnb Hnm Hst
    | e body st _ Hbody Hna Hnb Hnm Hst Hfs ]; subst.
  - rewrite Ht in Hf. discriminate Hf.
  - unfold messageOf. rewrite Hbody. cbn [bind].
    destruct (adds_array entries messages Hentries) as [collected [-> Ha]].
    cbn [bind]. eauto.
  - rewrite (messageOf_other error body Hbody Hna), Htb, Hm. cbn [bind].
    eexists. split; [reflexivity | apply adds_string].
  - rewrite (messageOf_other error body Hbody Hna).
    destruct (inBody_other body Hnb) as [inBody [-> Hin]]. cbn [bind].
    rewrite Hm. cbn [bind].
    exists (VStr m). split; [|apply adds_string].
    destruct inBody; try reflexivity. now contradiction (Hin s).
  - rewrite (messageOf_other error body Hbody Hna).
    destruct (inBody_other body Hnb) as [inBody [-> Hin]]. cbn [bind].
    assert (Hmessage : exists message,
               field error "message" = Some message
               /\ forall text, message <> VStr text).
    { destruct (field error "message") as [v|] eqn:E.
      - exists v. split; [reflexivity|]. intros text ->. now apply (Hnm text).
      - destruct error; discriminate. }
    destruct Hmessage as [message [-> Hmsg]]. cbn [bind].
    exists (VStr st). split; [|apply adds_string].
    destruct inBody; try (now contradiction (Hin s));
      destruct message; try (now contradiction (Hmsg s)); exact Hst.
  - rewrite (messageOf_other error body Hbody Hna).
    destruct (inBody_other body Hnb) as [inBody [-> Hin]]. cbn [bind].
    assert (Hmessage : exists message,
               field error "message" = Some message
               /\ forall text, message <> VStr text).
    { destruct (field error "message") as [v|] eqn:E.
      - exists v. split; [reflexivity|]. intros text ->. now apply (Hnm text).
      - destruct error; discriminate. }
    destruct Hmessage as [message [-> Hmsg]]. cbn [bind].
    exists st. split; [|now apply adds_falsy].
    destruct inBody; try (now contradiction (Hin s));
      destruct message; try (now contradiction (Hmsg s)); exact Hst.
Qed.

Lemma fold_concat_spread (collected : list value) (texts : list (list string)) :
  Forall2 adds collected texts ->
  forall prev,
    filter truthy (fold_left concat_spread collected prev)
    = (filter truthy prev ++ map VStr (filter nonEmpty (concat texts)))%list.
Proof.
  induction 1 as [|c ms collected texts Hc _ IH]; intros prev; cbn.
  - now rewrite app_nil_r.
  - rewrite IH, Hc, filter_app, map_app. now rewrite <- app_assoc.
Qed.

(** X22.  For a list of errors of the shapes [reduceErrors] names (a UI
    API read error with an array of bodies, an error with a message in
    its body, an error with a message, an error with a status text) and
    of falsy entries, the result is the text of their non-empty messages,
    in order, separated by commas; the function does not throw. *)
Theorem reduceErrors_says (errors : list value) (texts : list (list string)) :
  Forall2 says errors texts ->
  reduceErrors (VArr errors)
  = Some (String.concat "," (filter nonEmpty (concat texts))).
Proof.
  intros H. unfold reduceErrors.
  assert (Hcollected :
    forall i,
    exists collected kept,
      mapi_from (fun _ : nat => messageOf) i (filter truthy errors)
      = Some collected
      /\ Forall2 adds collected kept
      /\ filter nonEmpty (concat kept) = filter nonEmpty (concat texts)).
  { induction H as [|error ms errors texts Herror _ IH]; intros i.
    - exists [], []. repeat split. constructor.
    - cbn [filter]. destruct (truthy error) eqn:Ht.
      + destruct (messageOf_says error ms Ht Herror) as [c [Hc Ha]].
        destruct (IH (S i)) as [collected [kept [Hrun [Hadds Hsame]]]].
        exists (c :: collected), (ms :: kept). cbn [mapi_from].
        rewrite Hc. cbn [bind]. rewrite Hrun. cbn [bind].
        split; [reflexivity|]. split; [now constructor|].
        cbn [concat]. now rewrite !filter_app, Hsame.
      + destruct (IH i) as [collected [kept [Hrun [Hadds Hsame]]]].
        exists collected, kept. split; [exact Hrun|]. split; [exact Hadds|].
        rewrite (says_falsy error ms Ht Herror). exact Hsame. }
  destruct (Hcollected 0) as [collected [kept [-> [Hadds Hsame]]]].
  cbn [bind]. rewrite (fold_concat_spread collected kept Hadds []).
  cbn [filter app]. rewrite Hsame. apply join_strings.
Qed.

(** * The statements on concrete inputs *)

Module Run.

Import Reference.

(** The reference parser reads the texts written for the examples. *)
Lemma payload_text : JSON_parse (JSON_text Example.payload) = Some Example.payload.
Proof. vm_compute. reflexivity. Qed.

Lemma report_text : JSON_parse (JSON_text Example.report) = Some Example.report.
Proof. vm_compute. reflexivity. Qed.

(** ** The classification *)

(** The example payload is classified as a table of one record. *)
Lemma getFormattedData_classifies_witness :
  JSON_parse (JSON_text Example.payload) = Some Example.payload
  /\ field Example.payload "violations" = Some (VArr [Example.record])
  /\ exists rows,
       snd (getFormattedData platform Component.initial
              (JSON_text Example.payload))
       = {| Formatted.formattedJson := Rows rows; Formatted.type := "Table" |}
       /\ List.length rows = 1.
Proof.
  assert (Hparse : JSON_parse (JSON_text Example.payload) = Some Example.payload)
    by (vm_compute; reflexivity).
  split; [exact Hparse|]. split; [reflexivity|].
  destruct (getFormattedData_classifies platform Component.initial
              (JSON_text Example.payload) Example.payload
              (VArr [Example.record]) Hparse eq_refl)
    as [rows [Hrows [Hlen _]]].
  - intros [|[|i]] violation H; simpl in H; try discriminate H.
    injection H as <-. vm_compute. discriminate.
  - exists rows. split; assumption.
Defined.

(** C1 as stated fails twice: a parsed value that has a [violations] array,
    an empty one, is classified ['YAML'], not ['Table']; and the parsed
    value [null], which has no [violations] array, is classified ['String'],
    not ['YAML']. *)
Lemma getFormattedData_empty_array_and_null :
  (JSON_parse (JSON_text Example.noViolations) = Some Example.noViolations
   /\ field Example.noViolations "violations" = Some (VArr [])
   /\ Formatted.type
        (snd (getFormattedData platform Component.initial
                (JSON_text Example.noViolations)))
      = "YAML")
  /\ (JSON_parse "null" = Some VNull
      /\ Formatted.type
           (snd (getFormattedData platform Component.initial "null"))
         = "String").
Proof. repeat split; vm_compute; reflexivity. Qed.

(** A text that is no JSON is shown as it is. *)
Lemma getFormattedData_parse_failure_witness :
  JSON_parse "Analysis failed: no such file" = None
  /\ getFormattedData platform Component.initial "Analysis failed: no such file"
     = (Component.initial,
        {| Formatted.formattedJson := Text "Analysis failed: no such file";
           Formatted.type := "String" |}).
Proof.
  assert (H : JSON_parse "Analysis failed: no such file" = None)
    by (vm_compute; reflexivity).
  split; [exact H|].
  exact (getFormattedData_parse_failure platform Component.initial
           "Analysis failed: no such file" H).
Defined.

(** ** The transformer *)

Ltac expected_record :=
  split; [eexists; reflexivity|];
  split;
  [ intros name v [<-|[<-|[<-|[]]]] H; vm_compute in H; injection H as <-;
    vm_compute; discriminate
  | intros loc H; vm_compute in H; injection H as <-;
    split; intros x Hx; vm_compute in Hx; injection Hx as <-;
    first [ right; eexists; reflexivity | left; reflexivity
          | vm_compute; discriminate ] ].

(** The report is transformed into four records; the record whose index is
    out of range takes its first location, the one without locations has
    the unknown file and no line. *)
Lemma transformJson_total_witness :
  field Example.report "violations"
  = Some (VArr [Example.record; Example.outOfRange; Example.noLocation;
                Example.noIndex])
  /\ Forall expected
       [Example.record; Example.outOfRange; Example.noLocation; Example.noIndex]
  /\ missingOrOutOfRange (VNum 4)
       [ VObj [ ("file", VStr "force-app/main/default/classes/Bar.cls");
                ("startLine", VNum 7) ] ]
  /\ noUsableLocation Example.noLocation
  /\ exists rows,
       transformJson platform Example.report = Some rows
       /\ List.length rows = 4
       /\ option_map Violation.line (nth_error rows 1) = Some (VNum 7)
       /\ option_map Violation.file (nth_error rows 2) = Some "Unknown File"
       /\ option_map Violation.line (nth_error rows 2) = Some VUndefined.
Proof.
  assert (Hexpected :
    Forall expected
      [Example.record; Example.outOfRange; Example.noLocation; Example.noIndex])
    by (repeat (apply Forall_cons; [expected_record|]); apply Forall_nil).
  assert (Hout :
    missingOrOutOfRange (VNum 4)
      [ VObj [ ("file", VStr "force-app/main/default/classes/Bar.cls");
               ("startLine", VNum 7) ] ])
    by (right; exists 4%Z; split; [reflexivity | right; simpl; lia]).
  assert (Hno : noUsableLocation Example.noLocation)
    by (exists VUndefined; split; [reflexivity | left; reflexivity]).
  split; [reflexivity|]. split; [exact Hexpected|]. split; [exact Hout|].
  split; [exact Hno|].
  destruct (transformJson_total platform Example.report
              [Example.record; Example.outOfRange; Example.noLocation;
               Example.noIndex] eq_refl Hexpected)
    as [rows [Hrows [Hlen Hnth]]].
  exists rows. split; [exact Hrows|]. split; [exact Hlen|].
  destruct (Hnth 1 Example.outOfRange eq_refl) as [row1 [H1 [_ [Hfallback _]]]].
  destruct (Hfallback _ (VNum 4) eq_refl eq_refl Hout) as [_ Hline].
  destruct (Hnth 2 Example.noLocation eq_refl) as [row2 [H2 [_ [_ Hunknown]]]].
  destruct (Hunknown Hno) as [Hfile Hundefined].
  change (Some (VNum 7) = Some (Violation.line row1)) in Hline.
  injection Hline as Hline.
  rewrite H1, H2. cbn [option_map]. rewrite <- Hline, Hfile, Hundefined.
  repeat split.
Defined.

(** C10 as stated fails: a [violations] array of objects on which the
    transformer throws, the [file] of the location being a number, which
    has no [match]. *)
Lemma transformJson_throws_on_numeric_file :
  field Example.numericFile "violations"
  = Some (VArr [ VObj [ ("locations", VArr [ VObj [ ("file", VNum 5) ] ]) ] ])
  /\ transformJson platform Example.numericFile = None.
Proof. split; vm_compute; reflexivity. Qed.

(** ** The filters *)

(** Two clicks on severity [3] in the initial state. *)
Lemma handleSeverityClick_twice_witness :
  Component.selectedSeverity Component.initial = VNull
  /\ Component.selectedSeverity
       (handleSeverityClick (handleSeverityClick Component.initial (Some "3"))
          (Some "3"))
     = VNull.
Proof.
  split; [reflexivity|].
  exact (proj1 (handleSeverityClick_twice Component.initial (Some "3") eq_refl)).
Defined.

(** A search for [bar] in the report, written in upper case and with
    blanks around, keeps the one row of that file; three blanks restore
    the four rows. *)
Lemma handleSearch_then_clear_witness :
  Str.trim "   " = ""
  /\ Component.formattedJson Example.loaded = Some (Rows Example.rows)
  /\ Str.toLowerCase (Str.trim " BAR ") <> ""
  /\ option_map (map Violation.file)
       (Component.filteredJson (fst (handleSearch Example.loaded " BAR ")))
     = Some ["classes/Bar.cls"]
  /\ Component.data
       (fst (handleSearch (fst (handleSearch Example.loaded " BAR ")) "   "))
     = Some (Rows Example.rows).
Proof.
  assert (Hblank : Str.trim "   " = "") by reflexivity.
  assert (Hterm : Str.toLowerCase (Str.trim " BAR ") <> "")
    by (vm_compute; discriminate).
  split; [exact Hblank|]. split; [reflexivity|]. split; [exact Hterm|].
  destruct (handleSearch_then_clear Example.loaded " BAR " "   " Hblank)
    as [[_ [_ Hdata]] Hactive].
  split; [|exact Hdata].
  rewrite (Hactive Example.rows (fst (handleSearch Example.loaded " BAR "))
             eq_refl Hterm);
    vm_compute; reflexivity.
Defined.

(** C8 as stated fails: the search for [pmd] keeps the row whose engine is
    [PMD], although the string coercion of none of its properties
    contains [pmd]. *)
Lemma handleSearch_ignores_case :
  exists row,
    transformJson platform Example.upperCase = Some [row]
    /\ Component.filteredJson
         (fst (handleSearch
                 (wiredVersion platform Component.initial
                    (JSON_text Example.upperCase))
                 "pmd"))
       = Some [row]
    /\ existsb (fieldContainsVerbatim "pmd") (Violation.entries row) = false.
Proof. eexists. repeat split; vm_compute; reflexivity. Qed.

(** ** The grouping *)

(** The report under the severity filter [3]: two engines, the counts of
    [pmd] and [eslint] are 2 and 1, three of the four rows pass. *)
Lemma grouping_counts_witness :
  processViolationsByEngine Example.rows (VStr "3") = Some Example.engines
  /\ transformEngineObjectsToArray platform Example.engines true
     = Some Example.nodes
  /\ map EngineNode.violationCount Example.nodes = [2; 1]
  /\ Forall
       (fun node =>
          list_sum (map ruleCount (EngineNode.rules node))
          = EngineNode.violationCount node)
       Example.nodes
  /\ list_sum (map EngineNode.violationCount Example.nodes)
     = List.length (filter (passes (VStr "3")) Example.rows).
Proof.
  assert (Hengines :
    processViolationsByEngine Example.rows (VStr "3") = Some Example.engines)
    by (vm_compute; reflexivity).
  assert (Hnodes :
    transformEngineObjectsToArray platform Example.engines true
    = Some Example.nodes)
    by (vm_compute; reflexivity).
  split; [exact Hengines|]. split; [exact Hnodes|]. split; [reflexivity|].
  exact (grouping_counts platform Example.rows (VStr "3") true Example.engines
           Example.nodes Hengines Hnodes).
Defined.

(** ** The commit-table actions *)

(** The changeset of two records is published with the two metadata
    lines, in the order of the member names. *)
Lemma retrieveChanges_publishes_sorted_witness :
  JSON_parse (JSON_text Example.changes) = Some Example.changes
  /\ Forall (fun e => exists name, field e "n" = Some (VStr name))
       [ VObj [ ("n", VStr "metadata/sites/A/urls"); ("t", VStr "xml");
                ("m", VStr "sites"); ("c", VStr "sfcc") ];
         VObj [ ("n", VStr "cartridges/app/cartridge.js"); ("t", VStr "js");
                ("m", VStr "cartridges"); ("c", VStr "code") ] ]
  /\ exists envObj sorted,
       retrieveChanges platform Example.actions
         (Resolved (VStr (JSON_text Example.changes)))
       = (Actions.set_isWorking false Example.actions,
          [ GetChangesFromUserStory (Actions.recordId Example.actions);
            LogFound (map toMetadataLine (Actions._filtered Example.actions))
              envObj;
            Publish {| Payload.type := "retrievedChanges";
                       Payload.value := sorted |} ])
       /\ map CommitLine.MemberName sorted
          = [ VStr "cartridges/app/cartridge.js";
              VStr "metadata/sites/A/settings"; VStr "metadata/sites/A/urls";
              VStr "metadata/sites/B/settings" ]
       /\ StronglySorted nameLe sorted.
Proof.
  assert (Hparse : JSON_parse (JSON_text Example.changes) = Some Example.changes)
    by (vm_compute; reflexivity).
  assert (Hnamed :
    Forall (fun e => exists name, field e "n" = Some (VStr name))
      [ VObj [ ("n", VStr "metadata/sites/A/urls"); ("t", VStr "xml");
               ("m", VStr "sites"); ("c", VStr "sfcc") ];
        VObj [ ("n", VStr "cartridges/app/cartridge.js"); ("t", VStr "js");
               ("m", VStr "cartridges"); ("c", VStr "code") ] ])
    by (repeat (apply Forall_cons; [eexists; reflexivity|]); apply Forall_nil).
  split; [exact Hparse|]. split; [exact Hnamed|].
  destruct (retrieveChanges_publishes_sorted platform Example.actions
              (JSON_text Example.changes) _ Hparse Hnamed)
    as [envObj [sorted [Hrun [_ [Hsorted _]]]]].
  exists envObj, sorted. split; [exact Hrun|]. split; [|exact Hsorted].
  vm_compute in Hrun. injection Hrun as _ <-. reflexivity.
Defined.

(** C5 as stated fails on member names that are not strings.  Numbers are
    compared by their value: [9] is published before [10], although ["10"]
    precedes ["9"] in the order of the strings.  And a record without [n]
    compares equal to every name, so that the comparator is not consistent:
    on the reference platform the names [b], [undefined], [a] are published
    as they came. *)
Lemma retrieveChanges_names_not_strings :
  (JSON_parse (JSON_text Sample.numbered) = Some Sample.numbered
   /\ publishedNames
        (snd (retrieveChanges platform (Actions.set_filtered [] Example.actions)
                (Resolved (VStr (JSON_text Sample.numbered)))))
      = [ [ VNum 9; VNum 10 ] ]
   /\ to_string (VNum 9) = Some "9" /\ to_string (VNum 10) = Some "10"
   /\ String.ltb "10" "9" = true)
  /\ (JSON_parse (JSON_text Sample.unnamed) = Some Sample.unnamed
      /\ publishedNames
           (snd (retrieveChanges platform
                   (Actions.set_filtered [] Example.actions)
                   (Resolved (VStr (JSON_text Sample.unnamed)))))
         = [ [ VStr "b"; VUndefined; VStr "a" ] ]).
Proof. repeat split; vm_compute; reflexivity. Qed.

(** A result that does not parse, and a call that rejects. *)
Lemma retrieveChanges_fetch_failure_witness :
  JSON_parse "<html>Service unavailable</html>" = None
  /\ retrieveChanges platform Example.actions
       (Resolved (VStr "<html>Service unavailable</html>"))
     = (Actions.set_isWorking false Example.actions,
        [ GetChangesFromUserStory (Actions.recordId Example.actions);
          LogException ])
  /\ retrieveChanges platform Example.actions Rejected
     = (Actions.set_isWorking false Example.actions,
        [ GetChangesFromUserStory (Actions.recordId Example.actions);
          LogException ]).
Proof.
  assert (Hparse : JSON_parse "<html>Service unavailable</html>" = None)
    by (vm_compute; reflexivity).
  split; [exact Hparse|].
  pose proof (retrieveChanges_fetch_failure platform Example.actions
                (Resolved (VStr "<html>Service unavailable</html>"))
                (or_intror (ex_intro _ _ (conj eq_refl Hparse)))) as Hunparsed.
  pose proof (retrieveChanges_fetch_failure platform Example.actions Rejected
                (or_introl eq_refl)) as Hrejected.
  split.
  - destruct (retrieveChanges platform Example.actions
                (Resolved (VStr "<html>Service unavailable</html>")))
      as [c' events].
    destruct Hunparsed as [-> [_ [-> _]]]. reflexivity.
  - destruct (retrieveChanges platform Example.actions Rejected) as [c' events].
    destruct Hrejected as [-> [_ [-> _]]]. reflexivity.
Defined.

(** The whole flow on the example configuration and an empty changeset:
    without an override the two sites are published, with an override the
    template is published twice, the placeholder still in it. *)
Lemma renderedCallback_without_directory :
  publishedNames
    (snd (renderedCallback platform Example.actions
            (Resolved Example.properties) (Resolved (VStr "[]"))))
  = [ [ VStr "metadata/sites/A/settings"; VStr "metadata/sites/B/settings" ] ].
Proof. vm_compute. reflexivity. Qed.

Lemma renderedCallback_with_directory :
  publishedNames
    (snd (renderedCallback platform Example.actions
            (Resolved Example.propertiesWithDirectory) (Resolved (VStr "[]"))))
  = [ [ VStr "cartridge/sites/<site-id>/settings";
        VStr "cartridge/sites/<site-id>/settings" ] ].
Proof. vm_compute. reflexivity. Qed.

(** ** The path shortening and the ids *)

(** A path of a project: what follows [main/default/] is shown. *)
Lemma extractFileAfterDefault_first_marker_witness :
  "force-app/main/default/classes/Foo.cls" <> ""
  /\ Str.cut "main/default/" "force-app/main/default/classes/Foo.cls"
     = Some ("force-app/", "classes/Foo.cls")
  /\ extractFileAfterDefault (VStr "force-app/main/default/classes/Foo.cls")
     = Some "classes/Foo.cls".
Proof.
  assert (Hpath : "force-app/main/default/classes/Foo.cls" <> "")
    by discriminate.
  assert (Hcut : Str.cut "main/default/" "force-app/main/default/classes/Foo.cls"
                 = Some ("force-app/", "classes/Foo.cls")) by reflexivity.
  split; [exact Hpath|]. split; [exact Hcut|].
  pose proof (extractFileAfterDefault_first_marker _ Hpath) as H.
  rewrite Hcut in H.
  apply (H "classes" "Foo.cls" "");
    first [reflexivity | discriminate | exact I].
Defined.

(** The row of the component of the example report: its type is [lwc]. *)
Lemma typeAndFile_splits_witness :
  exists row,
    nth_error Example.rows 3 = Some row
    /\ Violation.file row <> ""
    /\ Violation.file row = "lwc/table/table.js"
    /\ typeAndFile row = ("lwc", "table/table.js")
    /\ Violation.file row
       = fst (typeAndFile row) ++ "/" ++ snd (typeAndFile row).
Proof.
  eexists. split; [reflexivity|].
  match goal with
  | |- Violation.file ?row <> "" /\ _ =>
      assert (Hfile : Violation.file row <> "") by discriminate;
      pose proof (typeAndFile_splits row Hfile) as H
  end.
  split; [exact Hfile|]. split; [reflexivity|]. split; [reflexivity|].
  match type of H with
  | (let (_, _) := ?tf in _) => change tf with ("lwc", "table/table.js") in H
  end.
  cbv iota in H.
  match type of H with
  | (if ?b then _ else _) => change b with false in H
  end.
  exact (proj1 H).
Defined.

(** The four rows of the example report have four ids. *)
Lemma transformJson_ids_witness :
  transformJson platform Example.report = Some Example.rows
  /\ map Violation.id Example.rows
     = [ "R1-main/default/classes/Foo.cls-10-0";
         "R1-force-app/main/default/classes/Bar.cls-7-1";
         "R2-undefined-undefined-2";
         "no-unused-vars-force-app/main/default/lwc/table/table.js-1-3" ]
  /\ NoDup (map Violation.id Example.rows).
Proof.
  assert (H : transformJson platform Example.report = Some Example.rows)
    by (vm_compute; reflexivity).
  split; [exact H|]. split; [reflexivity|].
  exact (transformJson_ids platform Example.report Example.rows H).
Defined.

(** The record of the component: type [lwc], file key [table/table.js]. *)
Lemma toViolation_typeAndFile_witness :
  exists row,
    toViolation platform 3 Example.noIndex = Some row
    /\ Str.cut "main/default/" "force-app/main/default/lwc/table/table.js"
       = Some ("force-app/", "lwc" ++ "/" ++ "table/table.js" ++ "")
    /\ Violation.file row = "lwc" ++ "/" ++ "table/table.js"
    /\ typeAndFile row = ("lwc", "table/table.js").
Proof.
  destruct (toViolation platform 3 Example.noIndex) as [row|] eqn:Hrow;
    [|vm_compute in Hrow; discriminate Hrow].
  exists row. split; [reflexivity|].
  assert (Hcut : Str.cut "main/default/" "force-app/main/default/lwc/table/table.js"
                 = Some ("force-app/", "lwc" ++ "/" ++ "table/table.js" ++ ""))
    by reflexivity.
  split; [exact Hcut|].
  apply (toViolation_typeAndFile platform 3 Example.noIndex row
           (Val (VObj [ ("file", VStr "force-app/main/default/lwc/table/table.js");
                        ("startLine", VNum 1) ]))
           "force-app/main/default/lwc/table/table.js" "force-app/"
           "lwc" "table/table.js" "" Hrow);
    first [reflexivity | discriminate | exact I].
Defined.

(** ** The states of the component *)

(** The example report is loaded, [bar] is searched and severity [3]
    clicked. *)
Lemma reachable_consistent_witness :
  let c :=
    handleSeverityClick
      (fst (handleSearch
              (wiredVersion platform Component.initial
                 (JSON_text Example.report))
              "bar"))
      (Some "3") in
  reachable platform c
  /\ Component.type c = Some "Table"
  /\ isYAML c = false.
Proof.
  cbv zeta.
  assert (H : reachable platform
                (handleSeverityClick
                   (fst (handleSearch
                           (wiredVersion platform Component.initial
                              (JSON_text Example.report))
                           "bar"))
                   (Some "3")))
    by (repeat constructor).
  split; [exact H|]. split; [vm_compute; reflexivity|].
  exact (proj2 (reachable_consistent platform _ H)).
Defined.

(** A report without violations arrives while the example report is
    shown: the four rows stay, the counts are the new ones. *)
Lemma wiredVersion_no_violations_witness :
  JSON_parse (JSON_text Sample.emptyReport) = Some Sample.emptyReport
  /\ field Sample.emptyReport "violationCounts"
     = Some (VObj [ ("total", VNum 0) ])
  /\ field Sample.emptyReport "violations" = Some (VArr [])
  /\ wiredVersion platform Example.loaded (JSON_text Sample.emptyReport)
     = Component.set_violationCounts (VObj [ ("total", VNum 0) ]) Example.loaded
  /\ Component.formattedJson
       (wiredVersion platform Example.loaded (JSON_text Sample.emptyReport))
     = Some (Rows Example.rows).
Proof.
  assert (Hparse : JSON_parse (JSON_text Sample.emptyReport)
                   = Some Sample.emptyReport) by (vm_compute; reflexivity).
  split; [exact Hparse|]. split; [reflexivity|]. split; [reflexivity|].
  pose proof (wiredVersion_no_violations platform Example.loaded
                (JSON_text Sample.emptyReport) Sample.emptyReport (VArr [])
                (VObj [ ("total", VNum 0) ]) Hparse eq_refl eq_refl I) as H.
  split; [exact H|]. rewrite H. reflexivity.
Defined.

(** ** The groupings *)

(** The example report under the severity filter [3]: the keys of the
    engines are [pmd] and [eslint]. *)
Lemma grouping_partition_witness :
  processViolationsByEngine Example.rows (VStr "3") = Some Example.engines
  /\ transformEngineObjectsToArray platform Example.engines true
     = Some Example.nodes
  /\ map engineKeyOf Example.nodes = [Some "pmd"; Some "eslint"]
  /\ NoDup (map engineKeyOf Example.nodes)
  /\ forall v,
       In v Example.rows -> passes (VStr "3") v = true ->
       exists node rule,
         In node Example.nodes /\ In rule (EngineNode.rules node)
         /\ In v (RuleNode.violations rule).
Proof.
  assert (Hengines :
    processViolationsByEngine Example.rows (VStr "3") = Some Example.engines)
    by (vm_compute; reflexivity).
  assert (Hnodes :
    transformEngineObjectsToArray platform Example.engines true
    = Some Example.nodes)
    by (vm_compute; reflexivity).
  split; [exact Hengines|]. split; [exact Hnodes|]. split; [reflexivity|].
  destruct (grouping_partition platform Example.rows (VStr "3") true
              Example.engines Example.nodes Hengines Hnodes)
    as [Hkeys [_ Hlisted]].
  split; [exact Hkeys | exact Hlisted].
Defined.




(** The example report by rule: [R1] with two rows, [R2] and
    [no-unused-vars] with one. *)
Lemma groupedByRule_partition_witness :
  Component.formattedJson Example.loaded = Some (Rows Example.rows)
  /\ groupedByRule Example.loaded = Some Sample.ruleObjects
  /\ map (fun r => (RuleObject.rule r, List.length (RuleObject.violations r)))
       Sample.ruleObjects
     = [ (VStr "R1", 2); (VStr "R2", 1); (VStr "no-unused-vars", 1) ]
  /\ NoDup (map (fun r => to_string (RuleObject.rule r)) Sample.ruleObjects).
Proof.
  assert (Hgroups : groupedByRule Example.loaded = Some Sample.ruleObjects)
    by (vm_compute; reflexivity).
  split; [reflexivity|]. split; [exact Hgroups|]. split; [reflexivity|].
  exact (proj1 (groupedByRule_partition Example.loaded Example.rows
                  Sample.ruleObjects eq_refl Hgroups)).
Defined.


(** The component before anything is loaded. *)
Lemma groupings_without_data_witness :
  Component.data Component.initial = None
  /\ groupedViolationsArray platform (VStr "typefilename") Component.initial
     = Returns []
  /\ groupedViolationsArray platform (VStr "engine") Component.initial
     = Throws.
Proof.
  split; [reflexivity|].
  destruct (groupings_without_data platform Component.initial eq_refl)
    as [_ [_ [_ [Htype [Hengine _]]]]].
  split; [exact Htype | exact Hengine].
Defined.

(** A search while a text that is no JSON is shown. *)
Lemma handleSearch_without_rows_witness :
  let c :=
    wiredVersion platform Component.initial "Analysis failed: no such file" in
  Component.formattedJson c = Some (Text "Analysis failed: no such file")
  /\ Str.toLowerCase (Str.trim "failed") <> ""
  /\ handleSearch c "failed" = (Component.set_searchValue "failed" c, Threw).
Proof.
  cbv zeta.
  assert (Hshown :
    Component.formattedJson
      (wiredVersion platform Component.initial "Analysis failed: no such file")
    = Some (Text "Analysis failed: no such file")) by (vm_compute; reflexivity).
  assert (Hterm : Str.toLowerCase (Str.trim "failed") <> "")
    by (vm_compute; discriminate).
  split; [exact Hshown|]. split; [exact Hterm|].
  apply handleSearch_without_rows; [|exact Hterm].
  intros rows. rewrite Hshown. discriminate.
Defined.

(** ** The commit-table actions *)

(** The configuration of the example, without and with an override. *)
Lemma filteredMetadata_sites_witness :
  field Example.properties _SFCC_METADATA
  = Some (VStr "metadata/sites/<site-id>/settings")
  /\ field Example.properties _SFCC_SITES
     = Some (VStr ("A" ++ Example.newline ++ "B"))
  /\ sitesOf (VStr ("A" ++ Example.newline ++ "B")) = ["A"; "B"]
  /\ field Example.properties _SFCC_METADATA_DIRECTORY = Some VUndefined
  /\ filteredMetadata Example.properties
     = Some ["metadata/sites/A/settings"; "metadata/sites/B/settings"].
Proof.
  split; [reflexivity|]. split; [reflexivity|]. split; [reflexivity|].
  split; [reflexivity|].
  apply (filteredMetadata_sites Example.properties
           (VStr ("A" ++ Example.newline ++ "B")) VUndefined
           "metadata/sites/<site-id>/settings");
    try reflexivity.
  right. now eexists.
Defined.

Lemma filteredMetadata_directory_witness :
  field Example.propertiesWithDirectory _SFCC_METADATA
  = Some (VStr "metadata/sites/<site-id>/settings")
  /\ field Example.propertiesWithDirectory _SFCC_SITES
     = Some (VStr ("A" ++ Example.newline ++ "B"))
  /\ field Example.propertiesWithDirectory _SFCC_METADATA_DIRECTORY
     = Some (VStr "cartridge/")
  /\ filteredMetadata Example.propertiesWithDirectory
     = Some [ "cartridge/sites/<site-id>/settings";
              "cartridge/sites/<site-id>/settings" ].
Proof.
  split; [reflexivity|]. split; [reflexivity|]. split; [reflexivity|].
  apply (filteredMetadata_directory Example.propertiesWithDirectory
           (VStr ("A" ++ Example.newline ++ "B")) (VStr "cartridge/")
           "metadata/sites/<site-id>/settings" "cartridge/");
    try reflexivity.
  right. now eexists.
Defined.

(** Properties without a list of items. *)
Lemma renderedCallback_without_items_witness :
  (forall items, field (VObj [ ("SFCC_SITES", VStr "A") ]) _SFCC_METADATA
                 <> Some (VStr items))
  /\ renderedCallback platform Example.actions
       (Resolved (VObj [ ("SFCC_SITES", VStr "A") ])) (Resolved (VStr "[]"))
     = (Example.actions,
        [ GetSystemPropertiesFromPipelineOfUserStory
            (Actions.recordId Example.actions)
            [_SFCC_METADATA; _SFCC_SITES; _SFCC_METADATA_DIRECTORY];
          LogApexError ]).
Proof.
  assert (H : forall items,
             field (VObj [ ("SFCC_SITES", VStr "A") ]) _SFCC_METADATA
             <> Some (VStr items)) by (intros items; discriminate).
  split; [exact H|].
  apply renderedCallback_without_items. right. eexists. split; [reflexivity|].
  exact H.
Defined.

(** The changeset names [metadata/sites/A/settings] again: the metadata
    line of that name comes first. *)
Lemma retrieveChanges_keeps_order_witness :
  JSON_parse (JSON_text Sample.changes) = Some Sample.changes
  /\ exists envObj sorted,
       snd (retrieveChanges platform Example.actions
              (Resolved (VStr (JSON_text Sample.changes))))
       = [ GetChangesFromUserStory (Actions.recordId Example.actions);
           LogFound (map toMetadataLine (Actions._filtered Example.actions))
             envObj;
           Publish {| Payload.type := "retrievedChanges";
                      Payload.value := sorted |} ]
       /\ map CommitLine.Category
            (filter (hasName "metadata/sites/A/settings") sorted)
          = [VStr "ccmetadata"; VStr "sfcc"].
Proof.
  assert (Hparse : JSON_parse (JSON_text Sample.changes) = Some Sample.changes)
    by (vm_compute; reflexivity).
  split; [exact Hparse|].
  destruct (retrieveChanges_keeps_order platform Example.actions
              (JSON_text Sample.changes) _ Hparse)
    as [envObj [sorted [Hrun Horder]]].
  { repeat (apply Forall_cons; [eexists; reflexivity|]). apply Forall_nil. }
  exists envObj, sorted. split; [exact Hrun|].
  rewrite Horder. vm_compute in Hrun. injection Hrun as <- _. reflexivity.
Defined.

(** ** utils.js *)

(** Errors of every shape, a [null] among them and one that says
    nothing. *)
Lemma reduceErrors_says_witness :
  Forall2 says Sample.errors
    [ ["No access"; "Record locked"]; []; ["Apex limit"]; ["x is undefined"];
      ["Not Found"]; [] ]
  /\ reduceErrors (VArr Sample.errors)
     = Some "No access,Record locked,Apex limit,x is undefined,Not Found".
Proof.
  assert (H : Forall2 says Sample.errors
                [ ["No access"; "Record locked"]; []; ["Apex limit"];
                  ["x is undefined"]; ["Not Found"]; [] ]).
  { repeat apply Forall2_cons; try apply Forall2_nil.
    - eapply says_read; [reflexivity|].
      repeat apply Forall2_cons; try apply Forall2_nil; reflexivity.
    - now apply says_nothing_falsy.
    - eapply says_body; try reflexivity. discriminate.
    - eapply says_message; try reflexivity; [discriminate | now left].
    - eapply says_status; try reflexivity;
        [discriminate | now left | discriminate].
    - eapply says_nothing; try reflexivity;
        [discriminate | now left | discriminate]. }
  split; [exact H|].
  exact (reduceErrors_says Sample.errors _ H).
Defined.

(** ** Grouping by file *)

(** The rows of the example report twice over, with severity [3] selected:
    three files of two rows each. *)
Lemma groupByFilenameArray_partition_witness :
  let c := handleSeverityClick Example.loaded (Some "3") in
  exists nodes,
    groupByFilenameArray c (Some (Rows (Example.rows ++ Example.rows)%list))
    = Some nodes
    /\ map (fun n => (FileNode.key n, List.length (FileNode.violations n))) nodes
       = [ ("classes/Foo.cls", 2%nat); ("classes/Bar.cls", 2%nat);
           ("lwc/table/table.js", 2%nat) ]
    /\ NoDup (map FileNode.key nodes).
Proof.
  cbv zeta.
  let found :=
    eval vm_compute in
      (groupByFilenameArray (handleSeverityClick Example.loaded (Some "3"))
         (Some (Rows (Example.rows ++ Example.rows)%list))) in
  match found with
  | Some ?nodes => exists nodes
  end.
  assert (Hnodes :
    groupByFilenameArray (handleSeverityClick Example.loaded (Some "3"))
      (Some (Rows (Example.rows ++ Example.rows)%list)) = Some _)
    by (vm_compute; reflexivity).
  split; [exact Hnodes|]. split; [reflexivity|].
  exact (proj1 (groupByFilenameArray_partition _ _ _ Hnodes)).
Defined.

(** The example report in the grouping by file name: four files, the
    third of them ['Unknown File']. *)
Lemma groupedViolations_files_witness :
  groupedViolations (VStr "filename") Example.loaded
  = Some (Some Sample.fileMap)
  /\ map fst Sample.fileMap
     = [ "classes/Foo.cls"; "classes/Bar.cls"; "Unknown File";
         "lwc/table/table.js" ]
  /\ exists rows,
       Component.formattedJson Example.loaded = Some (Rows rows)
       /\ forall file,
            listedUnderFile Sample.fileMap file
            = filter (filedUnderFile file) rows.
Proof.
  assert (Hgrouped : groupedViolations (VStr "filename") Example.loaded
                     = Some (Some Sample.fileMap))
    by (vm_compute; reflexivity).
  split; [exact Hgrouped|]. split; [reflexivity|].
  destruct (groupedViolations_files _ _ _ Hgrouped)
    as [rows [Hrows [Hlisted _]]].
  exists rows. now split.
Defined.

End Run.
